(** * pd-scout: the agentic exploration engine

    A shallow embedding of [src/core/analyzer.ts] (class [AgenticAnalyzer])
    and [src/core/tools.ts] (class [ToolRegistry]), and the properties of the
    round loop, the tool dispatch and the usage accounting; then of the
    helpers and collaborators of the engine: the template interpolator, the
    repository and context handlers, the Git utilities and the cache key.

    Conventions of the embedding.
    - A JavaScript exception is the text that the handlers of the source
      extract from it ([error instanceof Error ? error.message : String(error)]).
    - A method that mutates [this] is a computation in the monad [M]: it takes
      the analyzer state and returns the outcome ([Ok] or [Throw]) together
      with the state it leaves behind; a throw does not undo mutations.
    - The language model, the repository and documentation collaborators and
      the [JSON] built-ins are the environment [Env]. The model is indexed by
      the number of requests already sent and receives the request itself, so
      any sequence of responses is an environment.
    - Token counts are natural numbers ([N]); [maxRounds] counts loop
      iterations ([nat]); [tokenBudget] is an integer ([Z]).
    - [estimatedCost] is the exact rational value of the formula of
      [calculateCost]; the source computes it in double precision, whose
      operations are monotone, so order properties carry over.
    - The test [totalTokens > tokenBudget * 0.8] is [5 * totalTokens >
      4 * tokenBudget]: for integers below 2^50 the double product
      [tokenBudget * 0.8] lies on the same side of every integer as the exact
      product (it is exact when 5 divides [tokenBudget], and at least 0.2 away
      from any integer otherwise).
    - Of the logger only the line [Executing tool: <name>] with its arguments
      is kept ([execLog]); wall-clock metadata of the result is left out. *)

From Stdlib Require Import String List ZArith NArith QArith Lia Bool.
Import ListNotations.
Open Scope string_scope.
Open Scope list_scope.
Open Scope nat_scope.

(** ** JavaScript values *)

(** The values [JSON.parse] can produce, and [undefined]. *)
#[warnings="-register-all"]
Inductive JValue : Type :=
| JUndefined
| JNull
| JBool (b : bool)
| JNum (n : Z)
| JStr (s : string)
| JArr (items : list JValue)
| JObj (fields : list (string * JValue)).

(** The outcome of an expression that may throw. *)
Inductive Result (A : Type) : Type :=
| Ok (a : A)
| Throw (message : string).
Arguments Ok {A} a.
Arguments Throw {A} message.

Fixpoint lookupField (name : string) (fields : list (string * JValue)) : JValue :=
  match fields with
  | [] => JUndefined
  | (k, v) :: rest => if String.eqb k name then v else lookupField name rest
  end.

(** Property read [v.name], for the property names the source reads
    ([pattern], [files], [filePattern], [path], [opportunities], [patterns],
    [summary]): none of them is inherited from a prototype. Reading a property
    of [null] or [undefined] is a [TypeError] (text as in V8). *)
Definition getProp (v : JValue) (name : string) : Result JValue :=
  match v with
  | JNull => Throw ("Cannot read properties of null (reading '" ++ name ++ "')")
  | JUndefined =>
      Throw ("Cannot read properties of undefined (reading '" ++ name ++ "')")
  | JObj fields => Ok (lookupField name fields)
  | _ => Ok JUndefined
  end.

(** ** Data model *)

(** [UsageMetrics] of [src/models/results.ts]. *)
Record UsageMetrics : Type := mkUsage {
  totalTokens : N;
  promptTokens : N;
  completionTokens : N;
  estimatedCost : Q;
  rounds : nat
}.

(** The [usage] object of a chat-completion response. *)
Record CompletionUsage : Type := mkCompletionUsage {
  total_tokens : N;
  prompt_tokens : N;
  completion_tokens : N
}.

(** One entry of [message.tool_calls]. *)
Record ToolCall : Type := mkToolCall {
  tc_id : string;
  tc_name : string;
  tc_arguments : string
}.

(** [response.choices[0].message]. *)
Record AssistantMessage : Type := mkAssistant {
  am_content : option string;
  am_tool_calls : option (list ToolCall)
}.

(** An element of [history]. *)
Inductive Message : Type :=
| SystemMsg (content : string)
| UserMsg (content : string)
| AssistantMsg (message : AssistantMessage)
| ToolMsg (tool_call_id : string) (content : string).

Inductive ToolChoice : Type :=
| ToolChoiceAuto
| ToolChoiceFunction (name : string).

(** The argument of [client.chat.completions.create]; [req_tools] lists the
    names of the tool definitions. *)
Record Request : Type := mkRequest {
  req_model : string;
  req_messages : list Message;
  req_tools : list string;
  req_tool_choice : ToolChoice
}.

Record Response : Type := mkResponse {
  resp_usage : option CompletionUsage;
  resp_message : option AssistantMessage
}.

(** [config.analysis]. *)
Record Config : Type := mkConfig {
  model : string;
  tokenBudget : Z;
  maxRounds : nat
}.

(** The mutable fields of [ToolRegistry]. *)
Record ToolRegistry : Type := mkTools {
  finishCalled : bool;
  analysisResults : JValue;
  execLog : list (string * JValue)
}.

(** The mutable fields of [AgenticAnalyzer], with two observation logs: the
    requests sent to the model, and the value of [usage] after the token
    accounting of each round. *)
Record State : Type := mkState {
  history : list Message;
  usage : UsageMetrics;
  tools : ToolRegistry;
  requests : list Request;
  usageTrace : list UsageMetrics
}.

Inductive Status : Type := StatusComplete | StatusIncomplete | StatusError.

Record AnalysisPayload : Type := mkPayload {
  opportunities : JValue;
  patterns : JValue;
  summary : JValue
}.

(** [AnalysisResult] without the [metadata] and [config] echoes. *)
Record AnalysisResult : Type := mkResult {
  results : AnalysisPayload;
  res_usage : UsageMetrics;
  status : Status;
  error : option string
}.

(** ** Environment *)

(** [RepoHandler] as the registry uses it. The first argument is the number of
    tool executions started before the call: the file system may change
    between calls. *)
Record RepoHandler : Type := mkRepo {
  listFiles : nat -> JValue -> Result JValue;
  readFiles : nat -> JValue -> Result JValue;
  searchCode : nat -> JValue -> JValue -> Result JValue;
  getDependencies : nat -> Result JValue
}.

Record ContextHandler : Type := mkContext {
  listDocuments : nat -> Result JValue;
  readDocument : nat -> JValue -> Result JValue
}.

Record Env : Type := mkEnv {
  JSON_parse : string -> Result JValue;
  JSON_stringify : JValue -> string;
  chat_create : nat -> Request -> Result Response;
  repoHandler : RepoHandler;
  contextHandler : option ContextHandler;
  buildSystemPrompt : Result string;
  buildUserPrompt : Result string
}.

(** ** The state and exception monad *)

Definition M (A : Type) : Type := State -> Result A * State.

Definition ret {A} (a : A) : M A := fun st => (Ok a, st).

Definition throw {A} (message : string) : M A := fun st => (Throw message, st).

Definition bind {A B} (m : M A) (k : A -> M B) : M B :=
  fun st =>
    match m st with
    | (Ok a, st') => k a st'
    | (Throw e, st') => (Throw e, st')
    end.

(** [try { m } catch (error) { handler(error) }]. *)
Definition try_catch {A} (m : M A) (handler : string -> M A) : M A :=
  fun st =>
    match m st with
    | (Ok a, st') => (Ok a, st')
    | (Throw e, st') => handler e st'
    end.

Definition lift {A} (r : Result A) : M A := fun st => (r, st).

Definition get : M State := fun st => (Ok st, st).

Definition modify (f : State -> State) : M unit := fun st => (Ok tt, f st).

Declare Scope monad_scope.
Delimit Scope monad_scope with monad.
Notation "x <- m ;; k" := (bind m (fun x => k))
  (at level 61, m at next level, right associativity) : monad_scope.
Notation "m ;; k" := (bind m (fun _ => k))
  (at level 61, right associativity) : monad_scope.
Open Scope monad_scope.

(** [for (const x of xs) { body(x) }]: a throw leaves the loop. *)
Fixpoint forEach {A} (xs : list A) (body : A -> M unit) : M unit :=
  match xs with
  | [] => ret tt
  | x :: rest => body x ;; forEach rest body
  end.

(** ** State updates *)

Definition set_history (h : list Message) (st : State) : State :=
  mkState h (usage st) (tools st) (requests st) (usageTrace st).

Definition set_usage (u : UsageMetrics) (st : State) : State :=
  mkState (history st) u (tools st) (requests st) (usageTrace st).

Definition set_tools (t : ToolRegistry) (st : State) : State :=
  mkState (history st) (usage st) t (requests st) (usageTrace st).

Definition log_request (r : Request) (st : State) : State :=
  mkState (history st) (usage st) (tools st) (requests st ++ [r]) (usageTrace st).

Definition log_usage (st : State) : State :=
  mkState (history st) (usage st) (tools st) (requests st)
          (usageTrace st ++ [usage st]).

(** [this.history.push(m)]. *)
Definition push (m : Message) : M unit :=
  modify (fun st => set_history (history st ++ [m]) st).

(** The analyzer as its constructor leaves it. *)
Definition newAnalyzer : State :=
  mkState [] (mkUsage 0 0 0 0%Q 0) (mkTools false JNull []) [] [].

(** ** The program *)

Section Analyzer.

Variable cfg : Config.
Variable env : Env.

(** *** ToolRegistry ([src/core/tools.ts]) *)

(** [getDefinitions()], by tool name. *)
Definition getDefinitions : list string :=
  ["list_files"; "read_files"; "search_code"; "get_dependencies";
   "finish_analysis"]
  ++ match contextHandler env with
     | Some _ => ["list_context_docs"; "read_context_doc"]
     | None => []
     end.

(** The names [execute] has a case for. *)
Definition recognizedTools : list string :=
  ["list_files"; "read_files"; "search_code"; "get_dependencies";
   "list_context_docs"; "read_context_doc"; "finish_analysis"].

(** Whether [execute] has a case for [name]. *)
Definition isRecognized (name : string) : bool :=
  existsb (String.eqb name) recognizedTools.

(** The two [logger.debug] lines at the head of [execute]: the name and the
    arguments of the execution that starts. *)
Definition log_execute (name : string) (args : JValue) : M unit :=
  modify (fun st =>
    set_tools (mkTools (finishCalled (tools st)) (analysisResults (tools st))
                       (execLog (tools st) ++ [(name, args)])) st).

(** The number of tool executions started before the current one. *)
Definition clock : M nat :=
  fun st => (Ok (pred (length (execLog (tools st)))), st).

(** [if (!this.contextHandler) throw new Error(...)]. *)
Definition requireContext : M ContextHandler :=
  match contextHandler env with
  | Some h => ret h
  | None => throw "No context handler available"
  end.

(** [ToolRegistry.execute(name, args)]. *)
Definition execute (name : string) (args : JValue) : M JValue :=
  log_execute name args ;;
  t <- clock ;;
  if String.eqb name "list_files" then
    p <- lift (getProp args "pattern") ;;
    lift (listFiles (repoHandler env) t p)
  else if String.eqb name "read_files" then
    fs <- lift (getProp args "files") ;;
    lift (readFiles (repoHandler env) t fs)
  else if String.eqb name "search_code" then
    p <- lift (getProp args "pattern") ;;
    fp <- lift (getProp args "filePattern") ;;
    lift (searchCode (repoHandler env) t p fp)
  else if String.eqb name "get_dependencies" then
    lift (getDependencies (repoHandler env) t)
  else if String.eqb name "list_context_docs" then
    h <- requireContext ;;
    lift (listDocuments h t)
  else if String.eqb name "read_context_doc" then
    h <- requireContext ;;
    p <- lift (getProp args "path") ;;
    lift (readDocument h t p)
  else if String.eqb name "finish_analysis" then
    modify (fun st =>
      set_tools (mkTools true args (execLog (tools st))) st) ;;
    ret (JObj [("status", JStr "Analysis complete")])
  else
    throw ("Unknown tool: " ++ name).

(** [isFinished()]. *)
Definition isFinished : M bool :=
  fun st => (Ok (finishCalled (tools st)), st).

(** [getResults()]. *)
Definition getResults : M JValue :=
  fun st => (Ok (analysisResults (tools st)), st).

(** *** AgenticAnalyzer ([src/core/analyzer.ts]) *)

(** [calculateCost(usage)]. *)
Definition calculateCost (u : UsageMetrics) : Q :=
  let inputCost := ((inject_Z (Z.of_N (promptTokens u)) / 1000) * (1 # 100))%Q in
  let outputCost :=
    ((inject_Z (Z.of_N (completionTokens u)) / 1000) * (3 # 100))%Q in
  (inputCost + outputCost)%Q.

(** [await this.client.chat.completions.create({...})]. *)
Definition create (choice : ToolChoice) : M Response :=
  st <- get ;;
  let req := mkRequest (model cfg) (history st) getDefinitions choice in
  modify (log_request req) ;;
  lift (chat_create env (length (requests st)) req).

(** [if (response.usage) { ... }]. *)
Definition trackUsage (response : Response) : M unit :=
  match resp_usage response with
  | Some ru =>
      modify (fun st =>
        let u := usage st in
        let u1 := mkUsage (totalTokens u + total_tokens ru)
                          (promptTokens u + prompt_tokens ru)
                          (completionTokens u + completion_tokens ru)
                          (estimatedCost u) (rounds u) in
        set_usage (mkUsage (totalTokens u1) (promptTokens u1)
                           (completionTokens u1) (calculateCost u1)
                           (rounds u1)) st)
  | None => ret tt
  end.

(** [this.usage.rounds = n]. *)
Definition setRounds (n : nat) : M unit :=
  modify (fun st =>
    let u := usage st in
    set_usage (mkUsage (totalTokens u) (promptTokens u) (completionTokens u)
                       (estimatedCost u) n) st).

(** The body of [for (const toolCall of message.tool_calls)] in
    [explorationLoop]: the [try] block and its [catch]. *)
Definition runToolCall (toolCall : ToolCall) : M unit :=
  try_catch
    (args <- lift (JSON_parse env (tc_arguments toolCall)) ;;
     result <- execute (tc_name toolCall) args ;;
     push (ToolMsg (tc_id toolCall) (JSON_stringify env result)))
    (fun error => push (ToolMsg (tc_id toolCall) ("Error: " ++ error))).

(** The body of the same loop in [forceCompletion]: no [try]. *)
Definition runForcedToolCall (toolCall : ToolCall) : M unit :=
  args <- lift (JSON_parse env (tc_arguments toolCall)) ;;
  _ <- execute (tc_name toolCall) args ;;
  ret tt.

Definition forceInstruction : string :=
  "You have reached the budget/round limit. Please call finish_analysis now with whatever findings you have gathered so far. "
  ++ "Include all opportunities you have identified, even if the analysis is not fully complete.".

(** [forceCompletion()]. *)
Definition forceCompletion : M unit :=
  push (UserMsg forceInstruction) ;;
  response <- create (ToolChoiceFunction "finish_analysis") ;;
  match resp_message response with
  | Some message =>
      match am_tool_calls message with
      | Some calls => forEach calls runForcedToolCall
      | None => ret tt
      end
  | None => ret tt
  end.

(** One iteration of the [for] loop of [explorationLoop], up to the end of
    the tool calls (lines 168-225). [log_usage] is the observation of the
    usage after the accounting; it changes nothing the program reads. *)
Definition exploreRound (round : nat) : M unit :=
  setRounds (round + 1) ;;
  response <- create ToolChoiceAuto ;;
  trackUsage response ;;
  modify log_usage ;;
  match resp_message response with
  | None => throw "No message in response"
  | Some message =>
      push (AssistantMsg message) ;;
      match am_tool_calls message with
      | Some (c :: calls) => forEach (c :: calls) runToolCall
      | _ => ret tt
      end
  end.

(** [this.usage.totalTokens > this.config.analysis.tokenBudget * 0.8]. *)
Definition overBudget (u : UsageMetrics) : bool :=
  (4 * tokenBudget cfg <? 5 * Z.of_N (totalTokens u))%Z.

(** The [for] loop from iteration [round] on, with [fuel] iterations left
    ([round + fuel = maxRounds]), and the code after the loop. *)
Fixpoint explorationLoop_from (fuel round : nat) : M unit :=
  match fuel with
  | O => forceCompletion
  | S fuel' =>
      exploreRound round ;;
      finished <- isFinished ;;
      if finished then ret tt
      else
        st <- get ;;
        if overBudget (usage st) then forceCompletion
        else explorationLoop_from fuel' (S round)
  end.

(** [explorationLoop()]. *)
Definition explorationLoop : M unit :=
  explorationLoop_from (maxRounds cfg) 0.

(** The [try] block of [analyze()]. *)
Definition analyzeBody : M AnalysisResult :=
  systemPrompt <- lift (buildSystemPrompt env) ;;
  userPrompt <- lift (buildUserPrompt env) ;;
  modify (set_history [SystemMsg systemPrompt; UserMsg userPrompt]) ;;
  explorationLoop ;;
  res <- getResults ;;
  opps <- lift (getProp res "opportunities") ;;
  pats <- lift (getProp res "patterns") ;;
  summ <- lift (getProp res "summary") ;;
  st <- get ;;
  ret (mkResult (mkPayload opps pats summ) (usage st) StatusComplete None).

(** [analyze()]: the result, and the analyzer state it leaves. *)
Definition analyze (st : State) : AnalysisResult * State :=
  match analyzeBody st with
  | (Ok r, st') => (r, st')
  | (Throw e, st') =>
      (mkResult (mkPayload (JArr []) (JArr []) (JStr "Analysis failed"))
                (usage st') StatusError (Some e), st')
  end.

End Analyzer.

(** ** Vocabulary of the statements *)

(** The acknowledgement [execute] returns for [finish_analysis]. *)
Definition finishAck : JValue := JObj [("status", JStr "Analysis complete")].

(** The registry after [execute(name, args)] has run, whatever its outcome. *)
Definition toolsAfter (name : string) (args : JValue) (t : ToolRegistry)
  : ToolRegistry :=
  mkTools (finishCalled t || String.eqb name "finish_analysis")
          (if String.eqb name "finish_analysis" then args
           else analysisResults t)
          (execLog t ++ [(name, args)]).

(** The payload of the error branch of [analyze]. *)
Definition failedPayload : AnalysisPayload :=
  mkPayload (JArr []) (JArr []) (JStr "Analysis failed").

(** The state after [this.history.push(m)]. *)
Definition pushed (m : Message) (st : State) : State :=
  set_history (history st ++ [m]) st.

(** The tool calls of an assistant message; none when the field is absent. *)
Definition callsOf (message : AssistantMessage) : list ToolCall :=
  match am_tool_calls message with
  | Some cs => cs
  | None => []
  end.

(** A request whose tool choice is pinned to [finish_analysis]. *)
Definition isForcing (req : Request) : bool :=
  match req_tool_choice req with
  | ToolChoiceFunction name => String.eqb name "finish_analysis"
  | ToolChoiceAuto => false
  end.

(** Field-wise order on the accumulating fields of [UsageMetrics]. *)
Definition usage_le (u v : UsageMetrics) : Prop :=
  (totalTokens u <= totalTokens v)%N
  /\ (promptTokens u <= promptTokens v)%N
  /\ (completionTokens u <= completionTokens v)%N
  /\ (estimatedCost u <= estimatedCost v)%Q.

(** A message list the chat-completion interface accepts: every assistant
    message is followed at once by one tool-role message for each of its tool
    calls, in the order of the calls and with their ids, and a tool-role
    message occurs nowhere else. *)
Inductive Conversation : list Message -> Prop :=
| conversation_end : Conversation []
| conversation_system (content : string) (rest : list Message) :
    Conversation rest -> Conversation (SystemMsg content :: rest)
| conversation_user (content : string) (rest : list Message) :
    Conversation rest -> Conversation (UserMsg content :: rest)
| conversation_assistant (message : AssistantMessage)
                         (acks rest : list Message) :
    Forall2 (fun c m => exists content, m = ToolMsg (tc_id c) content)
            (callsOf message) acks ->
    Conversation rest ->
    Conversation (AssistantMsg message :: acks ++ rest).

(** The usage after the token accounting of one response. *)
Definition accumulate (reported : option CompletionUsage) (u : UsageMetrics)
  : UsageMetrics :=
  match reported with
  | Some ru =>
      let u1 := mkUsage (totalTokens u + total_tokens ru)
                        (promptTokens u + prompt_tokens ru)
                        (completionTokens u + completion_tokens ru)
                        (estimatedCost u) (rounds u) in
      mkUsage (totalTokens u1) (promptTokens u1) (completionTokens u1)
              (calculateCost u1) (rounds u1)
  | None => u
  end.

(** The usage with its round counter set. *)
Definition withRounds (n : nat) (u : UsageMetrics) : UsageMetrics :=
  mkUsage (totalTokens u) (promptTokens u) (completionTokens u)
          (estimatedCost u) n.

(** The cost field agrees with the formula on the token fields. *)
Definition costAccurate (u : UsageMetrics) : Prop :=
  (estimatedCost u == calculateCost u)%Q.

(** A log of per-round usages [tr] followed by the current usage [u]: the
    entry of round [i + 1] sits at position [i], and the entries only grow. *)
Definition Traced (tr : list UsageMetrics) (u : UsageMetrics) : Prop :=
  (forall i x, nth_error tr i = Some x -> rounds x = S i /\ usage_le x u)
  /\ (forall i j xi xj, i <= j ->
        nth_error tr i = Some xi -> nth_error tr j = Some xj ->
        usage_le xi xj).

Section Vocabulary.

Variable cfg : Config.
Variable env : Env.

(** A tool call that reaches [execute] with [args]: it is named
    [finish_analysis] and its arguments parse. *)
Definition finishes (toolCall : ToolCall) (args : JValue) : Prop :=
  tc_name toolCall = "finish_analysis"
  /\ JSON_parse env (tc_arguments toolCall) = Ok args.

(** The registry after one tool call of a batch: [execute] runs only when the
    arguments parse. *)
Definition toolsAfterCall (toolCall : ToolCall) (t : ToolRegistry)
  : ToolRegistry :=
  match JSON_parse env (tc_arguments toolCall) with
  | Ok args => toolsAfter (tc_name toolCall) args t
  | Throw _ => t
  end.

(** The content of the tool-result message that [runToolCall] appends. *)
Definition toolReply (toolCall : ToolCall) (st : State) : string :=
  match JSON_parse env (tc_arguments toolCall) with
  | Throw e => "Error: " ++ e
  | Ok args =>
      match fst (execute env (tc_name toolCall) args st) with
      | Ok result => JSON_stringify env result
      | Throw e => "Error: " ++ e
      end
  end.

(** The tool-result messages a batch appends in an exploration round. *)
Fixpoint replies (batch : list ToolCall) (st : State) : list Message :=
  match batch with
  | [] => []
  | toolCall :: rest =>
      ToolMsg (tc_id toolCall) (toolReply toolCall st)
      :: replies rest (snd (runToolCall env toolCall st))
  end.

(** The calls of a batch that reach [execute], with their parsed arguments. *)
Fixpoint executedCalls (batch : list ToolCall) : list (string * JValue) :=
  match batch with
  | [] => []
  | toolCall :: rest =>
      match JSON_parse env (tc_arguments toolCall) with
      | Ok args => (tc_name toolCall, args) :: executedCalls rest
      | Throw _ => executedCalls rest
      end
  end.

(** The request an exploration round sends from state [st]. *)
Definition explorationRequest (st : State) : Request :=
  mkRequest (model cfg) (history st) (getDefinitions env) ToolChoiceAuto.

(** The request [forceCompletion] sends from state [st]. *)
Definition forcingRequest (st : State) : Request :=
  mkRequest (model cfg) (history st ++ [UserMsg forceInstruction])
            (getDefinitions env) (ToolChoiceFunction "finish_analysis").

(** The tool calls of a response; none when it carries no message. *)
Definition responseCalls (response : Response) : list ToolCall :=
  match resp_message response with
  | Some message => callsOf message
  | None => []
  end.

(** In state [st] the request number [i] (from 0) was an exploration request,
    and the answer to it carried [toolCall], a [finish_analysis] call that
    reached [execute] with [args]. *)
Definition FinishExecutedIn (st : State) (i : nat) (toolCall : ToolCall)
           (args : JValue) : Prop :=
  exists req response message,
    nth_error (requests st) i = Some req
    /\ isForcing req = false
    /\ chat_create env i req = Ok response
    /\ resp_message response = Some message
    /\ In toolCall (callsOf message)
    /\ finishes toolCall args.

(** In state [st] the request number [i] was the forcing request, and the
    answer to it carried no tool call. *)
Definition ForcedWithoutToolCall (st : State) (i : nat) : Prop :=
  exists req response,
    nth_error (requests st) i = Some req
    /\ isForcing req = true
    /\ chat_create env i req = Ok response
    /\ responseCalls response = [].

(** The tokens the model reports in its answer to request number [i]. *)
Definition reportedTokens (i : nat) (req : Request) : N :=
  match chat_create env i req with
  | Ok response =>
      match resp_usage response with
      | Some ru => total_tokens ru
      | None => 0%N
      end
  | Throw _ => 0%N
  end.

(** The tokens reported in the answers to the exploration requests of a log
    whose first request has number [i]; the answer to a forcing request does
    not count. *)
Fixpoint explorationTokens (i : nat) (reqs : list Request) : N :=
  match reqs with
  | [] => 0%N
  | req :: rest =>
      ((if isForcing req then 0 else reportedTokens i req)
       + explorationTokens (S i) rest)%N
  end.

(** What the log of requests and the history keep, with the prompts the
    conversation was seeded with. *)
Definition LogKept (systemPrompt userPrompt : string) (st : State) : Prop :=
  Conversation (history st)
  /\ (exists rest,
        history st = SystemMsg systemPrompt :: UserMsg userPrompt :: rest)
  /\ (forall r, In r (requests st) ->
        Conversation (req_messages r)
        /\ (exists more, history st = req_messages r ++ more)
        /\ (exists rest,
              req_messages r
              = SystemMsg systemPrompt :: UserMsg userPrompt :: rest)
        /\ req_model r = model cfg
        /\ req_tools r = getDefinitions env)
  /\ (forall i j ri rj, i <= j ->
        nth_error (requests st) i = Some ri ->
        nth_error (requests st) j = Some rj ->
        exists more, req_messages rj = req_messages ri ++ more).

(** The model call number [i] fails with the error text [message]: the
    transport throws it, or the call is an exploration request and its answer
    carries no message. *)
Definition ModelCallFails (i : nat) (req : Request) (message : string) : Prop :=
  chat_create env i req = Throw message
  \/ (isForcing req = false
      /\ message = "No message in response"
      /\ exists response,
           chat_create env i req = Ok response
           /\ resp_message response = None).

(** The loop started at iteration [round] with [fuel] iterations left ends
    in the forcing round: the iterations are used up, or a round that ran to
    its end without [finish_analysis] left the total above 0.8 of the budget,
    before any earlier round did. *)
Inductive ForcingAfter : nat -> nat -> State -> Prop :=
| forcing_max_rounds (round : nat) (st : State) :
    ForcingAfter 0 round st
| forcing_budget (fuel round : nat) (st st1 : State) :
    exploreRound cfg env round st = (Ok tt, st1) ->
    finishCalled (tools st1) = false ->
    (4 * tokenBudget cfg < 5 * Z.of_N (totalTokens (usage st1)))%Z ->
    ForcingAfter (S fuel) round st
| forcing_later (fuel round : nat) (st st1 : State) :
    exploreRound cfg env round st = (Ok tt, st1) ->
    finishCalled (tools st1) = false ->
    (5 * Z.of_N (totalTokens (usage st1)) <= 4 * tokenBudget cfg)%Z ->
    ForcingAfter fuel (S round) st1 ->
    ForcingAfter (S fuel) round st.

End Vocabulary.

(** The threshold test as the specification words it, with a configured
    ratio: [totalTokens > tokenBudget * forceThresholdRatio]. *)
Definition spec_isOverThreshold (total budget : Z) (forceThresholdRatio : Q)
  : bool :=
  match (inject_Z budget * forceThresholdRatio ?= inject_Z total)%Q with
  | Lt => true
  | _ => false
  end.

(** ** A concrete environment for the examples *)

Module Demo.

Definition dq : string := String (Ascii.ascii_of_nat 34) EmptyString.

(** The text [{"status":"Analysis complete"}]. *)
Definition ackText : string :=
  "{" ++ dq ++ "status" ++ dq ++ ":" ++ dq ++ "Analysis complete" ++ dq ++ "}".

(** The text [{"opportunities":[],"patterns":[],"summary":"ok"}]. *)
Definition okPayloadText : string :=
  "{" ++ dq ++ "opportunities" ++ dq ++ ":[]," ++ dq ++ "patterns" ++ dq
  ++ ":[]," ++ dq ++ "summary" ++ dq ++ ":" ++ dq ++ "ok" ++ dq ++ "}".

Definition okPayload : JValue :=
  JObj [("opportunities", JArr []); ("patterns", JArr []);
        ("summary", JStr "ok")].

(** [JSON.parse] on the argument texts of the examples: it agrees with the
    built-in on [null], [{}] and [okPayloadText], and throws on the ill-formed
    [{bad] (error text as in Node 18); no other text occurs. *)
Definition parse (s : string) : Result JValue :=
  if String.eqb s "null" then Ok JNull
  else if String.eqb s "{}" then Ok (JObj [])
  else if String.eqb s okPayloadText then Ok okPayload
  else Throw "Unexpected token b in JSON at position 1".

(** [JSON.stringify] on the tool results of the examples: the empty array and
    the acknowledgement of [finish_analysis]. *)
Definition stringify (v : JValue) : string :=
  match v with
  | JObj [("status", JStr "Analysis complete")] => ackText
  | _ => "[]"
  end.

(** A repository whose search fails and whose other operations find
    nothing. *)
Definition repo : RepoHandler :=
  mkRepo (fun _ _ => Ok (JArr []))
         (fun _ _ => Ok (JObj []))
         (fun _ _ _ => Throw "file not found")
         (fun _ => Ok (JObj [])).

(** An environment whose model replays the script [responses]; past its end
    the transport fails. *)
Definition script (responses : list Response) : Env :=
  mkEnv parse stringify
        (fun i _ =>
           match nth_error responses i with
           | Some r => Ok r
           | None => Throw "Connection error."
           end)
        repo None (Ok "system prompt") (Ok "user prompt").

(** A response with free text only, and one with tool calls. *)
Definition says (tokens : N) (text : string) : Response :=
  mkResponse (Some (mkCompletionUsage tokens (tokens - tokens / 4) (tokens / 4)))
             (Some (mkAssistant (Some text) None)).

Definition calls (tokens : N) (cs : list ToolCall) : Response :=
  mkResponse (Some (mkCompletionUsage tokens (tokens - tokens / 4) (tokens / 4)))
             (Some (mkAssistant None (Some cs))).

Definition finishCall (id args : string) : ToolCall :=
  mkToolCall id "finish_analysis" args.

(** Budget 1000; one, or three, exploration rounds. *)
Definition oneRound : Config := mkConfig "gpt-4-turbo" 1000 1.
Definition threeRounds : Config := mkConfig "gpt-4-turbo" 1000 3.

(** The model never calls a tool, not even when forced. *)
Definition silent : Env := script [says 10 "thinking"; says 10 "sorry"].

(** The model finishes in round 1 with the argument text [null]. *)
Definition finishesWithNull : Env := script [calls 10 [finishCall "c1" "null"]].

(** The model finishes in round 2 with a well-formed payload. *)
Definition finishesInRoundTwo : Env :=
  script [says 100 "looking"; calls 60 [finishCall "c1" okPayloadText];
          says 10 "unused"].

(** The forced answer holds two [finish_analysis] calls. *)
Definition forcedTwice : Env :=
  script [says 10 "thinking";
          calls 10 [finishCall "f1" "{}"; finishCall "f2" okPayloadText]].

(** The forced answer holds one [finish_analysis] call. *)
Definition forcedOnce : Env :=
  script [says 10 "thinking"; calls 10 [finishCall "f1" okPayloadText]].

(** A batch whose first call fails in the collaborator. *)
Definition failingBatch : list ToolCall :=
  [mkToolCall "t1" "search_code" "{}"; finishCall "f2" okPayloadText].

(** A batch whose first call has ill-formed arguments. *)
Definition malformedBatch : list ToolCall :=
  [finishCall "f1" "{bad"; finishCall "f2" okPayloadText].

(** The ill-formed batch as the forced answer, and as the answer of round 1. *)
Definition forcedMalformed : Env :=
  script [says 10 "thinking"; calls 10 malformedBatch].
Definition exploringMalformed : Env := script [calls 10 malformedBatch].

(** 600 tokens in round 1, then two quiet rounds. *)
Definition sixHundred : Env :=
  script [says 600 "a"; says 10 "b"; says 10 "c"; says 10 "d"].

(** 800 tokens in round 1, one more in round 2. *)
Definition eightHundred : Env :=
  script [says 800 "a"; says 1 "b"; says 10 "c"; says 10 "d"].

(** 900 tokens in round 1, with a [finish_analysis] call. *)
Definition nineHundredAndDone : Env :=
  script [calls 900 [finishCall "c1" okPayloadText]].

(** The usages recorded in rounds 1 and 2 of [finishesInRoundTwo]. *)
Definition usageOfRound (k : nat) : UsageMetrics :=
  nth k (usageTrace (snd (analyze threeRounds finishesInRoundTwo newAnalyzer)))
      (usage newAnalyzer).

End Demo.

(** * The helpers and collaborators of the engine

    Strings of these modules: a character of a Rocq string stands for one
    UTF-16 code unit below 256, so the statements cover the strings made of
    such code units. An exception is the message of a JavaScript [Error]. *)

From Stdlib Require Import Ascii HexString.

(** ** TemplateInterpolator ([src/templates/interpolator.ts]) *)

Module Interpolator.

(** The class [\w] of a regular expression without the [u] flag. *)
Definition isWordChar (c : ascii) : bool :=
  let n := nat_of_ascii c in
  ((48 <=? n) && (n <=? 57)) || ((65 <=? n) && (n <=? 90))
  || ((97 <=? n) && (n <=? 122)) || (n =? 95).

(** The longest prefix of word characters, and what follows it. *)
Fixpoint takeWord (s : string) : string * string :=
  match s with
  | EmptyString => (EmptyString, EmptyString)
  | String c rest =>
      if isWordChar c
      then let (word, after) := takeWord rest in (String c word, after)
      else (EmptyString, s)
  end.

(** [/\{(\w+)\}/] tried at the start of [s]: the captured key. The greedy
    [\w+] takes the whole run of word characters; giving some back cannot
    help, since a word character is not a closing brace. *)
Definition matchPlaceholder (s : string) : option string :=
  match s with
  | String "{" rest =>
      match takeWord rest with
      | (String c word, String "}" _) => Some (String c word)
      | _ => None
      end
  | _ => None
  end.

(** What a scan with [/\{(\w+)\}/g] cuts a string into: the matches, and the
    characters that belong to no match. *)
Inductive Segment : Type :=
| Literal (c : ascii)
| Placeholder (key : string).

(** The scan, from left to right; after a match at a position the next
    [skip] characters belong to it. *)
Fixpoint scan_skipping (skip : nat) (s : string) : list Segment :=
  match s with
  | EmptyString => []
  | String c rest =>
      match skip with
      | S k => scan_skipping k rest
      | O =>
          match matchPlaceholder s with
          | Some key => Placeholder key :: scan_skipping (S (String.length key)) rest
          | None => Literal c :: scan_skipping 0 rest
          end
      end
  end.

Definition scan (s : string) : list Segment := scan_skipping 0 s.

(** The two things the interpolator asks of the [variables] object:
    [key in variables] and [String(variables[key])]. *)
Record Variables : Type := mkVariables {
  hasKey : string -> bool;
  textOf : string -> string
}.

(** The replacement callback of [interpolate], applied match by match;
    a throw of the callback leaves [replace]. *)
Fixpoint substitute (variables : Variables) (strict : bool)
         (segments : list Segment) : Result string :=
  match segments with
  | [] => Ok EmptyString
  | Literal c :: rest =>
      match substitute variables strict rest with
      | Ok text => Ok (String c text)
      | Throw e => Throw e
      end
  | Placeholder key :: rest =>
      if hasKey variables key then
        match substitute variables strict rest with
        | Ok text => Ok (textOf variables key ++ text)%string
        | Throw e => Throw e
        end
      else if strict then Throw ("Missing variable in template: " ++ key)
      else
        match substitute variables strict rest with
        | Ok text => Ok ("{" ++ key ++ "}" ++ text)%string
        | Throw e => Throw e
        end
  end.

(** [interpolate(template, variables, strict)]. *)
Definition interpolate (template : string) (variables : Variables)
           (strict : bool) : Result string :=
  substitute variables strict (scan template).

(** [extractVariables(template)]. *)
Definition extractVariables (template : string) : list string :=
  flat_map (fun seg => match seg with
                       | Placeholder key => [key]
                       | Literal _ => []
                       end)
           (scan template).

(** [validateVariables(template, variables)]. *)
Definition validateVariables (template : string) (variables : Variables)
  : list string :=
  filter (fun varName => negb (hasKey variables varName))
         (extractVariables template).

(** The text a segment was cut from. *)
Definition sourceOf (seg : Segment) : string :=
  match seg with
  | Literal c => String c EmptyString
  | Placeholder key => ("{" ++ key ++ "}")%string
  end.

(** The text a list of segments was cut from. *)
Fixpoint sourceText (segments : list Segment) : string :=
  match segments with
  | [] => EmptyString
  | seg :: rest => (sourceOf seg ++ sourceText rest)%string
  end.

(** A variables object with the own properties of an association list and
    nothing inherited. *)
Definition ownOnly (entries : list (string * string)) : Variables :=
  mkVariables
    (fun key => existsb (fun e => String.eqb (fst e) key) entries)
    (fun key => match find (fun e => String.eqb (fst e) key) entries with
                | Some e => snd e
                | None => "undefined"
                end).

End Interpolator.

(** ** Strings of JavaScript *)

Module Js.

(** [s.slice(n)]. *)
Fixpoint drop (n : nat) (s : string) : string :=
  match n, s with
  | O, _ => s
  | S k, EmptyString => EmptyString
  | S k, String _ rest => drop k rest
  end.

(** [s.startsWith(p)]. *)
Definition startsWith (p s : string) : bool := String.prefix p s.

(** [s.endsWith(p)]. *)
Definition endsWith (p s : string) : bool :=
  (String.length p <=? String.length s)
  && String.eqb (drop (String.length s - String.length p) s) p.

(** The string with every character replaced by its image. *)
Fixpoint mapChars (f : ascii -> ascii) (s : string) : string :=
  match s with
  | EmptyString => EmptyString
  | String c rest => String (f c) (mapChars f rest)
  end.

(** Every character of the string passes the test. *)
Fixpoint allChars (f : ascii -> bool) (s : string) : bool :=
  match s with
  | EmptyString => true
  | String c rest => f c && allChars f rest
  end.

(** [s.split('\n')]. *)
Fixpoint splitLines (s : string) : list string :=
  match s with
  | EmptyString => [EmptyString]
  | String c rest =>
      if (nat_of_ascii c =? 10) then EmptyString :: splitLines rest
      else match splitLines rest with
           | line :: more => String c line :: more
           | [] => [String c EmptyString]
           end
  end.

(** White space and line terminators, among the code units below 256. *)
Definition isSpace (c : ascii) : bool :=
  let n := nat_of_ascii c in
  ((9 <=? n) && (n <=? 13)) || (n =? 32) || (n =? 160).

Fixpoint trimStart (s : string) : string :=
  match s with
  | EmptyString => EmptyString
  | String c rest => if isSpace c then trimStart rest else s
  end.

Fixpoint trimEnd (s : string) : string :=
  match s with
  | EmptyString => EmptyString
  | String c rest =>
      match trimEnd rest with
      | EmptyString => if isSpace c then EmptyString else String c EmptyString
      | kept => String c kept
      end
  end.

(** [s.trim()]. *)
Definition trim (s : string) : string := trimEnd (trimStart s).

(** [value] of a template literal [${error}] for an [Error] whose name is
    [Error] and whose message is [message]. *)
Definition errorToString (message : string) : string :=
  match message with
  | EmptyString => "Error"
  | _ => ("Error: " ++ message)%string
  end.

(** Whether a value is truthy. *)
Definition truthy (v : JValue) : bool :=
  match v with
  | JUndefined | JNull => false
  | JBool b => b
  | JNum n => negb (n =? 0)%Z
  | JStr s => negb (String.eqb s "")
  | JArr _ | JObj _ => true
  end.

(** A regular expression with the [g] flag, as [test] uses it: [matcher line
    p] is the end of the match that starts at position [p] of [line], if
    there is one. *)
Definition Matcher : Type := string -> nat -> option nat.

(** The first position from [pos] on, among [tries] positions, at which the
    expression matches: the end of that match. *)
Fixpoint findMatch (matchAt : nat -> option nat) (tries pos : nat)
  : option nat :=
  match tries with
  | O => None
  | S k =>
      match matchAt pos with
      | Some e => Some e
      | None => findMatch matchAt k (S pos)
      end
  end.

(** [regex.test(line)] for a global expression whose [lastIndex] is
    [lastIndex]: the answer and the new [lastIndex]. The search starts at
    [lastIndex]; a match moves [lastIndex] to its end, a failure resets it. *)
Definition regexTest (matcher : Matcher) (line : string) (lastIndex : nat)
  : bool * nat :=
  if String.length line <? lastIndex then (false, 0)
  else
    match findMatch (matcher line) (S (String.length line - lastIndex))
                    lastIndex with
    | Some e => (true, e)
    | None => (false, 0)
    end.

(** The line holds a match of the expression, somewhere. *)
Definition matchesSomewhere (matcher : Matcher) (line : string) : Prop :=
  exists p e, p <= String.length line /\ matcher line p = Some e.

End Js.

(** ** RepoHandler ([src/core/repo-handler.ts]) *)

Module Repo.

(** What the handler asks of the outside during one call: [join] of pathe,
    the file system as it stands, the listing of globby, the [RegExp]
    constructor with the flags [gi], [JSON.parse]. *)
Record World : Type := mkWorld {
  join : list string -> string;
  pathExists : string -> bool;
  readText : string -> Result string;
  globby : list string -> string -> Result (list string);
  RegExp : string -> Result Js.Matcher;
  parseJSON : string -> Result JValue
}.

(** One element of the result of [searchCode]. *)
Record Hit : Type := mkHit {
  hit_file : string;
  hit_line : nat;
  hit_content : string
}.

Section Handler.

Variable w : World.
Variable repoPath : string.

(** [listFiles(pattern)], the pattern as an array. *)
Definition listFiles (patterns : list string) : Result (list string) :=
  globby w patterns repoPath.

(** [readFile(filePath)]. *)
Definition readFile (filePath : string) : Result string :=
  let fullPath := join w [repoPath; filePath] in
  if negb (pathExists w fullPath)
  then Throw ("File not found: " ++ filePath)
  else readText w fullPath.

(** [results[key] = value] on an object created by [{}]: a string assigned to
    [__proto__] is dropped by the setter of [Object.prototype]. The order of
    the entries is not the enumeration order of the object. *)
Fixpoint assign (key value : string) (obj : list (string * string))
  : list (string * string) :=
  match obj with
  | [] => [(key, value)]
  | (k, v) :: rest =>
      if String.eqb k key then (k, value) :: rest
      else (k, v) :: assign key value rest
  end.

Definition setProp (key value : string) (obj : list (string * string))
  : list (string * string) :=
  if String.eqb key "__proto__" then obj else assign key value obj.

(** The own string property [key] of the object. *)
Fixpoint ownProp (key : string) (obj : list (string * string))
  : option string :=
  match obj with
  | [] => None
  | (k, v) :: rest => if String.eqb k key then Some v else ownProp key rest
  end.

(** What [readFiles] stores for one path: the content, or the placeholder of
    the [catch]. *)
Definition fileEntry (filePath : string) : string :=
  match readFile filePath with
  | Ok content => content
  | Throw e => ("[Error reading file: " ++ Js.errorToString e ++ "]")%string
  end.

(** [readFiles(filePaths)]. *)
Definition readFiles (filePaths : list string) : list (string * string) :=
  fold_left (fun results filePath =>
               setProp filePath (fileEntry filePath) results)
            filePaths [].

(** The loop over the lines of one file in [searchCode]; [i] is the index of
    the first line of [lines], [lastIndex] the state of the expression. *)
Fixpoint scanLines (matcher : Js.Matcher) (file : string)
         (lines : list string) (i lastIndex : nat) : list Hit :=
  match lines with
  | [] => []
  | line :: rest =>
      match line with
      | EmptyString => scanLines matcher file rest (S i) lastIndex
      | _ =>
          let (found, lastIndex') := Js.regexTest matcher line lastIndex in
          if found
          then mkHit file (i + 1) (Js.trim line)
               :: scanLines matcher file rest (S i) lastIndex'
          else scanLines matcher file rest (S i) lastIndex'
      end
  end.

(** The [try] block of [searchCode] for one file, and its [catch]. *)
Definition searchFile (pattern file : string) : list Hit :=
  match readFile file with
  | Throw _ => []
  | Ok content =>
      match RegExp w pattern with
      | Throw _ => []
      | Ok matcher => scanLines matcher file (Js.splitLines content) 0 0
      end
  end.

(** [filePattern || '**/*']. *)
Definition filePatternOrAll (filePattern : option string) : string :=
  match filePattern with
  | None | Some EmptyString => "**/*"
  | Some p => p
  end.

(** [searchCode(pattern, filePattern)]. *)
Definition searchCode (pattern : string) (filePattern : option string)
  : Result (list Hit) :=
  match listFiles [filePatternOrAll filePattern] with
  | Throw e => Throw e
  | Ok files => Ok (flat_map (searchFile pattern) files)
  end.

(** [value || {}]. *)
Definition orEmptyObject (v : JValue) : JValue :=
  if Js.truthy v then v else JObj [].

(** [getDependencies()]: the two fields of the result. *)
Definition getDependencies : Result (JValue * JValue) :=
  let packagePath := join w [repoPath; "package.json"] in
  if negb (pathExists w packagePath) then Ok (JObj [], JObj [])
  else
    match readText w packagePath with
    | Throw e => Throw e
    | Ok content =>
        match parseJSON w content with
        | Throw e => Throw e
        | Ok pkg =>
            match getProp pkg "dependencies" with
            | Throw e => Throw e
            | Ok deps =>
                match getProp pkg "devDependencies" with
                | Throw e => Throw e
                | Ok devDeps => Ok (orEmptyObject deps, orEmptyObject devDeps)
                end
            end
        end
    end.

End Handler.

End Repo.

(** ** Git utilities ([src/utils/git.ts]) and [RepoHandler.init] *)

Module Git.

(** [s.replace(/^p/, '')] for a literal [p]. *)
Definition stripPrefix (p s : string) : string :=
  if Js.startsWith p s then Js.drop (String.length p) s else s.

(** [s.replace(/p$/, '')] for a literal [p]. *)
Definition stripSuffix (p s : string) : string :=
  if Js.endsWith p s
  then String.substring 0 (String.length s - String.length p) s
  else s.

(** [isGitUrl(url)]. *)
Definition isGitUrl (url : string) : bool :=
  if Js.startsWith "@" url then true
  else
    existsb (fun p => Js.startsWith p url)
            ["http://github.com"; "https://github.com";
             "http://gitlab.com"; "https://gitlab.com";
             "http://bitbucket.com"; "https://bitbucket.com"]
    || Js.endsWith ".git" url
    || Js.startsWith "git@" url
    || Js.startsWith "ssh://" url.

(** [normalizeGitUrl(url)]. *)
Definition normalizeGitUrl (url : string) : string :=
  if Js.startsWith "@" url then Js.drop 1 url else url.

(** [.replace(/^https?:\/\//, '')]. *)
Definition stripProtocol (s : string) : string :=
  if Js.startsWith "http://" s then Js.drop 7 s
  else if Js.startsWith "https://" s then Js.drop 8 s
  else s.

Definition isDigit (n : nat) : bool := (48 <=? n) && (n <=? 57).
Definition isUpper (n : nat) : bool := (65 <=? n) && (n <=? 90).
Definition isLower (n : nat) : bool := (97 <=? n) && (n <=? 122).

(** The replacement of [/[/:]/g] by [-]. *)
Definition dashSeparators (c : ascii) : ascii :=
  let n := nat_of_ascii c in
  if (n =? 47) || (n =? 58) then "-"%char else c.

(** The replacement of [/[^a-z0-9-]/gi] by [_]: with the flag [i] the class
    holds the letters of both cases. *)
Definition underscoreOthers (c : ascii) : ascii :=
  let n := nat_of_ascii c in
  if isLower n || isUpper n || isDigit n || (n =? 45) then c else "_"%char.

(** [toLowerCase] on one code unit below 256. *)
Definition lowerChar (c : ascii) : ascii :=
  let n := nat_of_ascii c in
  if isUpper n then ascii_of_nat (n + 32)
  else if (192 <=? n) && (n <=? 222) && negb (n =? 215)
       then ascii_of_nat (n + 32)
       else c.

(** [urlToDirectoryName(url)]. *)
Definition urlToDirectoryName (url : string) : string :=
  Js.mapChars lowerChar
    (Js.mapChars underscoreOthers
       (Js.mapChars dashSeparators
          (stripSuffix ".git"
             (stripPrefix "git@" (stripProtocol (normalizeGitUrl url)))))).

(** A character of a directory name: a lower-case letter, a digit, [-] or
    [_]. *)
Definition isNameChar (c : ascii) : bool :=
  let n := nat_of_ascii c in
  isLower n || isDigit n || (n =? 45) || (n =? 95).

(** [Cache], as [RepoHandler.init] uses it ([src/utils/cache.ts]). *)
Record Cache : Type := mkCache {
  cacheDir : string;
  enabled : bool
}.

(** What [init] asks of the outside: [join] of pathe, the file system as it
    stands, and [git clone]. *)
Record World : Type := mkWorld {
  join : list string -> string;
  pathExists : string -> bool;
  gitClone : string -> string -> list string -> Result unit
}.

(** A [git.clone(url, targetDir, options)] that was issued. *)
Record Clone : Type := mkClone {
  clone_url : string;
  clone_target : string;
  clone_options : list string
}.

Section Init.

Variable w : World.

(** [cache.getRepoPath(repoName)]. *)
Definition getRepoPath (cache : Cache) (repoName : string) : string :=
  join w [cacheDir cache; "repos"; repoName].

(** [cache.hasRepo(repoName)]. *)
Definition hasRepo (cache : Cache) (repoName : string) : bool :=
  if negb (enabled cache) then false
  else pathExists w (getRepoPath cache repoName).

(** [cloneRepo(repoUrl, targetDir, { depth: 1 })]: the outcome and the clones
    issued. *)
Definition cloneRepo (repoUrl targetDir : string)
  : Result string * list Clone :=
  let normalizedUrl := normalizeGitUrl repoUrl in
  if pathExists w targetDir then (Ok targetDir, [])
  else
    (match gitClone w normalizedUrl targetDir ["--depth=1"] with
     | Ok _ => Ok targetDir
     | Throw e => Throw e
     end,
     [mkClone normalizedUrl targetDir ["--depth=1"]]).

(** [RepoHandler.init(repoUrlOrPath, cache)]: the path of the handler it
    returns, and the clones issued. *)
Definition init (repoUrlOrPath : string) (cache : option Cache)
  : Result string * list Clone :=
  if isGitUrl repoUrlOrPath then
    let dirName := urlToDirectoryName repoUrlOrPath in
    match cache with
    | Some c =>
        let dir := getRepoPath c dirName in
        if String.eqb dir "" then
          (Throw "Git URL provided but caching is disabled", [])
        else if hasRepo c dirName then (Ok dir, [])
        else cloneRepo repoUrlOrPath dir
    | None => (Throw "Git URL provided but caching is disabled", [])
    end
  else if negb (pathExists w repoUrlOrPath)
       then (Throw ("Repository path does not exist: " ++ repoUrlOrPath), [])
       else (Ok repoUrlOrPath, []).

End Init.

End Git.

(** ** The key of a cached result ([Cache.generateCacheKey], [src/utils/cache.ts]) *)

Module CacheKey.

(** [ToInt32]: the integer read as a signed 32-bit value. *)
Definition toInt32 (z : Z) : Z := ((z + 2 ^ 31) mod 2 ^ 32 - 2 ^ 31)%Z.

(** One turn of the loop: [hash = (hash << 5) - hash + char; hash = hash &
    hash]. The shift wraps to 32 bits, the subtraction and the addition are
    exact in double precision, [&] wraps again. *)
Definition hashStep (hash : Z) (char : ascii) : Z :=
  toInt32 (toInt32 (hash * 32) - hash + Z.of_nat (nat_of_ascii char))%Z.

(** The value of [hash] after the loop over [normalized]. *)
Fixpoint hashFrom (hash : Z) (normalized : string) : Z :=
  match normalized with
  | EmptyString => hash
  | String c rest => hashFrom (hashStep hash c) rest
  end.

(** [n.toString(16)] for a natural number. *)
Definition toHex (n : N) : string :=
  match n with
  | N0 => "0"
  | Npos p => HexString.Raw.of_pos p ""
  end.

(** [generateCacheKey(params)] for [normalized = JSON.stringify(params)]. *)
Definition generateCacheKey (normalized : string) : string :=
  toHex (Z.to_N (Z.abs (hashFrom 0 normalized))).

(** The polynomial in 31 of the code units, started from [hash]. *)
Fixpoint polynomial (hash : Z) (normalized : string) : Z :=
  match normalized with
  | EmptyString => hash
  | String c rest =>
      polynomial (31 * hash + Z.of_nat (nat_of_ascii c))%Z rest
  end.

End CacheKey.

(** ** A concrete repository for the examples *)

Module RepoDemo.

(** The matcher of a pattern of plain lower-case letters, on lines without
    upper-case letters: it matches where the pattern stands. *)
Definition literal (pattern : string) : Js.Matcher :=
  fun line p =>
    if String.eqb (String.substring p (String.length pattern) line) pattern
    then Some (p + String.length pattern)
    else None.

(** A repository of two files under [/repo]; the expression [(] is
    ill-formed. *)
Definition files : list (string * string) :=
  [("/repo/a.css",
    String.concat (String (ascii_of_nat 10) EmptyString)
                  ["fontsize: 1"; "fontsize: 2"; ""; "color: red"]);
   ("/repo/package.json", "null")].

Definition world : Repo.World :=
  Repo.mkWorld
    (String.concat "/")
    (fun path => existsb (fun f => String.eqb (fst f) path) files)
    (fun path => match find (fun f => String.eqb (fst f) path) files with
                 | Some f => Ok (snd f)
                 | None => Throw "ENOENT: no such file or directory"
                 end)
    (fun _ _ => Ok ["a.css"; "gone.css"])
    (fun pattern => if String.eqb pattern "("
                    then Throw "Invalid regular expression: /(/: Unterminated group"
                    else Ok (literal pattern))
    Demo.parse.

End RepoDemo.

(** ** ContextHandler ([src/core/context-handler.ts]) *)

Module Context.

(** A source of reference documents ([ContextSource]). *)
Record Source : Type := mkSource {
  url : string;
  type : string;
  docPaths : option (list string)
}.

(** What the handler asks of the outside: what [Git.init] asks, and the text
    of a file. *)
Record World : Type := mkWorld {
  git : Git.World;
  readText : string -> Result string
}.

(** [contextPaths], a [Map] from the URL of a source to its directory, in the
    order of insertion: [set] on a key that is present keeps its place. *)
Definition Paths : Type := list (string * string).

Definition mapSet (key value : string) (paths : Paths) : Paths :=
  Repo.assign key value paths.

Definition mapGet (key : string) (paths : Paths) : option string :=
  Repo.ownProp key paths.

Section Handler.

Variable w : World.

(** The name under which the cache keeps the clone of a source. *)
Definition contextName (sourceUrl : string) : string :=
  ("context-" ++ Git.urlToDirectoryName sourceUrl)%string.

(** What [init] may store for a source: the URL itself for a local source,
    the directory of the cache for a Git source. *)
Definition Registered (cache : option Git.Cache) (sourceUrl base : string)
  : Prop :=
  (Git.isGitUrl sourceUrl = false -> base = sourceUrl)
  /\ (Git.isGitUrl sourceUrl = true ->
      exists c, cache = Some c
                /\ base = Git.getRepoPath (git w) c (contextName sourceUrl)
                /\ base <> EmptyString).

(** One turn of the loop of [init]: the map after it, or the error of the
    clone, and the clones issued. *)
Definition initSource (cache : option Git.Cache) (source : Source)
           (paths : Paths) : Result Paths * list Git.Clone :=
  if Git.isGitUrl (url source) then
    match cache with
    | Some c =>
        let cacheDir := Git.getRepoPath (git w) c (contextName (url source)) in
        if String.eqb cacheDir "" then (Ok paths, [])
        else if Git.hasRepo (git w) c (contextName (url source))
        then (Ok (mapSet (url source) cacheDir paths), [])
        else
          match Git.cloneRepo (git w) (url source) cacheDir with
          | (Ok path, clones) => (Ok (mapSet (url source) path paths), clones)
          | (Throw e, clones) => (Throw e, clones)
          end
    | None => (Ok paths, [])
    end
  else (Ok (mapSet (url source) (url source) paths), []).

(** [init()] over the sources that remain: the outcome, [contextPaths] when it
    ends, and the clones issued. *)
Fixpoint init (cache : option Git.Cache) (sources : list Source)
         (paths : Paths) : Result unit * Paths * list Git.Clone :=
  match sources with
  | [] => (Ok tt, paths, [])
  | source :: rest =>
      match initSource cache source paths with
      | (Ok paths', clones) =>
          let '(outcome, final, more) := init cache rest paths' in
          (outcome, final, clones ++ more)
      | (Throw e, clones) => (Throw e, paths, clones)
      end
  end.

(** The loop of [readDocument] over the entries of [contextPaths]. *)
Fixpoint searchSources (entries : Paths) (relativePath : string)
  : Result string :=
  match entries with
  | [] => Throw ("Document not found: " ++ relativePath)
  | (_, basePath) :: rest =>
      match readText w (Git.join (git w) [basePath; relativePath]) with
      | Ok text => Ok text
      | Throw _ => searchSources rest relativePath
      end
  end.

(** [readDocument(relativePath, sourceUrl)]; an absent and an empty
    [sourceUrl] are both falsy, and so is an empty directory. *)
Definition readDocument (paths : Paths) (relativePath : string)
           (sourceUrl : option string) : Result string :=
  match sourceUrl with
  | None | Some EmptyString => searchSources paths relativePath
  | Some sourceUrl =>
      match mapGet sourceUrl paths with
      | None | Some EmptyString =>
          Throw ("Context source not found: " ++ sourceUrl)
      | Some basePath =>
          readText w (Git.join (git w) [basePath; relativePath])
      end
  end.

End Handler.

End Context.

(** ** A concrete disk for the examples *)

Module GitDemo.

(** A disk on which the paths of [existing] exist, joined with [/]; every
    clone succeeds. *)
Definition world (existing : list string) : Git.World :=
  Git.mkWorld (String.concat "/")
              (fun path => existsb (String.eqb path) existing)
              (fun _ _ _ => Ok tt).

End GitDemo.

Module ContextDemo.

(** An empty disk but for one document. *)
Definition world : Context.World :=
  Context.mkWorld
    (GitDemo.world ["./docs"])
    (fun path => if String.eqb path "./docs/tokens.md"
                 then Ok "# Tokens"
                 else Throw "ENOENT: no such file or directory").

End ContextDemo.

(** ** Prompts built from templates, for the examples *)

Module PromptDemo.

Definition variables : Interpolator.Variables :=
  Interpolator.ownOnly [("projectName", "MyApp"); ("designSystem", "MyDS")].

Definition systemTemplate : string :=
  "Audit {projectName} against {designSystem}; follow {guide}".

Definition userTemplate : string := "Start with {filePatterns}".

(** The prompts are interpolated as [buildSystemPrompt] and [buildUserPrompt]
    do; the transport is closed. *)
Definition env : Env :=
  mkEnv Demo.parse Demo.stringify
        (fun _ _ => Throw "Connection error.")
        Demo.repo None
        (Interpolator.interpolate systemTemplate variables false)
        (Interpolator.interpolate userTemplate variables false).


End PromptDemo.

(** ** Basic facts about the registry *)

Section RegistryFacts.

Variable cfg : Config.
Variable env : Env.

Ltac break_name :=
  repeat match goal with
         | |- context [String.eqb ?n ?lit] =>
             let E := fresh "E" in
             destruct (String.eqb n lit) eqn:E;
             [apply String.eqb_eq in E; subst n; simpl | ]
         end.

Ltac break_results :=
  repeat match goal with
         | |- context [match ?r with Ok _ => _ | Throw _ => _ end] =>
             destruct r
         | |- context [match contextHandler env with _ => _ end] =>
             destruct (contextHandler env)
         end.

Lemma execute_state (name : string) (args : JValue) (st : State) :
  snd (execute env name args st)
  = set_tools (toolsAfter name args (tools st)) st.
Proof.
  destruct st as [h u [fc ar lg] rq tr].
  unfold execute, toolsAfter, bind, log_execute, clock, modify, lift,
    requireContext, ret, throw, set_tools; simpl.
  break_name;
    try (unfold bind, lift, ret, throw; break_results; simpl;
         rewrite ?orb_false_r, ?orb_true_r; reflexivity).
Qed.

Lemma execute_finish (args : JValue) (st : State) :
  execute env "finish_analysis" args st
  = (Ok finishAck,
     set_tools (mkTools true args
                        (execLog (tools st) ++ [("finish_analysis", args)])) st).
Proof. reflexivity. Qed.

Lemma isRecognized_false (name : string) :
  isRecognized name = false ->
  String.eqb name "list_files" = false
  /\ String.eqb name "read_files" = false
  /\ String.eqb name "search_code" = false
  /\ String.eqb name "get_dependencies" = false
  /\ String.eqb name "list_context_docs" = false
  /\ String.eqb name "read_context_doc" = false
  /\ String.eqb name "finish_analysis" = false.
Proof.
  unfold isRecognized, recognizedTools; simpl.
  repeat match goal with
         | |- context [String.eqb name ?lit] => destruct (String.eqb name lit)
         end; simpl; intros H; try discriminate H; repeat split.
Qed.

Lemma execute_unknown (name : string) (args : JValue) (st : State) :
  isRecognized name = false ->
  fst (execute env name args st) = Throw ("Unknown tool: " ++ name).
Proof.
  intros H. apply isRecognized_false in H.
  destruct H as (H1 & H2 & H3 & H4 & H5 & H6 & H7).
  unfold execute, bind, log_execute, clock, modify; simpl.
  rewrite H1, H2, H3, H4, H5, H6, H7. reflexivity.
Qed.

End RegistryFacts.

(** ** One tool call, one batch, one round *)

Section RoundFacts.

Variable cfg : Config.
Variable env : Env.

Lemma runToolCall_eq (toolCall : ToolCall) (st : State) :
  runToolCall env toolCall st =
  match JSON_parse env (tc_arguments toolCall) with
  | Throw e => (Ok tt, pushed (ToolMsg (tc_id toolCall) ("Error: " ++ e)) st)
  | Ok args =>
      match execute env (tc_name toolCall) args st with
      | (Ok result, st') =>
          (Ok tt,
           pushed (ToolMsg (tc_id toolCall) (JSON_stringify env result)) st')
      | (Throw e, st') =>
          (Ok tt, pushed (ToolMsg (tc_id toolCall) ("Error: " ++ e)) st')
      end
  end.
Proof.
  unfold runToolCall, try_catch, bind, lift, push, modify, pushed.
  destruct (JSON_parse env (tc_arguments toolCall)); [|reflexivity].
  destruct (execute env (tc_name toolCall) a st) as [[v|e] st']; reflexivity.
Qed.

(** The outcome and the state of one tool call of an exploration round. *)
Lemma runToolCall_spec (toolCall : ToolCall) (st : State) :
  runToolCall env toolCall st =
  (Ok tt,
   mkState (history st ++ [ToolMsg (tc_id toolCall) (toolReply env toolCall st)])
           (usage st) (toolsAfterCall env toolCall (tools st))
           (requests st) (usageTrace st)).
Proof.
  rewrite runToolCall_eq. unfold toolReply, toolsAfterCall.
  destruct (JSON_parse env (tc_arguments toolCall)) as [args|e]; [|reflexivity].
  pose proof (execute_state env (tc_name toolCall) args st) as Hs.
  destruct (execute env (tc_name toolCall) args st) as [[v|e] st'];
    simpl in Hs; subst st'; reflexivity.
Qed.

Lemma forEach_runToolCall_spec (batch : list ToolCall) (st : State) :
  forEach batch (runToolCall env) st =
  (Ok tt,
   mkState (history st ++ replies env batch st) (usage st)
           (fold_left (fun t c => toolsAfterCall env c t) batch (tools st))
           (requests st) (usageTrace st)).
Proof.
  revert st. induction batch as [|c rest IH]; intros st.
  - simpl. unfold ret. rewrite app_nil_r. destruct st; reflexivity.
  - simpl. unfold bind at 1. rewrite runToolCall_spec. rewrite IH. simpl.
    rewrite <- app_assoc. reflexivity.
Qed.

Lemma replies_acknowledge (batch : list ToolCall) (st : State) :
  Forall2 (fun c m => exists content, m = ToolMsg (tc_id c) content)
          batch (replies env batch st).
Proof.
  revert st. induction batch as [|c rest IH]; intros st; simpl.
  - constructor.
  - constructor; [eexists; reflexivity | apply IH].
Qed.

(** The reply to a [finish_analysis] call that reaches [execute]. *)
Lemma toolReply_finish (toolCall : ToolCall) (args : JValue) (st : State) :
  finishes env toolCall args ->
  toolReply env toolCall st = JSON_stringify env finishAck.
Proof.
  intros [Hn Hp]. unfold toolReply. rewrite Hp, Hn. reflexivity.
Qed.

Lemma replies_finish (batch : list ToolCall) (st : State)
      (toolCall : ToolCall) (args : JValue) :
  In toolCall batch -> finishes env toolCall args ->
  In (ToolMsg (tc_id toolCall) (JSON_stringify env finishAck))
     (replies env batch st).
Proof.
  revert st. induction batch as [|c rest IH]; intros st Hin Hf; simpl in *.
  - contradiction.
  - destruct Hin as [->|Hin].
    + left. rewrite (toolReply_finish _ _ _ Hf). reflexivity.
    + right. apply IH; assumption.
Qed.

(** The registry log after a batch. *)
Lemma fold_toolsAfterCall_execLog (batch : list ToolCall) (t : ToolRegistry) :
  execLog (fold_left (fun t c => toolsAfterCall env c t) batch t)
  = execLog t ++ executedCalls env batch.
Proof.
  revert t. induction batch as [|c rest IH]; intros t; simpl.
  - now rewrite app_nil_r.
  - rewrite IH. unfold toolsAfterCall.
    destruct (JSON_parse env (tc_arguments c)); simpl.
    + now rewrite <- app_assoc.
    + reflexivity.
Qed.

(** A batch never resets the finish flag. *)
Lemma fold_toolsAfterCall_finished (batch : list ToolCall) (t : ToolRegistry) :
  finishCalled t = true ->
  finishCalled (fold_left (fun t c => toolsAfterCall env c t) batch t) = true.
Proof.
  revert t. induction batch as [|c rest IH]; intros t Ht; simpl; [assumption|].
  apply IH. unfold toolsAfterCall.
  destruct (JSON_parse env (tc_arguments c)); simpl; [|assumption].
  now rewrite Ht.
Qed.

(** A batch without an executed [finish_analysis] leaves flag and payload. *)
Lemma fold_toolsAfterCall_no_finish (batch : list ToolCall) (t : ToolRegistry) :
  (forall c a, In c batch -> ~ finishes env c a) ->
  finishCalled (fold_left (fun t c => toolsAfterCall env c t) batch t)
  = finishCalled t
  /\ analysisResults (fold_left (fun t c => toolsAfterCall env c t) batch t)
     = analysisResults t.
Proof.
  revert t. induction batch as [|c rest IH]; intros t Hno; simpl; [now split|].
  destruct (IH (toolsAfterCall env c t)) as [Hf Ha].
  { intros c' a Hin. apply Hno. now right. }
  rewrite Hf, Ha. unfold toolsAfterCall.
  destruct (JSON_parse env (tc_arguments c)) as [a|e] eqn:Hp; [|now split].
  simpl. destruct (String.eqb (tc_name c) "finish_analysis") eqn:Hn.
  - exfalso. apply (Hno c a); [now left|].
    split; [now apply String.eqb_eq | assumption].
  - now rewrite orb_false_r.
Qed.

(** The last executed [finish_analysis] of a batch decides the payload. *)
Lemma fold_toolsAfterCall_last (pre post : list ToolCall) (c : ToolCall)
      (args : JValue) (t : ToolRegistry) :
  finishes env c args ->
  (forall c' a', In c' post -> ~ finishes env c' a') ->
  let t' := fold_left (fun t c => toolsAfterCall env c t) (pre ++ c :: post) t in
  finishCalled t' = true /\ analysisResults t' = args.
Proof.
  intros [Hn Hp] Hno. simpl. rewrite fold_left_app. simpl.
  destruct (fold_toolsAfterCall_no_finish post
              (toolsAfterCall env c
                 (fold_left (fun t c => toolsAfterCall env c t) pre t)) Hno)
    as [Hf Ha].
  rewrite Hf, Ha. unfold toolsAfterCall at 1 3. rewrite Hp, Hn. simpl.
  rewrite orb_true_r. now split.
Qed.

End RoundFacts.

(** ** The round loop *)

Section LoopFacts.

Variable cfg : Config.
Variable env : Env.

Lemma trackUsage_eq (response : Response) (st : State) :
  trackUsage response st
  = (Ok tt, set_usage (accumulate (resp_usage response) (usage st)) st).
Proof.
  unfold trackUsage, accumulate.
  destruct (resp_usage response); [reflexivity|].
  destruct st; reflexivity.
Qed.

(** [exploreRound] by cases on what the model answers. *)
Lemma exploreRound_eq (round : nat) (st : State) :
  exploreRound cfg env round st =
  let st1 := log_request (explorationRequest cfg env st)
                         (set_usage (withRounds (round + 1) (usage st)) st) in
  match chat_create env (length (requests st)) (explorationRequest cfg env st) with
  | Throw e => (Throw e, st1)
  | Ok response =>
      let st2 :=
        log_usage (set_usage (accumulate (resp_usage response) (usage st1)) st1) in
      match resp_message response with
      | None => (Throw "No message in response", st2)
      | Some message =>
          forEach (callsOf message) (runToolCall env)
                  (pushed (AssistantMsg message) st2)
      end
  end.
Proof.
  unfold exploreRound, create, explorationRequest, bind, get, modify, lift,
    setRounds; simpl.
  destruct (chat_create env (length (requests st)) _) as [response|e];
    [|reflexivity].
  rewrite trackUsage_eq.
  unfold modify, ret, push, throw, callsOf, pushed; simpl.
  destruct (resp_message response) as [message|]; [|reflexivity].
  destruct (am_tool_calls message) as [[|? ?]|]; reflexivity.
Qed.

Lemma runForcedToolCall_frame (toolCall : ToolCall) (st : State) :
  exists t, snd (runForcedToolCall env toolCall st) = set_tools t st.
Proof.
  unfold runForcedToolCall, bind, lift, ret.
  destruct (JSON_parse env (tc_arguments toolCall)) as [args|e]; simpl.
  - pose proof (execute_state env (tc_name toolCall) args st) as Hs.
    destruct (execute env (tc_name toolCall) args st) as [[v|e] st'];
      simpl in *; subst st'; eexists; reflexivity.
  - exists (tools st). destruct st; reflexivity.
Qed.

Lemma forced_batch_frame (batch : list ToolCall) (st : State) :
  exists t, snd (forEach batch (runForcedToolCall env) st) = set_tools t st.
Proof.
  revert st. induction batch as [|c rest IH]; intros st; simpl.
  - exists (tools st). destruct st; reflexivity.
  - unfold bind. destruct (runForcedToolCall_frame c st) as [t Ht].
    destruct (runForcedToolCall env c st) as [[[]|e] st1]; simpl in Ht; subst st1.
    + destruct (IH (set_tools t st)) as [t' Ht']. exists t'.
      rewrite Ht'. reflexivity.
    + exists t. reflexivity.
Qed.

(** [forceCompletion] by cases on what the model answers. *)
Lemma forceCompletion_eq (st : State) :
  forceCompletion cfg env st =
  let st1 := log_request (forcingRequest cfg env st)
                         (pushed (UserMsg forceInstruction) st) in
  match chat_create env (length (requests st)) (forcingRequest cfg env st) with
  | Throw e => (Throw e, st1)
  | Ok response =>
      match resp_message response with
      | Some message => forEach (callsOf message) (runForcedToolCall env) st1
      | None => (Ok tt, st1)
      end
  end.
Proof.
  unfold forceCompletion, create, forcingRequest, bind, get, modify, lift,
    push, pushed; simpl.
  destruct (chat_create env (length (requests st)) _) as [response|e];
    [|reflexivity].
  destruct (resp_message response) as [message|]; [|reflexivity].
  unfold callsOf. destruct (am_tool_calls message); reflexivity.
Qed.

(** What [forceCompletion] leaves alone: it appends the instruction to the
    history, logs one pinned request and may change the registry. *)
Lemma forceCompletion_frame (st : State) :
  exists t,
    snd (forceCompletion cfg env st)
    = mkState (history st ++ [UserMsg forceInstruction]) (usage st) t
              (requests st ++ [forcingRequest cfg env st]) (usageTrace st).
Proof.
  rewrite forceCompletion_eq. simpl.
  destruct (chat_create env (length (requests st)) _) as [response|e].
  - destruct (resp_message response) as [message|].
    + match goal with
      | |- context [forEach ?b ?f ?s] =>
          destruct (forced_batch_frame b s) as [t Ht]; exists t; rewrite Ht
      end.
      reflexivity.
    + exists (tools st). reflexivity.
  - exists (tools st). reflexivity.
Qed.

(** What one exploration round leaves behind, whatever its outcome. *)
Lemma exploreRound_frame (round : nat) (st : State) :
  let st' := snd (exploreRound cfg env round st) in
  requests st' = requests st ++ [explorationRequest cfg env st]
  /\ (exists more, history st' = history st ++ more)
  /\ rounds (usage st') = round + 1.
Proof.
  rewrite exploreRound_eq. simpl.
  destruct (chat_create env (length (requests st)) _) as [response|e]; simpl.
  - assert (Hr : rounds (accumulate (resp_usage response)
                           (withRounds (round + 1) (usage st))) = round + 1)
      by (unfold accumulate; destruct (resp_usage response); reflexivity).
    destruct (resp_message response) as [message|]; simpl.
    + rewrite forEach_runToolCall_spec. simpl. split; [reflexivity|]. split.
      * rewrite <- app_assoc. eexists; reflexivity.
      * exact Hr.
    + split; [reflexivity|]. split; [exists []; now rewrite app_nil_r|exact Hr].
  - split; [reflexivity|]. split; [exists []; now rewrite app_nil_r|reflexivity].
Qed.

(** One iteration of the loop of [explorationLoop]. *)
Lemma explorationLoop_from_S (fuel round : nat) (st : State) :
  explorationLoop_from cfg env (S fuel) round st =
  match exploreRound cfg env round st with
  | (Throw e, st1) => (Throw e, st1)
  | (Ok _, st1) =>
      if finishCalled (tools st1) then (Ok tt, st1)
      else if overBudget cfg (usage st1) then forceCompletion cfg env st1
           else explorationLoop_from cfg env fuel (S round) st1
  end.
Proof.
  simpl. unfold bind, isFinished, get, ret.
  destruct (exploreRound cfg env round st) as [[[]|e] st1]; [|reflexivity].
  simpl. destruct (finishCalled (tools st1)); [reflexivity|].
  destruct (overBudget cfg (usage st1)); reflexivity.
Qed.

(** Induction over the rounds: [I fuel round] holds at the head of the loop,
    [F] of the outcome and state when the loop is left. *)
Lemma explorationLoop_from_ind
      (I : nat -> nat -> State -> Prop) (F : Result unit -> State -> Prop) :
  (forall round st, I 0 round st ->
     F (fst (forceCompletion cfg env st)) (snd (forceCompletion cfg env st))) ->
  (forall fuel round st, I (S fuel) round st ->
     match exploreRound cfg env round st with
     | (Throw e, st1) => F (Throw e) st1
     | (Ok _, st1) =>
         if finishCalled (tools st1) then F (Ok tt) st1
         else if overBudget cfg (usage st1)
              then F (fst (forceCompletion cfg env st1))
                     (snd (forceCompletion cfg env st1))
              else I fuel (S round) st1
     end) ->
  forall fuel round st, I fuel round st ->
    F (fst (explorationLoop_from cfg env fuel round st))
      (snd (explorationLoop_from cfg env fuel round st)).
Proof.
  intros Hforce Hround. induction fuel as [|fuel IH]; intros round st HI.
  - simpl. now apply (Hforce round).
  - specialize (Hround fuel round st HI). rewrite explorationLoop_from_S.
    destruct (exploreRound cfg env round st) as [[[]|e] st1]; [|exact Hround].
    destruct (finishCalled (tools st1)); [exact Hround|].
    destruct (overBudget cfg (usage st1)); [exact Hround|].
    now apply IH.
Qed.

End LoopFacts.

(** ** The whole run *)

Section RunFacts.

Variable cfg : Config.
Variable env : Env.

(** The result [analyze] builds from the outcome of the loop. *)
Lemma analyze_eq (st : State) :
  analyze cfg env st =
  match buildSystemPrompt env, buildUserPrompt env with
  | Ok systemPrompt, Ok userPrompt =>
      let st0 := set_history [SystemMsg systemPrompt; UserMsg userPrompt] st in
      match explorationLoop cfg env st0 with
      | (Ok _, st1) =>
          match getProp (analysisResults (tools st1)) "opportunities",
                getProp (analysisResults (tools st1)) "patterns",
                getProp (analysisResults (tools st1)) "summary" with
          | Ok opps, Ok pats, Ok summ =>
              (mkResult (mkPayload opps pats summ) (usage st1)
                        StatusComplete None, st1)
          | Throw e, _, _ | Ok _, Throw e, _ | Ok _, Ok _, Throw e =>
              (mkResult (mkPayload (JArr []) (JArr []) (JStr "Analysis failed"))
                        (usage st1) StatusError (Some e), st1)
          end
      | (Throw e, st1) =>
          (mkResult (mkPayload (JArr []) (JArr []) (JStr "Analysis failed"))
                    (usage st1) StatusError (Some e), st1)
      end
  | Throw e, _ | Ok _, Throw e =>
      (mkResult (mkPayload (JArr []) (JArr []) (JStr "Analysis failed"))
                (usage st) StatusError (Some e), st)
  end.
Proof.
  unfold analyze, analyzeBody, bind, lift, modify, getResults, get, ret.
  destruct (buildSystemPrompt env) as [sp|e]; [|reflexivity].
  destruct (buildUserPrompt env) as [up|e]; [|reflexivity].
  simpl.
  destruct (explorationLoop cfg env _) as [[[]|e] st1]; [|reflexivity].
  destruct (getProp (analysisResults (tools st1)) "opportunities");
    [|reflexivity].
  destruct (getProp (analysisResults (tools st1)) "patterns"); [|reflexivity].
  destruct (getProp (analysisResults (tools st1)) "summary"); reflexivity.
Qed.

(** The usage of the result is the usage the analyzer ends with. *)
Lemma analyze_usage (st : State) :
  res_usage (fst (analyze cfg env st)) = usage (snd (analyze cfg env st)).
Proof.
  rewrite analyze_eq.
  destruct (buildSystemPrompt env) as [sp|e]; [|reflexivity].
  destruct (buildUserPrompt env) as [up|e]; [|reflexivity].
  simpl.
  destruct (explorationLoop cfg env _) as [[[]|e] st1]; [|reflexivity].
  destruct (getProp (analysisResults (tools st1)) "opportunities");
    [|reflexivity].
  destruct (getProp (analysisResults (tools st1)) "patterns"); [|reflexivity].
  destruct (getProp (analysisResults (tools st1)) "summary"); reflexivity.
Qed.

(** The analyzer ends where the loop ends, or untouched when a prompt could
    not be built. *)
Lemma analyze_state (st : State) :
  snd (analyze cfg env st) = st
  \/ exists systemPrompt userPrompt,
       snd (analyze cfg env st)
       = snd (explorationLoop cfg env
                (set_history [SystemMsg systemPrompt; UserMsg userPrompt] st)).
Proof.
  rewrite analyze_eq.
  destruct (buildSystemPrompt env) as [sp|e]; [|now left].
  destruct (buildUserPrompt env) as [up|e]; [|now left].
  right. exists sp, up. simpl.
  destruct (explorationLoop cfg env _) as [[[]|e] st1]; [|reflexivity].
  destruct (getProp (analysisResults (tools st1)) "opportunities");
    [|reflexivity].
  destruct (getProp (analysisResults (tools st1)) "patterns"); [|reflexivity].
  destruct (getProp (analysisResults (tools st1)) "summary"); reflexivity.
Qed.

(** A property of every state the loop can end in, and of the untouched
    analyzer, holds of the state [analyze] ends in. *)
Lemma analyze_state_ind (P : State -> Prop) (st : State) :
  P st ->
  (forall systemPrompt userPrompt,
     P (snd (explorationLoop cfg env
               (set_history [SystemMsg systemPrompt; UserMsg userPrompt] st)))) ->
  P (snd (analyze cfg env st)).
Proof.
  intros H0 H1. destruct (analyze_state st) as [->|(sp & up & ->)].
  - exact H0.
  - apply H1.
Qed.

(** The round counter never passes [maxRounds]. *)
Lemma explorationLoop_rounds (st : State) :
  rounds (usage st) <= maxRounds cfg ->
  rounds (usage (snd (explorationLoop cfg env st))) <= maxRounds cfg.
Proof.
  intros H0. unfold explorationLoop.
  apply (explorationLoop_from_ind cfg env
           (fun fuel round s =>
              round + fuel = maxRounds cfg /\ rounds (usage s) <= maxRounds cfg)
           (fun _ s => rounds (usage s) <= maxRounds cfg)).
  - intros round s [_ Hs].
    destruct (forceCompletion_frame cfg env s) as [t ->]. exact Hs.
  - intros fuel round s [Hfuel Hs].
    destruct (exploreRound_frame cfg env round s) as (_ & _ & Hr).
    destruct (exploreRound cfg env round s) as [[[]|e] s1]; simpl in Hr.
    + destruct (finishCalled (tools s1)); [lia|].
      destruct (overBudget cfg (usage s1)).
      * destruct (forceCompletion_frame cfg env s1) as [t ->]. simpl. lia.
      * split; lia.
    + lia.
  - split; [lia | exact H0].
Qed.

End RunFacts.

(** ** Usage accounting *)

Lemma usage_le_refl (u : UsageMetrics) : usage_le u u.
Proof. unfold usage_le. repeat split; try lia. apply Qle_refl. Qed.

Lemma usage_le_trans (u v w : UsageMetrics) :
  usage_le u v -> usage_le v w -> usage_le u w.
Proof.
  unfold usage_le. intros (A1 & A2 & A3 & A4) (B1 & B2 & B3 & B4).
  repeat split; try lia. eapply Qle_trans; eassumption.
Qed.

Lemma calculateCost_mono (u v : UsageMetrics) :
  (promptTokens u <= promptTokens v)%N ->
  (completionTokens u <= completionTokens v)%N ->
  (calculateCost u <= calculateCost v)%Q.
Proof.
  intros Hp Hc. unfold calculateCost.
  apply Qplus_le_compat; apply Qmult_le_compat_r; try discriminate;
    unfold Qdiv; apply Qmult_le_compat_r; try discriminate;
    rewrite <- Zle_Qle; lia.
Qed.

Lemma withRounds_le (n : nat) (u : UsageMetrics) : usage_le u (withRounds n u).
Proof. unfold usage_le, withRounds; simpl. repeat split; try lia. apply Qle_refl. Qed.

Lemma accumulate_le (reported : option CompletionUsage) (u : UsageMetrics) :
  costAccurate u -> usage_le u (accumulate reported u).
Proof.
  intros Hc. destruct reported as [ru|]; [|apply usage_le_refl].
  unfold usage_le, accumulate; cbn [totalTokens promptTokens completionTokens
    estimatedCost]. repeat split; try lia.
  apply (Qle_trans _ (calculateCost u)).
  - apply Qle_lteq. right. exact Hc.
  - apply calculateCost_mono; simpl; lia.
Qed.

Lemma accumulate_accurate (reported : option CompletionUsage) (u : UsageMetrics) :
  costAccurate u -> costAccurate (accumulate reported u).
Proof.
  intros Hc. destruct reported as [ru|]; [|exact Hc].
  unfold costAccurate, accumulate, calculateCost; simpl. apply Qeq_refl.
Qed.

Lemma accumulate_rounds (reported : option CompletionUsage) (u : UsageMetrics) :
  rounds (accumulate reported u) = rounds u.
Proof. destruct reported; reflexivity. Qed.

Lemma traced_mono (tr : list UsageMetrics) (u v : UsageMetrics) :
  Traced tr u -> usage_le u v -> Traced tr v.
Proof.
  intros [H1 H2] Huv. split; [|exact H2].
  intros i x Hx. destruct (H1 i x Hx) as [Hr Hle].
  split; [exact Hr | eapply usage_le_trans; eassumption].
Qed.

Lemma traced_snoc (tr : list UsageMetrics) (u v : UsageMetrics) :
  Traced tr u -> usage_le u v -> rounds v = S (length tr) ->
  Traced (tr ++ [v]) v.
Proof.
  intros Ht Huv Hr. destruct (traced_mono tr u v Ht Huv) as [H1 H2].
  assert (Hnth : forall i x, nth_error (tr ++ [v]) i = Some x ->
                   (i < length tr /\ nth_error tr i = Some x)
                   \/ (i = length tr /\ x = v)).
  { intros i x Hx. destruct (Nat.lt_ge_cases i (length tr)) as [Hlt|Hge].
    - left. split; [exact Hlt|]. now rewrite nth_error_app1 in Hx.
    - right. rewrite nth_error_app2 in Hx by exact Hge.
      destruct (i - length tr) as [|k] eqn:Hk; simpl in Hx.
      + split; [lia | congruence].
      + destruct k; discriminate. }
  split.
  - intros i x Hx. destruct (Hnth i x Hx) as [[_ Hi]|[-> ->]].
    + now apply H1.
    + split; [exact Hr | apply usage_le_refl].
  - intros i j xi xj Hij Hi Hj.
    destruct (Hnth i xi Hi) as [[Hil Hi']|[-> ->]];
      destruct (Hnth j xj Hj) as [[Hjl Hj']|[-> ->]].
    + exact (H2 i j xi xj Hij Hi' Hj').
    + now apply (H1 i xi).
    + lia.
    + apply usage_le_refl.
Qed.

Section UsageFacts.

Variable cfg : Config.
Variable env : Env.

(** The usage log is kept in order by the loop, however it is left. *)
Lemma explorationLoop_traced (st : State) :
  usageTrace st = [] -> costAccurate (usage st) ->
  Traced (usageTrace (snd (explorationLoop cfg env st)))
         (usage (snd (explorationLoop cfg env st))).
Proof.
  intros Htr Hacc. unfold explorationLoop.
  apply (explorationLoop_from_ind cfg env
           (fun _ round s =>
              length (usageTrace s) = round /\ costAccurate (usage s)
              /\ Traced (usageTrace s) (usage s))
           (fun _ s => Traced (usageTrace s) (usage s))).
  - intros round s (_ & _ & Ht).
    destruct (forceCompletion_frame cfg env s) as [t ->]. exact Ht.
  - intros fuel round s (Hlen & Hc & Ht).
    assert (Hforce : forall s1,
              Traced (usageTrace s1) (usage s1) ->
              Traced (usageTrace (snd (forceCompletion cfg env s1)))
                     (usage (snd (forceCompletion cfg env s1)))).
    { intros s1 H1. destruct (forceCompletion_frame cfg env s1) as [t ->].
      exact H1. }
    rewrite exploreRound_eq. simpl.
    destruct (chat_create env (length (requests s)) _) as [response|e]; simpl.
    + set (u1 := withRounds (round + 1) (usage s)).
      assert (Hc1 : costAccurate u1) by exact Hc.
      assert (Hnew : Traced (usageTrace s ++ [accumulate (resp_usage response) u1])
                            (accumulate (resp_usage response) u1)).
      { apply (traced_snoc _ (usage s)); [exact Ht | |].
        - eapply usage_le_trans; [apply (withRounds_le (round + 1))|].
          apply accumulate_le. exact Hc1.
        - rewrite accumulate_rounds. simpl. lia. }
      destruct (resp_message response) as [message|]; simpl; [|exact Hnew].
      rewrite forEach_runToolCall_spec. simpl.
      match goal with
      | |- context [finishCalled ?t] => destruct (finishCalled t)
      end; [exact Hnew|].
      destruct (overBudget cfg _).
      * apply Hforce. exact Hnew.
      * split; [rewrite length_app; simpl; lia|].
        split; [apply accumulate_accurate; exact Hc1 | exact Hnew].
    + eapply traced_mono; [exact Ht | apply withRounds_le].
  - rewrite Htr. split; [reflexivity|]. split; [exact Hacc|].
    split; intros i; destruct i; discriminate.
Qed.

End UsageFacts.

(** ** When the forcing round is entered *)

Section ForcingFacts.

Variable cfg : Config.
Variable env : Env.

Lemma overBudget_true (u : UsageMetrics) :
  overBudget cfg u = true
  <-> (4 * tokenBudget cfg < 5 * Z.of_N (totalTokens u))%Z.
Proof. unfold overBudget. apply Z.ltb_lt. Qed.

Lemma overBudget_false (u : UsageMetrics) :
  overBudget cfg u = false
  <-> (5 * Z.of_N (totalTokens u) <= 4 * tokenBudget cfg)%Z.
Proof. unfold overBudget. rewrite Z.ltb_ge. reflexivity. Qed.

Lemma ForcingAfter_S_inv (fuel round : nat) (st : State) :
  ForcingAfter cfg env (S fuel) round st ->
  exists st1,
    exploreRound cfg env round st = (Ok tt, st1)
    /\ finishCalled (tools st1) = false
    /\ ((4 * tokenBudget cfg < 5 * Z.of_N (totalTokens (usage st1)))%Z
        \/ ((5 * Z.of_N (totalTokens (usage st1)) <= 4 * tokenBudget cfg)%Z
            /\ ForcingAfter cfg env fuel (S round) st1)).
Proof.
  intros HF. inversion HF; subst; eexists; (split; [eassumption|]);
    (split; [assumption|]); [left | right; split]; assumption.
Qed.

(** The requests the loop sends: exploration requests, then the forcing
    request exactly when [ForcingAfter] holds. *)
Lemma explorationLoop_from_requests (fuel round : nat) (st : State) :
  let st' := snd (explorationLoop_from cfg env fuel round st) in
  exists reqs,
    Forall (fun r => req_tool_choice r = ToolChoiceAuto) reqs
    /\ ((ForcingAfter cfg env fuel round st
         /\ exists st1,
              requests st' = requests st ++ reqs ++ [forcingRequest cfg env st1])
        \/ (~ ForcingAfter cfg env fuel round st
            /\ requests st' = requests st ++ reqs)).
Proof.
  revert round st. induction fuel as [|fuel IH]; intros round st; cbv zeta.
  - simpl. exists []. split; [constructor|]. left. split; [constructor|].
    exists st. destruct (forceCompletion_frame cfg env st) as [t ->].
    reflexivity.
  - rewrite explorationLoop_from_S.
    destruct (exploreRound_frame cfg env round st) as (Hreq & _ & _).
    destruct (exploreRound cfg env round st) as [[[]|e] st1] eqn:Hround;
      simpl in Hreq.
    + destruct (finishCalled (tools st1)) eqn:Hfin.
      * exists [explorationRequest cfg env st].
        split; [repeat constructor|]. right. split; [|exact Hreq].
        intros HF. apply ForcingAfter_S_inv in HF.
        destruct HF as (s & Hs & Hf & _). congruence.
      * destruct (overBudget cfg (usage st1)) eqn:Hover.
        -- exists [explorationRequest cfg env st].
           split; [repeat constructor|]. left. split.
           ++ eapply forcing_budget; [exact Hround | exact Hfin |].
              now apply overBudget_true.
           ++ exists st1.
              destruct (forceCompletion_frame cfg env st1) as [t ->]. simpl.
              rewrite Hreq, <- app_assoc. reflexivity.
        -- destruct (IH (S round) st1) as (reqs & Hauto & Hcase).
           exists (explorationRequest cfg env st :: reqs).
           split; [constructor; [reflexivity | exact Hauto]|].
           destruct Hcase as [[HF [st2 Hst2]]|[HnF Hst2]].
           ++ left. split.
              ** eapply forcing_later; [exact Hround | exact Hfin | | exact HF].
                 now apply overBudget_false.
              ** exists st2. rewrite Hst2, Hreq, <- app_assoc. reflexivity.
           ++ right. split.
              ** intros HF. apply ForcingAfter_S_inv in HF.
                 destruct HF as (s & Hs & _ & Hcases).
                 assert (s = st1) by congruence. subst s.
                 apply overBudget_false in Hover.
                 destruct Hcases as [Hlt|[_ HF']]; [lia | contradiction].
              ** rewrite Hst2, Hreq, <- app_assoc. reflexivity.
    + exists [explorationRequest cfg env st].
      split; [repeat constructor|]. right. split; [|exact Hreq].
      intros HF. apply ForcingAfter_S_inv in HF.
      destruct HF as (s & Hs & _). congruence.
Qed.

End ForcingFacts.

(** ** Runs, request by request *)

Lemma nth_error_snoc {A} (l : list A) (x y : A) (i : nat) :
  nth_error (l ++ [x]) i = Some y ->
  (i < length l /\ nth_error l i = Some y) \/ (i = length l /\ y = x).
Proof.
  intros H. destruct (Nat.lt_ge_cases i (length l)) as [Hlt|Hge].
  - left. split; [exact Hlt|]. now rewrite nth_error_app1 in H.
  - right. rewrite nth_error_app2 in H by exact Hge.
    destruct (i - length l) as [|k] eqn:Hk; simpl in H.
    + split; [lia | congruence].
    + destruct k; discriminate.
Qed.

Section RequestFacts.

Variable cfg : Config.
Variable env : Env.

(** A batch that leaves the finish flag down executed no [finish_analysis]
    and left the payload alone. *)
Lemma fold_toolsAfterCall_unfinished (batch : list ToolCall) (t : ToolRegistry) :
  finishCalled (fold_left (fun t c => toolsAfterCall env c t) batch t) = false ->
  finishCalled t = false
  /\ analysisResults (fold_left (fun t c => toolsAfterCall env c t) batch t)
     = analysisResults t
  /\ (forall c a, In c batch -> ~ finishes env c a).
Proof.
  revert t. induction batch as [|c rest IH]; intros t H; simpl in *.
  - repeat split; [exact H | intros c a []].
  - destruct (IH _ H) as (Hc & Ha & Hno). rewrite Ha. clear IH H Ha.
    unfold toolsAfterCall in *.
    destruct (JSON_parse env (tc_arguments c)) as [a|e] eqn:Hp.
    + simpl in Hc. apply orb_false_iff in Hc. destruct Hc as [Ht Hn].
      simpl. rewrite Hn. repeat split; [exact Ht|].
      intros c' a' [<-|Hin] [Hname Hparse].
      * rewrite Hname in Hn. discriminate.
      * apply (Hno c' a' Hin). now split.
    + repeat split; [exact Hc|].
      intros c' a' [<-|Hin] [Hname Hparse].
      * congruence.
      * apply (Hno c' a' Hin). now split.
Qed.

(** One exploration round, by what the model answers: the request it logs,
    its outcome, the registry and the history it leaves. *)
Lemma exploreRound_cases (round : nat) (st : State) :
  let out := exploreRound cfg env round st in
  requests (snd out) = requests st ++ [explorationRequest cfg env st]
  /\ match chat_create env (length (requests st))
                       (explorationRequest cfg env st) with
     | Ok response =>
         match resp_message response with
         | Some message =>
             fst out = Ok tt
             /\ tools (snd out)
                = fold_left (fun t c => toolsAfterCall env c t)
                            (callsOf message) (tools st)
             /\ exists acks,
                  history (snd out)
                  = history st ++ AssistantMsg message :: acks
                  /\ Forall2 (fun c m => exists content,
                                m = ToolMsg (tc_id c) content)
                             (callsOf message) acks
                  /\ (forall c a, In c (callsOf message) -> finishes env c a ->
                        In (ToolMsg (tc_id c) (JSON_stringify env finishAck))
                           acks)
         | None =>
             fst out = Throw "No message in response"
             /\ tools (snd out) = tools st
         end
     | Throw e => fst out = Throw e /\ tools (snd out) = tools st
     end.
Proof.
  cbv zeta. rewrite exploreRound_eq. cbv zeta.
  destruct (chat_create env (length (requests st)) _) as [response|e].
  - destruct (resp_message response) as [message|].
    + rewrite forEach_runToolCall_spec. simpl.
      split; [reflexivity|]. split; [reflexivity|]. split; [reflexivity|].
      eexists. split; [rewrite <- app_assoc; reflexivity|].
      split; [apply replies_acknowledge|].
      intros c a Hin Hf. eapply replies_finish; eassumption.
    + simpl. repeat split.
  - simpl. repeat split.
Qed.

(** The forcing round, by what the model answers. *)
Lemma forceCompletion_cases (st : State) :
  let out := forceCompletion cfg env st in
  requests (snd out) = requests st ++ [forcingRequest cfg env st]
  /\ history (snd out) = history st ++ [UserMsg forceInstruction]
  /\ (forall response,
        chat_create env (length (requests st)) (forcingRequest cfg env st)
        = Ok response ->
        responseCalls response = [] ->
        fst out = Ok tt /\ tools (snd out) = tools st).
Proof.
  cbv zeta.
  destruct (forceCompletion_frame cfg env st) as [t Ht].
  split; [now rewrite Ht|]. split; [now rewrite Ht|].
  intros response Hresp Hnone. rewrite forceCompletion_eq. cbv zeta.
  rewrite Hresp. unfold responseCalls in Hnone.
  destruct (resp_message response) as [message|].
  - rewrite Hnone. simpl. split; reflexivity.
  - split; reflexivity.
Qed.

End RequestFacts.

Section OutcomeFacts.

Variable cfg : Config.
Variable env : Env.

(** What [analyze] returns, by the outcome of the loop and the payload the
    registry holds. *)
Lemma analyze_outcome (st : State) :
  let run := analyze cfg env st in
  match buildSystemPrompt env, buildUserPrompt env with
  | Ok systemPrompt, Ok userPrompt =>
      let out := explorationLoop cfg env
                   (set_history [SystemMsg systemPrompt; UserMsg userPrompt] st) in
      snd run = snd out
      /\ match fst out with
         | Ok _ =>
             match analysisResults (tools (snd out)) with
             | JNull =>
                 status (fst run) = StatusError
                 /\ error (fst run)
                    = Some "Cannot read properties of null (reading 'opportunities')"
                 /\ results (fst run) = failedPayload
             | JUndefined => status (fst run) = StatusError
             | _ => status (fst run) = StatusComplete
             end
         | Throw e =>
             status (fst run) = StatusError /\ error (fst run) = Some e
             /\ results (fst run) = failedPayload
         end
  | _, _ => snd run = st /\ status (fst run) = StatusError
  end.
Proof.
  cbv zeta. rewrite analyze_eq.
  destruct (buildSystemPrompt env) as [sp|e]; [|now split].
  destruct (buildUserPrompt env) as [up|e]; [|now split].
  cbv zeta.
  destruct (explorationLoop cfg env _) as [[[]|e] st1]; [|now repeat split].
  simpl. destruct (analysisResults (tools st1)); simpl; repeat split.
Qed.

Lemma not_forcing_log (st : State) :
  Forall (fun r => isForcing r = false) (requests st) ->
  forall i, ~ ForcedWithoutToolCall env st i.
Proof.
  intros Hall i (req & response & Hn & Hf & _).
  apply nth_error_In in Hn. rewrite Forall_forall in Hall.
  rewrite (Hall req Hn) in Hf. discriminate.
Qed.

(** A round that ends without throwing and with the finish flag down. *)
Lemma exploreRound_unfinished (round : nat) (st st1 : State) :
  exploreRound cfg env round st = (Ok tt, st1) ->
  finishCalled (tools st1) = false ->
  analysisResults (tools st1) = analysisResults (tools st)
  /\ forall response message c a,
       chat_create env (length (requests st)) (explorationRequest cfg env st)
       = Ok response ->
       resp_message response = Some message ->
       In c (callsOf message) -> ~ finishes env c a.
Proof.
  intros Hround Hfin.
  pose proof (exploreRound_cases cfg env round st) as H. cbv zeta in H.
  rewrite Hround in H. simpl in H. destruct H as [_ H].
  destruct (chat_create env (length (requests st)) _) as [response|e] eqn:Hc;
    [|destruct H; discriminate].
  destruct (resp_message response) as [message|] eqn:Hmsg;
    [|destruct H; discriminate].
  destruct H as (_ & Htools & _). rewrite Htools in Hfin.
  destruct (fold_toolsAfterCall_unfinished env _ _ Hfin) as (_ & Ha & Hno).
  split; [now rewrite Htools|].
  intros response' message' c a Hr Hm. injection Hr as <-.
  rewrite Hmsg in Hm. injection Hm as <-. apply Hno.
Qed.

(** The loop entered without a payload: when the forcing round is answered
    without a tool call, the loop returns normally and there is still no
    payload. *)
Lemma explorationLoop_forced_silent (st : State) :
  Forall (fun r => isForcing r = false) (requests st) ->
  analysisResults (tools st) = JNull ->
  forall i, ForcedWithoutToolCall env (snd (explorationLoop cfg env st)) i ->
    fst (explorationLoop cfg env st) = Ok tt
    /\ analysisResults (tools (snd (explorationLoop cfg env st))) = JNull.
Proof.
  intros Hlog Hnull. unfold explorationLoop.
  assert (Hforce : forall s,
            Forall (fun r => isForcing r = false) (requests s) ->
            analysisResults (tools s) = JNull ->
            forall i, ForcedWithoutToolCall env (snd (forceCompletion cfg env s)) i ->
              fst (forceCompletion cfg env s) = Ok tt
              /\ analysisResults (tools (snd (forceCompletion cfg env s))) = JNull).
  { intros s Hs Hn i (req & response & Hnth & Hf & Hc & Hnone).
    destruct (forceCompletion_cases cfg env s) as (Hreq & _ & Hquiet).
    rewrite Hreq in Hnth.
    destruct (nth_error_snoc _ _ _ _ Hnth) as [[_ Hold]|[-> ->]].
    - apply nth_error_In in Hold. rewrite Forall_forall in Hs.
      rewrite (Hs req Hold) in Hf. discriminate.
    - destruct (Hquiet response Hc Hnone) as [Hok Ht].
      split; [exact Hok | now rewrite Ht]. }
  apply (explorationLoop_from_ind cfg env
           (fun _ _ s =>
              Forall (fun r => isForcing r = false) (requests s)
              /\ analysisResults (tools s) = JNull)
           (fun r s => forall i, ForcedWithoutToolCall env s i ->
                         r = Ok tt /\ analysisResults (tools s) = JNull)).
  - intros round s [Hs Hn]. now apply Hforce.
  - intros fuel round s [Hs Hn].
    destruct (exploreRound_cases cfg env round s) as [Hreq _].
    destruct (exploreRound cfg env round s) as [[[]|e] s1] eqn:Hround;
      simpl in Hreq.
    + assert (Hs1 : Forall (fun r => isForcing r = false) (requests s1)).
      { rewrite Hreq. apply Forall_app. split; [exact Hs|].
        constructor; [reflexivity | constructor]. }
      destruct (finishCalled (tools s1)) eqn:Hfin.
      * intros i Hi. exfalso. exact (not_forcing_log s1 Hs1 i Hi).
      * destruct (exploreRound_unfinished round s s1 Hround Hfin) as [Ha _].
        assert (Hn1 : analysisResults (tools s1) = JNull) by congruence.
        destruct (overBudget cfg (usage s1)); [now apply Hforce | now split].
    + intros i Hi. exfalso.
      apply (not_forcing_log s1) with (i := i); [|exact Hi].
      rewrite Hreq. apply Forall_app. split; [exact Hs|].
      constructor; [reflexivity | constructor].
  - split; assumption.
Qed.

(** The loop entered with no executed [finish_analysis] in the log: a
    [finish_analysis] executed in an exploration round makes the request of
    that round the last one, the loop return normally with the flag up, and
    its acknowledgement is in the history. *)
Lemma explorationLoop_finish (st : State) :
  (forall i c a, ~ FinishExecutedIn env st i c a) ->
  forall i c a,
    FinishExecutedIn env (snd (explorationLoop cfg env st)) i c a ->
    length (requests (snd (explorationLoop cfg env st))) = S i
    /\ fst (explorationLoop cfg env st) = Ok tt
    /\ finishCalled (tools (snd (explorationLoop cfg env st))) = true
    /\ In (ToolMsg (tc_id c) (JSON_stringify env finishAck))
          (history (snd (explorationLoop cfg env st))).
Proof.
  intros Hnone. unfold explorationLoop.
  assert (Hforce : forall s,
            (forall i c a, ~ FinishExecutedIn env s i c a) ->
            forall i c a,
              ~ FinishExecutedIn env (snd (forceCompletion cfg env s)) i c a).
  { intros s Hs i c a (req & response & message & Hnth & Hf & Hrest).
    destruct (forceCompletion_cases cfg env s) as (Hreq & _ & _).
    rewrite Hreq in Hnth.
    destruct (nth_error_snoc _ _ _ _ Hnth) as [[_ Hold]|[-> ->]].
    - apply (Hs i c a). exists req, response, message. now split.
    - discriminate Hf. }
  apply (explorationLoop_from_ind cfg env
           (fun _ _ s => forall i c a, ~ FinishExecutedIn env s i c a)
           (fun r s => forall i c a, FinishExecutedIn env s i c a ->
                         length (requests s) = S i /\ r = Ok tt
                         /\ finishCalled (tools s) = true
                         /\ In (ToolMsg (tc_id c) (JSON_stringify env finishAck))
                               (history s))).
  - intros round s Hs i c a Hi. exfalso. exact (Hforce s Hs i c a Hi).
  - intros fuel round s Hs.
    pose proof (exploreRound_cases cfg env round s) as Hcases.
    cbv zeta in Hcases.
    destruct (exploreRound cfg env round s) as [r s1] eqn:Hround.
    simpl in Hcases. destruct Hcases as [Hreq Hcases].
    assert (Hnew : forall i c a, FinishExecutedIn env s1 i c a ->
              length (requests s1) = S i /\ r = Ok tt
              /\ finishCalled (tools s1) = true
              /\ In (ToolMsg (tc_id c) (JSON_stringify env finishAck))
                    (history s1)).
    { intros i c a (req & response & message & Hnth & Hf & Hc & Hm & Hin & Hfin).
      rewrite Hreq in Hnth.
      destruct (nth_error_snoc _ _ _ _ Hnth) as [[_ Hold]|[-> ->]].
      - exfalso. apply (Hs i c a). exists req, response, message. now split.
      - rewrite Hc, Hm in Hcases.
        destruct Hcases as (Hok & Htools & acks & Hhist & _ & Hack).
        split; [rewrite Hreq, length_app; simpl; lia|].
        split; [exact Hok|]. split.
        + destruct (finishCalled (tools s1)) eqn:Hflag; [reflexivity|].
          rewrite Htools in Hflag.
          destruct (fold_toolsAfterCall_unfinished env _ _ Hflag)
            as (_ & _ & Hno).
          exfalso. exact (Hno c a Hin Hfin).
        + rewrite Hhist. apply in_or_app. right. right.
          exact (Hack c a Hin Hfin). }
    destruct r as [[]|e].
    + destruct (finishCalled (tools s1)) eqn:Hflag; [exact Hnew|].
      assert (Hs1 : forall i c a, ~ FinishExecutedIn env s1 i c a).
      { intros i c a Hi. destruct (Hnew i c a Hi) as (_ & _ & Ht & _).
        congruence. }
      destruct (overBudget cfg (usage s1)); [|exact Hs1].
      intros i c a Hi. exfalso. exact (Hforce s1 Hs1 i c a Hi).
    + exact Hnew.
  - exact Hnone.
Qed.

End OutcomeFacts.

(** ** What the usage counts *)

Section BillingFacts.

Variable cfg : Config.
Variable env : Env.

Lemma explorationTokens_snoc (reqs : list Request) (req : Request) (i : nat) :
  explorationTokens env i (reqs ++ [req])
  = (explorationTokens env i reqs
     + (if isForcing req then 0 else reportedTokens env (i + length reqs) req))%N.
Proof.
  revert i. induction reqs as [|r rest IH]; intros i; simpl.
  - rewrite Nat.add_0_r. lia.
  - rewrite IH. replace (S i + length rest) with (i + S (length rest)) by lia.
    lia.
Qed.

(** The usage one exploration round leaves. *)
Lemma exploreRound_usage (round : nat) (st : State) :
  usage (snd (exploreRound cfg env round st))
  = match chat_create env (length (requests st))
                      (explorationRequest cfg env st) with
    | Ok response =>
        accumulate (resp_usage response) (withRounds (round + 1) (usage st))
    | Throw _ => withRounds (round + 1) (usage st)
    end.
Proof.
  rewrite exploreRound_eq. cbv zeta.
  destruct (chat_create env (length (requests st)) _) as [response|e];
    [|reflexivity].
  destruct (resp_message response) as [message|]; [|reflexivity].
  rewrite forEach_runToolCall_spec. reflexivity.
Qed.

(** The total of the usage is the total of the exploration answers. *)
Lemma explorationLoop_billing (st : State) :
  totalTokens (usage st) = explorationTokens env 0 (requests st) ->
  totalTokens (usage (snd (explorationLoop cfg env st)))
  = explorationTokens env 0 (requests (snd (explorationLoop cfg env st))).
Proof.
  intros H0. unfold explorationLoop.
  assert (Hforce : forall s,
            totalTokens (usage s) = explorationTokens env 0 (requests s) ->
            totalTokens (usage (snd (forceCompletion cfg env s)))
            = explorationTokens env 0 (requests (snd (forceCompletion cfg env s)))).
  { intros s Hs. destruct (forceCompletion_frame cfg env s) as [t ->]. simpl.
    rewrite explorationTokens_snoc. simpl. lia. }
  apply (explorationLoop_from_ind cfg env
           (fun _ _ s =>
              totalTokens (usage s) = explorationTokens env 0 (requests s))
           (fun _ s =>
              totalTokens (usage s) = explorationTokens env 0 (requests s))).
  - intros round s Hs. now apply Hforce.
  - intros fuel round s Hs.
    assert (Hround : totalTokens (usage (snd (exploreRound cfg env round s)))
                     = explorationTokens env 0
                         (requests (snd (exploreRound cfg env round s)))).
    { destruct (exploreRound_frame cfg env round s) as (Hreq & _ & _).
      rewrite Hreq, explorationTokens_snoc, exploreRound_usage. simpl.
      unfold reportedTokens.
      destruct (chat_create env (length (requests s)) _) as [response|e].
      - unfold accumulate. destruct (resp_usage response); simpl; lia.
      - simpl. lia. }
    destruct (exploreRound cfg env round s) as [[[]|e] s1]; simpl in Hround;
      [|exact Hround].
    destruct (finishCalled (tools s1)); [exact Hround|].
    destruct (overBudget cfg (usage s1)); [now apply Hforce | exact Hround].
  - exact H0.
Qed.

End BillingFacts.

(** * The properties of the engine *)

(** ** C1: a forced answer without a tool call *)

(** C1, for every run. Whenever the forcing request is answered without a
    tool call, the result of [analyze] has status [error] (never
    [incomplete]), its error text is that of reading [opportunities] of
    [null], and its payload is the one of the error branch. *)
Theorem forced_round_without_tool_call_reports_error
        (cfg : Config) (env : Env) (i : nat) :
  ForcedWithoutToolCall env (snd (analyze cfg env newAnalyzer)) i ->
  status (fst (analyze cfg env newAnalyzer)) = StatusError
  /\ error (fst (analyze cfg env newAnalyzer))
     = Some "Cannot read properties of null (reading 'opportunities')"
  /\ results (fst (analyze cfg env newAnalyzer)) = failedPayload.
Proof.
  intros Hforced.
  pose proof (analyze_outcome cfg env newAnalyzer) as H. cbv zeta in H.
  destruct (buildSystemPrompt env) as [sp|e].
  - destruct (buildUserPrompt env) as [up|e].
    + destruct H as [Hst H]. rewrite Hst in Hforced.
      destruct (explorationLoop_forced_silent cfg env
                  (set_history [SystemMsg sp; UserMsg up] newAnalyzer)
                  (Forall_nil _) eq_refl i Hforced) as [Hok Hnull].
      rewrite Hok, Hnull in H. exact H.
    + destruct H as [Hst _]. rewrite Hst in Hforced.
      destruct Hforced as (req & response & Hn & _).
      destruct i; discriminate Hn.
  - destruct H as [Hst _]. rewrite Hst in Hforced.
    destruct Hforced as (req & response & Hn & _).
    destruct i; discriminate Hn.
Qed.

(** The failing input of C1: one round of free text, then a forced answer of
    free text. *)
Lemma forced_round_without_tool_call_witness :
  ForcedWithoutToolCall Demo.silent
    (snd (analyze Demo.oneRound Demo.silent newAnalyzer)) 1
  /\ status (fst (analyze Demo.oneRound Demo.silent newAnalyzer)) = StatusError
  /\ error (fst (analyze Demo.oneRound Demo.silent newAnalyzer))
     = Some "Cannot read properties of null (reading 'opportunities')"
  /\ results (fst (analyze Demo.oneRound Demo.silent newAnalyzer))
     = failedPayload.
Proof.
  assert (H : ForcedWithoutToolCall Demo.silent
                (snd (analyze Demo.oneRound Demo.silent newAnalyzer)) 1).
  { eexists. eexists. split; [reflexivity|]. repeat split. }
  split; [exact H|].
  exact (forced_round_without_tool_call_reports_error
           Demo.oneRound Demo.silent 1 H).
Defined.

(** ** C2: tool failures and the dispatcher *)

(** C2, as stated, fails on [execute]: for a name outside the recognized set
    it throws [Unknown tool: <name>], and an error of a collaborator leaves it
    as an exception. *)
Lemma execute_throws_to_its_caller :
  fst (execute (Demo.script []) "bogus" (JObj []) newAnalyzer)
  = Throw "Unknown tool: bogus"
  /\ fst (execute (Demo.script []) "search_code" (JObj []) newAnalyzer)
     = Throw "file not found".
Proof. split; reflexivity. Qed.

(** C2, as the code has it. [execute] throws for an unrecognized name and
    lets collaborator errors through; the [try]/[catch] around each tool call
    of an exploration round turns every such exception, and a parse error of
    the arguments, into the tool-result message of that call, with content
    [Error: <message>], and the call itself never throws. *)
Theorem exploration_tool_call_never_throws
        (env : Env) (toolCall : ToolCall) (st : State) :
  exists st' content,
    runToolCall env toolCall st = (Ok tt, st')
    /\ history st' = history st ++ [ToolMsg (tc_id toolCall) content]
    /\ (forall e, JSON_parse env (tc_arguments toolCall) = Throw e ->
          content = ("Error: " ++ e)%string)
    /\ (forall args e,
          JSON_parse env (tc_arguments toolCall) = Ok args ->
          fst (execute env (tc_name toolCall) args st) = Throw e ->
          content = ("Error: " ++ e)%string)
    /\ (forall args result,
          JSON_parse env (tc_arguments toolCall) = Ok args ->
          fst (execute env (tc_name toolCall) args st) = Ok result ->
          content = JSON_stringify env result)
    /\ (forall args,
          JSON_parse env (tc_arguments toolCall) = Ok args ->
          isRecognized (tc_name toolCall) = false ->
          fst (execute env (tc_name toolCall) args st)
          = Throw ("Unknown tool: " ++ tc_name toolCall)%string
          /\ content = ("Error: Unknown tool: " ++ tc_name toolCall)%string).
Proof.
  eexists. exists (toolReply env toolCall st).
  split; [apply runToolCall_spec|]. split; [reflexivity|].
  unfold toolReply.
  destruct (JSON_parse env (tc_arguments toolCall)) as [a|e0].
  - split; [intros e H; discriminate|].
    split; [intros args e H He; injection H as <-; now rewrite He|].
    split; [intros args v H Hv; injection H as <-; now rewrite Hv|].
    intros args H Hun. injection H as <-.
    rewrite (execute_unknown env _ a st Hun). split; reflexivity.
  - split; [intros e H; now injection H as <-|].
    repeat split; intros; discriminate.
Qed.

(** ** C3: the finish signal ends the run *)

(** C3 at its failing input. [finish_analysis] is executed in round 1 with
    the argument text [null]: no second request is sent, but the result has
    status [error]. *)
Theorem finish_with_null_arguments_reports_error :
  let run := analyze Demo.threeRounds Demo.finishesWithNull newAnalyzer in
  execLog (tools (snd run)) = [("finish_analysis", JNull)]
  /\ finishCalled (tools (snd run)) = true
  /\ length (requests (snd run)) = 1
  /\ status (fst run) = StatusError
  /\ error (fst run)
     = Some "Cannot read properties of null (reading 'opportunities')".
Proof. vm_compute. repeat split. Qed.

(** X1. In every run, a [finish_analysis] call executed in an exploration
    round ends the run after that round: the request of the round is the last
    request sent (no further round, no forcing round), and the status is
    [complete] unless the arguments retained are [null] (or [undefined],
    which [JSON.parse] never returns). *)
Theorem finish_in_exploration_round_ends_the_run
        (cfg : Config) (env : Env) (i : nat) (toolCall : ToolCall)
        (args : JValue) :
  FinishExecutedIn env (snd (analyze cfg env newAnalyzer)) i toolCall args ->
  length (requests (snd (analyze cfg env newAnalyzer))) = S i
  /\ finishCalled (tools (snd (analyze cfg env newAnalyzer))) = true
  /\ status (fst (analyze cfg env newAnalyzer))
     = match analysisResults (tools (snd (analyze cfg env newAnalyzer))) with
       | JNull | JUndefined => StatusError
       | _ => StatusComplete
       end.
Proof.
  intros Hfin.
  pose proof (analyze_outcome cfg env newAnalyzer) as H. cbv zeta in H.
  assert (Hempty : forall st, requests st = [] ->
            forall j c a, ~ FinishExecutedIn env st j c a).
  { intros st Hreq j c a (req & response & message & Hn & _).
    rewrite Hreq in Hn. destruct j; discriminate Hn. }
  destruct (buildSystemPrompt env) as [sp|e].
  - destruct (buildUserPrompt env) as [up|e].
    + destruct H as [Hst H]. rewrite Hst in Hfin |- *.
      destruct (explorationLoop_finish cfg env
                  (set_history [SystemMsg sp; UserMsg up] newAnalyzer)
                  (Hempty (set_history [SystemMsg sp; UserMsg up] newAnalyzer)
                          eq_refl)
                  i toolCall args Hfin)
        as (Hlen & Hok & Hflag & _).
      rewrite Hok in H. split; [exact Hlen|]. split; [exact Hflag|].
      destruct (analysisResults (tools _)); try exact H. apply H.
    + destruct H as [Hst _]. rewrite Hst in Hfin.
      exfalso. exact (Hempty newAnalyzer eq_refl _ _ _ Hfin).
  - destruct H as [Hst _]. rewrite Hst in Hfin.
    exfalso. exact (Hempty newAnalyzer eq_refl _ _ _ Hfin).
Qed.

(** A run that finishes in round 2 of 3 with a well-formed payload. *)
Lemma finish_in_exploration_round_witness :
  FinishExecutedIn Demo.finishesInRoundTwo
    (snd (analyze Demo.threeRounds Demo.finishesInRoundTwo newAnalyzer)) 1
    (Demo.finishCall "c1" Demo.okPayloadText) Demo.okPayload
  /\ length (requests
               (snd (analyze Demo.threeRounds Demo.finishesInRoundTwo newAnalyzer)))
     = 2
  /\ status (fst (analyze Demo.threeRounds Demo.finishesInRoundTwo newAnalyzer))
     = StatusComplete.
Proof.
  assert (H : FinishExecutedIn Demo.finishesInRoundTwo
                (snd (analyze Demo.threeRounds Demo.finishesInRoundTwo newAnalyzer))
                1 (Demo.finishCall "c1" Demo.okPayloadText) Demo.okPayload).
  { eexists. eexists. eexists. split; [reflexivity|].
    split; [reflexivity|]. split; [reflexivity|]. split; [reflexivity|].
    split; [left; reflexivity|]. split; reflexivity. }
  split; [exact H|].
  destruct (finish_in_exploration_round_ends_the_run
              Demo.threeRounds Demo.finishesInRoundTwo 1 _ _ H)
    as (Hlen & _ & Hstatus).
  split; [exact Hlen | exact Hstatus].
Defined.

(** [finish_analysis] in round 2 of 3 with an empty, well-formed payload: two
    requests, [rounds = 2], status [complete]. *)
Example finish_in_round_two :
  let run := analyze Demo.threeRounds Demo.finishesInRoundTwo newAnalyzer in
  length (requests (snd run)) = 2
  /\ rounds (res_usage (fst run)) = 2
  /\ status (fst run) = StatusComplete
  /\ results (fst run) = mkPayload (JArr []) (JArr []) (JStr "ok").
Proof. vm_compute. repeat split. Qed.

(** ** C4: the round counter is bounded *)

(** C4. For every configuration and every behaviour of the model and the
    collaborators, the [rounds] field of the usage that [analyze] returns is
    at most [maxRounds + 1]. *)
Theorem rounds_at_most_maxRounds_plus_one (cfg : Config) (env : Env) :
  rounds (res_usage (fst (analyze cfg env newAnalyzer))) <= maxRounds cfg + 1.
Proof.
  rewrite analyze_usage.
  apply (analyze_state_ind cfg env
           (fun s => rounds (usage s) <= maxRounds cfg + 1)).
  - simpl. lia.
  - intros sp up.
    pose proof (explorationLoop_rounds cfg env
                  (set_history [SystemMsg sp; UserMsg up] newAnalyzer)) as H.
    simpl in H. specialize (H (Nat.le_0_l _)). lia.
Qed.

(** ** C5: when the forcing round is entered *)

(** C5, as stated, fails in three ways. With a configured ratio of 1/2 the
    threshold of a budget of 1000 is passed at 600 tokens, yet round 2 is an
    ordinary round. Ten tokens are far below any threshold, yet the forcing
    round follows when [maxRounds] is 1. And 900 tokens pass the threshold,
    yet no forcing round follows a round that called [finish_analysis]. *)
Lemma forcing_is_not_exactly_the_configured_threshold :
  (spec_isOverThreshold 600 1000 (1 # 2) = true
   /\ map totalTokens
          (usageTrace (snd (analyze Demo.threeRounds Demo.sixHundred newAnalyzer)))
      = [600; 610; 620]%N
   /\ map req_tool_choice
          (requests (snd (analyze Demo.threeRounds Demo.sixHundred newAnalyzer)))
      = [ToolChoiceAuto; ToolChoiceAuto; ToolChoiceAuto;
         ToolChoiceFunction "finish_analysis"])
  /\ (spec_isOverThreshold 10 1000 (8 # 10) = false
      /\ totalTokens (res_usage (fst (analyze Demo.oneRound Demo.silent newAnalyzer)))
         = 10%N
      /\ map req_tool_choice
             (requests (snd (analyze Demo.oneRound Demo.silent newAnalyzer)))
         = [ToolChoiceAuto; ToolChoiceFunction "finish_analysis"])
  /\ (spec_isOverThreshold 900 1000 (8 # 10) = true
      /\ totalTokens
           (res_usage
              (fst (analyze Demo.threeRounds Demo.nineHundredAndDone newAnalyzer)))
         = 900%N
      /\ map req_tool_choice
             (requests
                (snd (analyze Demo.threeRounds Demo.nineHundredAndDone newAnalyzer)))
         = [ToolChoiceAuto]).
Proof. vm_compute. repeat split. Qed.

(** C5, as the code has it. The loop enters the forcing round exactly when
    [ForcingAfter] holds: after a round that ran to its end without
    [finish_analysis], when [totalTokens] exceeds 0.8 of [tokenBudget] (the
    ratio is the constant 0.8), or when no iteration is left. The forcing
    request is then the last request sent and pins the tool choice to
    [finish_analysis]; every other request leaves the choice to the model. *)
Theorem forcing_round_entered_iff
        (cfg : Config) (env : Env) (fuel round : nat) (st : State) :
  let st' := snd (explorationLoop_from cfg env fuel round st) in
  exists reqs,
    Forall (fun r => req_tool_choice r = ToolChoiceAuto) reqs
    /\ ((ForcingAfter cfg env fuel round st
         /\ exists forced,
              requests st' = requests st ++ reqs ++ [forced]
              /\ req_tool_choice forced = ToolChoiceFunction "finish_analysis")
        \/ (~ ForcingAfter cfg env fuel round st
            /\ requests st' = requests st ++ reqs)).
Proof.
  destruct (explorationLoop_from_requests cfg env fuel round st)
    as (reqs & Hauto & Hcase).
  exists reqs. split; [exact Hauto|].
  destruct Hcase as [[HF [st1 Heq]]|[HnF Heq]].
  - left. split; [exact HF|].
    exists (forcingRequest cfg env st1). split; [exact Heq | reflexivity].
  - right. split; assumption.
Qed.

(** The threshold of a budget of 1000 is crossed above 800, not at 800: a
    total of 800 after round 1 lets round 2 run, a total of 801 after round 2
    makes the next request the forcing one. *)
Example threshold_of_budget_1000 :
  map totalTokens
      (usageTrace (snd (analyze Demo.threeRounds Demo.eightHundred newAnalyzer)))
  = [800; 801]%N
  /\ map req_tool_choice
         (requests (snd (analyze Demo.threeRounds Demo.eightHundred newAnalyzer)))
     = [ToolChoiceAuto; ToolChoiceAuto; ToolChoiceFunction "finish_analysis"].
Proof. vm_compute. split; reflexivity. Qed.

(** ** C6: several finish calls in one batch *)

(** C6 at its failing input. The forced answer carries two
    [finish_analysis] calls: they are executed in order and the second
    payload is the one returned, but the history ends with the forcing
    instruction and holds no tool-result message for either call. *)
Theorem forced_batch_gets_no_tool_results :
  let run := analyze Demo.oneRound Demo.forcedTwice newAnalyzer in
  execLog (tools (snd run))
  = [("finish_analysis", JObj []); ("finish_analysis", Demo.okPayload)]
  /\ analysisResults (tools (snd run)) = Demo.okPayload
  /\ status (fst run) = StatusComplete
  /\ history (snd run)
     = [SystemMsg "system prompt"; UserMsg "user prompt";
        AssistantMsg (mkAssistant (Some "thinking") None);
        UserMsg forceInstruction].
Proof. vm_compute. repeat split. Qed.

(** X3. In an exploration round a batch of tool calls is processed in the
    order of the response and never throws: the calls that reach [execute]
    are logged in batch order, every call gets one tool-result message with
    its own id, in batch order, and the payload the registry retains is the
    one of the last [finish_analysis] call that reached [execute]. *)
Theorem exploration_batch_last_finish_wins
        (env : Env) (pre post : list ToolCall) (toolCall : ToolCall)
        (args : JValue) (st : State) :
  finishes env toolCall args ->
  (forall c a, In c post -> ~ finishes env c a) ->
  let batch := pre ++ toolCall :: post in
  let out := forEach batch (runToolCall env) st in
  fst out = Ok tt
  /\ finishCalled (tools (snd out)) = true
  /\ analysisResults (tools (snd out)) = args
  /\ execLog (tools (snd out)) = execLog (tools st) ++ executedCalls env batch
  /\ exists acks,
       history (snd out) = history st ++ acks
       /\ Forall2 (fun c m => exists content, m = ToolMsg (tc_id c) content)
                  batch acks.
Proof.
  intros Hfin Hlast batch out. subst out.
  rewrite forEach_runToolCall_spec. simpl.
  destruct (fold_toolsAfterCall_last env pre post toolCall args (tools st)
              Hfin Hlast) as [Hflag Hargs].
  split; [reflexivity|]. split; [exact Hflag|]. split; [exact Hargs|].
  split; [apply fold_toolsAfterCall_execLog|].
  eexists. split; [reflexivity | apply replies_acknowledge].
Qed.

(** Two well-formed [finish_analysis] calls followed by an ill-formed one. *)
Lemma exploration_batch_last_finish_wins_witness :
  let batch := [Demo.finishCall "a" "{}";
                Demo.finishCall "b" Demo.okPayloadText;
                Demo.finishCall "c" "{bad"] in
  let out := forEach batch (runToolCall (Demo.script [])) newAnalyzer in
  fst out = Ok tt
  /\ finishCalled (tools (snd out)) = true
  /\ analysisResults (tools (snd out)) = Demo.okPayload
  /\ execLog (tools (snd out))
     = execLog (tools newAnalyzer) ++ executedCalls (Demo.script []) batch
  /\ exists acks,
       history (snd out) = history newAnalyzer ++ acks
       /\ Forall2 (fun c m => exists content, m = ToolMsg (tc_id c) content)
                  batch acks.
Proof.
  apply (exploration_batch_last_finish_wins
           (Demo.script []) [Demo.finishCall "a" "{}"]
           [Demo.finishCall "c" "{bad"]
           (Demo.finishCall "b" Demo.okPayloadText) Demo.okPayload newAnalyzer).
  - split; reflexivity.
  - intros c a [<-|[]] [_ Hparse]. discriminate Hparse.
Defined.

(** ** C7: the finish call is acknowledged *)

(** C7 at its failing input. [finish_analysis] is executed in the forcing
    round and the run is [complete], but no tool-role message is in the
    history when the run ends; in an exploration round the call is
    acknowledged. *)
Theorem forced_finish_is_not_acknowledged :
  let forced := analyze Demo.oneRound Demo.forcedOnce newAnalyzer in
  let explored :=
    analyze Demo.threeRounds Demo.nineHundredAndDone newAnalyzer in
  execLog (tools (snd forced)) = [("finish_analysis", Demo.okPayload)]
  /\ status (fst forced) = StatusComplete
  /\ history (snd forced)
     = [SystemMsg "system prompt"; UserMsg "user prompt";
        AssistantMsg (mkAssistant (Some "thinking") None);
        UserMsg forceInstruction]
  /\ last (history (snd explored)) (SystemMsg "") = ToolMsg "c1" Demo.ackText.
Proof. vm_compute. repeat split. Qed.

(** X2. In every run, a [finish_analysis] call executed in an exploration
    round is acknowledged: when [analyze] returns, the history holds the
    tool-role message with the id of the call and the content
    [JSON.stringify({status: 'Analysis complete'})]. *)
Theorem finish_in_exploration_round_is_acknowledged
        (cfg : Config) (env : Env) (i : nat) (toolCall : ToolCall)
        (args : JValue) :
  FinishExecutedIn env (snd (analyze cfg env newAnalyzer)) i toolCall args ->
  In (ToolMsg (tc_id toolCall) (JSON_stringify env finishAck))
     (history (snd (analyze cfg env newAnalyzer))).
Proof.
  intros Hfin.
  pose proof (analyze_outcome cfg env newAnalyzer) as H. cbv zeta in H.
  assert (Hempty : forall st, requests st = [] ->
            forall j c a, ~ FinishExecutedIn env st j c a).
  { intros st Hreq j c a (req & response & message & Hn & _).
    rewrite Hreq in Hn. destruct j; discriminate Hn. }
  destruct (buildSystemPrompt env) as [sp|e].
  - destruct (buildUserPrompt env) as [up|e].
    + destruct H as [Hst _]. rewrite Hst in Hfin |- *.
      apply (explorationLoop_finish cfg env
               (set_history [SystemMsg sp; UserMsg up] newAnalyzer)
               (Hempty (set_history [SystemMsg sp; UserMsg up] newAnalyzer)
                       eq_refl)
               i toolCall args Hfin).
    + destruct H as [Hst _]. rewrite Hst in Hfin.
      exfalso. exact (Hempty newAnalyzer eq_refl _ _ _ Hfin).
  - destruct H as [Hst _]. rewrite Hst in Hfin.
    exfalso. exact (Hempty newAnalyzer eq_refl _ _ _ Hfin).
Qed.

(** A run that finishes in round 1 with 900 tokens. *)
Lemma finish_in_exploration_round_acknowledged_witness :
  FinishExecutedIn Demo.nineHundredAndDone
    (snd (analyze Demo.threeRounds Demo.nineHundredAndDone newAnalyzer)) 0
    (Demo.finishCall "c1" Demo.okPayloadText) Demo.okPayload
  /\ In (ToolMsg "c1" Demo.ackText)
        (history (snd (analyze Demo.threeRounds Demo.nineHundredAndDone
                               newAnalyzer))).
Proof.
  assert (H : FinishExecutedIn Demo.nineHundredAndDone
                (snd (analyze Demo.threeRounds Demo.nineHundredAndDone newAnalyzer))
                0 (Demo.finishCall "c1" Demo.okPayloadText) Demo.okPayload).
  { eexists. eexists. eexists. split; [reflexivity|].
    split; [reflexivity|]. split; [reflexivity|]. split; [reflexivity|].
    split; [left; reflexivity|]. split; reflexivity. }
  split; [exact H|].
  exact (finish_in_exploration_round_is_acknowledged
           Demo.threeRounds Demo.nineHundredAndDone 0 _ _ H).
Defined.

(** ** C8: a failing tool call does not end the round *)

(** C8 at its failing input. The forced answer carries a call with
    ill-formed arguments followed by a well-formed [finish_analysis]: the
    parse error leaves [forceCompletion], the second call is never executed,
    no tool-result message is appended and the run ends with status [error].
    The same batch in an exploration round is absorbed: both calls get their
    message, the second is executed and the run is [complete]. *)
Theorem forced_tool_failure_ends_the_run :
  let forced := analyze Demo.oneRound Demo.forcedMalformed newAnalyzer in
  let explored := analyze Demo.oneRound Demo.exploringMalformed newAnalyzer in
  status (fst forced) = StatusError
  /\ error (fst forced) = Some "Unexpected token b in JSON at position 1"
  /\ execLog (tools (snd forced)) = []
  /\ history (snd forced)
     = [SystemMsg "system prompt"; UserMsg "user prompt";
        AssistantMsg (mkAssistant (Some "thinking") None);
        UserMsg forceInstruction]
  /\ status (fst explored) = StatusComplete
  /\ map fst (execLog (tools (snd explored))) = ["finish_analysis"]
  /\ history (snd explored)
     = [SystemMsg "system prompt"; UserMsg "user prompt";
        AssistantMsg (mkAssistant None (Some Demo.malformedBatch));
        ToolMsg "f1" "Error: Unexpected token b in JSON at position 1";
        ToolMsg "f2" Demo.ackText].
Proof. vm_compute. repeat split. Qed.

(** X4. A tool failure never ends an exploration round: whenever the model
    answers the request of the round with a message, the round returns
    normally whatever its tool calls do, every call of the batch has its
    tool-result message, every call whose arguments parse has reached
    [execute], and the loop goes on to its finish and budget checks. *)
Theorem exploration_round_absorbs_tool_failures
        (cfg : Config) (env : Env) (fuel round : nat) (st : State)
        (response : Response) (message : AssistantMessage) :
  chat_create env (length (requests st)) (explorationRequest cfg env st)
  = Ok response ->
  resp_message response = Some message ->
  let out := exploreRound cfg env round st in
  fst out = Ok tt
  /\ execLog (tools (snd out))
     = execLog (tools st) ++ executedCalls env (callsOf message)
  /\ (exists acks,
        history (snd out) = history st ++ AssistantMsg message :: acks
        /\ Forall2 (fun c m => exists content, m = ToolMsg (tc_id c) content)
                   (callsOf message) acks)
  /\ explorationLoop_from cfg env (S fuel) round st
     = if finishCalled (tools (snd out)) then (Ok tt, snd out)
       else if overBudget cfg (usage (snd out))
            then forceCompletion cfg env (snd out)
            else explorationLoop_from cfg env fuel (S round) (snd out).
Proof.
  intros Hresp Hmsg out. subst out.
  pose proof (exploreRound_cases cfg env round st) as H. cbv zeta in H.
  rewrite Hresp, Hmsg in H.
  destruct H as (_ & Hok & Htools & acks & Hhist & Hacks & _).
  split; [exact Hok|]. split.
  - rewrite Htools. apply fold_toolsAfterCall_execLog.
  - split; [exists acks; now split|].
    rewrite explorationLoop_from_S.
    destruct (exploreRound cfg env round st) as [[[]|e] st1];
      [reflexivity | discriminate Hok].
Qed.

(** Round 1 answered with an ill-formed call and a well-formed one. *)
Lemma exploration_round_absorbs_tool_failures_witness :
  let out := exploreRound Demo.oneRound Demo.exploringMalformed 0 newAnalyzer in
  fst out = Ok tt
  /\ execLog (tools (snd out)) = [("finish_analysis", Demo.okPayload)]
  /\ history (snd out)
     = [AssistantMsg (mkAssistant None (Some Demo.malformedBatch));
        ToolMsg "f1" "Error: Unexpected token b in JSON at position 1";
        ToolMsg "f2" Demo.ackText].
Proof.
  destruct (exploration_round_absorbs_tool_failures
              Demo.oneRound Demo.exploringMalformed 0 0 newAnalyzer
              (Demo.calls 10 Demo.malformedBatch)
              (mkAssistant None (Some Demo.malformedBatch))
              eq_refl eq_refl) as (Hok & Hlog & _).
  split; [exact Hok|]. split; [exact Hlog | reflexivity].
Defined.

(** ** C9: the usage only accumulates *)

(** C9. In every run, the usage recorded after the token accounting of round
    [i + 1] (entry [i] of the log) has [rounds = i + 1], and for rounds
    [i <= j] each of [totalTokens], [promptTokens], [completionTokens] and
    [estimatedCost] at round [j] is at least its value at round [i]; the usage
    that is returned is at least every recorded one. *)
Theorem usage_accumulates_across_rounds
        (cfg : Config) (env : Env) (i j : nat) (ui uj : UsageMetrics) :
  i <= j ->
  nth_error (usageTrace (snd (analyze cfg env newAnalyzer))) i = Some ui ->
  nth_error (usageTrace (snd (analyze cfg env newAnalyzer))) j = Some uj ->
  usage_le ui uj
  /\ rounds ui = i + 1 /\ rounds uj = j + 1
  /\ usage_le uj (res_usage (fst (analyze cfg env newAnalyzer))).
Proof.
  intros Hij Hi Hj. rewrite analyze_usage.
  assert (Ht : Traced (usageTrace (snd (analyze cfg env newAnalyzer)))
                      (usage (snd (analyze cfg env newAnalyzer)))).
  { apply (analyze_state_ind cfg env
             (fun s => Traced (usageTrace s) (usage s))).
    - split; intros k; destruct k; discriminate.
    - intros sp up. apply explorationLoop_traced; [reflexivity|].
      unfold costAccurate. simpl. reflexivity. }
  destruct Ht as [H1 H2].
  destruct (H1 i ui Hi) as [Hri _]. destruct (H1 j uj Hj) as [Hrj Hle].
  repeat split; try lia; try apply (H2 i j ui uj Hij Hi Hj); apply Hle.
Qed.

(** The usage of rounds 1 and 2 of a run that finishes in round 2. *)
Lemma usage_accumulates_witness :
  usage_le (Demo.usageOfRound 0) (Demo.usageOfRound 1)
  /\ rounds (Demo.usageOfRound 0) = 0 + 1
  /\ rounds (Demo.usageOfRound 1) = 1 + 1
  /\ usage_le (Demo.usageOfRound 1)
       (res_usage (fst (analyze Demo.threeRounds Demo.finishesInRoundTwo
                                newAnalyzer))).
Proof.
  apply (usage_accumulates_across_rounds
           Demo.threeRounds Demo.finishesInRoundTwo 0 1).
  - lia.
  - reflexivity.
  - reflexivity.
Defined.

(** ** C10: the forcing round is not counted *)

(** C10. The forcing round leaves every field of the usage as it found it:
    whatever the model answers to the forced request, and whether or not the
    tool calls of the answer throw, neither the token counts nor the cost nor
    the round counter change. *)
Theorem forcing_round_leaves_usage (cfg : Config) (env : Env) (st : State) :
  usage (snd (forceCompletion cfg env st)) = usage st.
Proof.
  destruct (forceCompletion_frame cfg env st) as [t ->]. reflexivity.
Qed.

(** X5. In every run the [totalTokens] of the usage that [analyze] returns is
    the sum of the totals the model reported in its answers to the exploration
    requests; what it reports in its answer to the forcing request is not
    counted. *)
Theorem returned_usage_counts_exploration_only (cfg : Config) (env : Env) :
  totalTokens (res_usage (fst (analyze cfg env newAnalyzer)))
  = explorationTokens env 0 (requests (snd (analyze cfg env newAnalyzer))).
Proof.
  rewrite analyze_usage.
  apply (analyze_state_ind cfg env
           (fun s => totalTokens (usage s)
                     = explorationTokens env 0 (requests s))).
  - reflexivity.
  - intros sp up. apply explorationLoop_billing. reflexivity.
Qed.

(** * Further properties of the engine *)

(** ** The tools offered and the tools executed *)



(** ** The conversation sent to the model *)

Lemma conversation_app (a b : list Message) :
  Conversation a -> Conversation b -> Conversation (a ++ b).
Proof.
  intros Ha Hb. induction Ha as [|c rest _ IH|c rest _ IH|m acks rest Hacks _ IH].
  - exact Hb.
  - simpl. now constructor.
  - simpl. now constructor.
  - simpl. rewrite <- app_assoc. now constructor.
Qed.

Section ConversationFacts.

Variable cfg : Config.
Variable env : Env.

(** Logging a request whose messages extend the history, and moving on to
    that history, keeps the log. *)
Lemma LogKept_step (sp up : string) (st st' : State) (r : Request)
      (sent more : list Message) :
  LogKept cfg env sp up st ->
  req_messages r = history st ++ sent ->
  req_model r = model cfg -> req_tools r = getDefinitions env ->
  Conversation sent -> Conversation more ->
  requests st' = requests st ++ [r] ->
  history st' = history st ++ sent ++ more ->
  LogKept cfg env sp up st'.
Proof.
  intros (Hconv & (rest0 & Hseed) & Hreqs & Hchain) Hmsg Hmodel Htools
         Hsent Hmore Hlog Hhist.
  split; [rewrite Hhist; repeat apply conversation_app; assumption|].
  split; [rewrite Hhist, Hseed; simpl; eexists; reflexivity|].
  split.
  - intros q Hq. rewrite Hlog in Hq. apply in_app_or in Hq.
    destruct Hq as [Hq|[<-|[]]].
    + destruct (Hreqs q Hq) as (Hc & (m & Hm) & Hs & Hmo & Hto).
      split; [exact Hc|]. split; [|now repeat split].
      exists (m ++ sent ++ more). rewrite Hhist, Hm, <- app_assoc. reflexivity.
    + split; [rewrite Hmsg; now apply conversation_app|].
      split; [exists more; rewrite Hhist, Hmsg, <- app_assoc; reflexivity|].
      split; [rewrite Hmsg, Hseed; simpl; eexists; reflexivity|].
      now split.
  - intros i j ri rj Hij Hi Hj. rewrite Hlog in Hi, Hj.
    destruct (nth_error_snoc _ _ _ _ Hj) as [[Hjl Hj']|[-> ->]].
    + assert (Hi' : nth_error (requests st) i = Some ri).
      { rewrite nth_error_app1 in Hi by lia. exact Hi. }
      exact (Hchain i j ri rj Hij Hi' Hj').
    + destruct (nth_error_snoc _ _ _ _ Hi) as [[_ Hi']|[_ ->]].
      * apply nth_error_In in Hi'.
        destruct (Hreqs ri Hi') as (_ & (m & Hm) & _).
        exists (m ++ sent). rewrite Hmsg, Hm, <- app_assoc. reflexivity.
      * exists []. now rewrite app_nil_r.
Qed.

(** The history one exploration round leaves: unchanged when the model call
    fails or carries no message, else extended by the assistant message and
    one tool-result message per tool call. *)
Lemma exploreRound_history (round : nat) (st : State) :
  exists more,
    history (snd (exploreRound cfg env round st)) = history st ++ more
    /\ Conversation more.
Proof.
  pose proof (exploreRound_cases cfg env round st) as H. cbv zeta in H.
  destruct H as [_ H]. rewrite exploreRound_eq in *. cbv zeta in *.
  destruct (chat_create env (length (requests st)) _) as [response|e].
  - destruct (resp_message response) as [message|].
    + destruct H as (_ & _ & acks & Hhist & Hacks & _).
      exists (AssistantMsg message :: acks). split; [exact Hhist|].
      rewrite <- (app_nil_r acks). constructor; [exact Hacks | constructor].
    + exists []. simpl. rewrite app_nil_r. split; [reflexivity | constructor].
  - exists []. simpl. rewrite app_nil_r. split; [reflexivity | constructor].
Qed.

Lemma explorationLoop_log (sp up : string) (st : State) :
  LogKept cfg env sp up st -> LogKept cfg env sp up (snd (explorationLoop cfg env st)).
Proof.
  intros H0. unfold explorationLoop.
  assert (Hforce : forall s, LogKept cfg env sp up s ->
                     LogKept cfg env sp up (snd (forceCompletion cfg env s))).
  { intros s Hs. destruct (forceCompletion_frame cfg env s) as [t Ht].
    apply (LogKept_step sp up s _ (forcingRequest cfg env s)
             [UserMsg forceInstruction] []); try reflexivity; try exact Hs.
    - repeat constructor.
    - constructor.
    - now rewrite Ht.
    - rewrite Ht. reflexivity. }
  apply (explorationLoop_from_ind cfg env
           (fun _ _ s => LogKept cfg env sp up s) (fun _ s => LogKept cfg env sp up s)).
  - intros _ s Hs. now apply Hforce.
  - intros fuel round s Hs.
    assert (Hround : LogKept cfg env sp up (snd (exploreRound cfg env round s))).
    { destruct (exploreRound_frame cfg env round s) as (Hreq & _ & _).
      destruct (exploreRound_history round s) as (more & Hhist & Hmore).
      apply (LogKept_step sp up s _ (explorationRequest cfg env s) [] more);
        try reflexivity; try assumption.
      - simpl. now rewrite app_nil_r.
      - constructor. }
    destruct (exploreRound cfg env round s) as [[[]|e] s1]; simpl in Hround;
      [|exact Hround].
    destruct (finishCalled (tools s1)); [exact Hround|].
    destruct (overBudget cfg (usage s1)); [now apply Hforce | exact Hround].
  - exact H0.
Qed.

(** The log [analyze] leaves, started on a fresh analyzer. *)
Lemma analyze_log :
  requests (snd (analyze cfg env newAnalyzer)) = []
  \/ exists sp up,
       buildSystemPrompt env = Ok sp /\ buildUserPrompt env = Ok up
       /\ LogKept cfg env sp up (snd (analyze cfg env newAnalyzer)).
Proof.
  pose proof (analyze_outcome cfg env newAnalyzer) as H. cbv zeta in H.
  destruct (buildSystemPrompt env) as [sp|e].
  - destruct (buildUserPrompt env) as [up|e].
    + right. exists sp, up. split; [reflexivity|]. split; [reflexivity|].
      destruct H as [-> _]. apply explorationLoop_log.
      split; [repeat constructor|]. split; [exists []; reflexivity|].
      split; [intros r []|]. intros i j ri rj _ Hi. destruct i; discriminate Hi.
    + left. destruct H as [-> _]. reflexivity.
  - left. destruct H as [-> _]. reflexivity.
Qed.

End ConversationFacts.

(** X7. In every run the requests only extend the conversation: the messages
    of a later request begin with the messages of every earlier one, every
    request begins with the system prompt and the user prompt that were built,
    and every request names the configured model and offers the same tools. *)
Theorem requests_extend_the_conversation
        (cfg : Config) (env : Env) (i j : nat) (ri rj : Request) :
  i <= j ->
  nth_error (requests (snd (analyze cfg env newAnalyzer))) i = Some ri ->
  nth_error (requests (snd (analyze cfg env newAnalyzer))) j = Some rj ->
  (exists more, req_messages rj = req_messages ri ++ more)
  /\ (exists systemPrompt userPrompt rest,
        buildSystemPrompt env = Ok systemPrompt
        /\ buildUserPrompt env = Ok userPrompt
        /\ req_messages ri
           = SystemMsg systemPrompt :: UserMsg userPrompt :: rest)
  /\ req_model ri = model cfg
  /\ req_tools ri = getDefinitions env.
Proof.
  intros Hij Hi Hj.
  destruct (analyze_log cfg env) as [Hnil|(sp & up & Hsp & Hup & Hkept)].
  - rewrite Hnil in Hi. destruct i; discriminate Hi.
  - destruct Hkept as (_ & _ & Hreqs & Hchain).
    split; [exact (Hchain i j ri rj Hij Hi Hj)|].
    destruct (Hreqs ri (nth_error_In _ _ Hi)) as (_ & _ & (rest & Hr) & Hm & Ht).
    split; [exists sp, up, rest; now repeat split|]. now split.
Qed.

(** The two requests of a run that finishes in round 2. *)
Lemma requests_extend_the_conversation_witness :
  exists more,
    req_messages
      (nth 1 (requests (snd (analyze Demo.threeRounds Demo.finishesInRoundTwo
                                     newAnalyzer)))
           (mkRequest "" [] [] ToolChoiceAuto))
    = [SystemMsg "system prompt"; UserMsg "user prompt"] ++ more.
Proof.
  destruct (requests_extend_the_conversation
              Demo.threeRounds Demo.finishesInRoundTwo 0 1
              (mkRequest "gpt-4-turbo"
                         [SystemMsg "system prompt"; UserMsg "user prompt"]
                         (getDefinitions Demo.finishesInRoundTwo) ToolChoiceAuto)
              (nth 1 (requests (snd (analyze Demo.threeRounds
                                             Demo.finishesInRoundTwo newAnalyzer)))
                   (mkRequest "" [] [] ToolChoiceAuto))
              (Nat.le_succ_diag_r 0) eq_refl eq_refl) as [H _].
  exact H.
Defined.

(** X8. In every run each request carries a well-formed conversation: every
    assistant message in it is followed at once by exactly one tool-result
    message per tool call of that message, in call order and with the ids of
    the calls, and no tool-result message stands anywhere else. The history
    the run ends with is well-formed too. *)
Theorem requests_are_well_formed_conversations (cfg : Config) (env : Env) :
  Conversation (history (snd (analyze cfg env newAnalyzer)))
  /\ Forall (fun r => Conversation (req_messages r))
            (requests (snd (analyze cfg env newAnalyzer))).
Proof.
  destruct (analyze_log cfg env) as [Hnil|(sp & up & _ & _ & Hkept)].
  - rewrite Hnil. split; [|constructor].
    apply (analyze_state_ind cfg env (fun s => Conversation (history s))).
    + constructor.
    + intros sp up.
      apply (explorationLoop_log cfg env sp up).
      split; [repeat constructor|]. split; [exists []; reflexivity|].
      split; [intros r []|]. intros i j ri rj _ Hi. destruct i; discriminate Hi.
  - destruct Hkept as (Hconv & _ & Hreqs & _).
    split; [exact Hconv|]. apply Forall_forall. intros r Hr.
    apply (Hreqs r Hr).
Qed.

(** ** Failing model calls *)

Section FailureFacts.

Variable cfg : Config.
Variable env : Env.

Lemma explorationLoop_failure (st : State) :
  (forall i req msg, nth_error (requests st) i = Some req ->
     ~ ModelCallFails env i req msg) ->
  forall i req msg,
    nth_error (requests (snd (explorationLoop cfg env st))) i = Some req ->
    ModelCallFails env i req msg ->
    fst (explorationLoop cfg env st) = Throw msg
    /\ length (requests (snd (explorationLoop cfg env st))) = S i.
Proof.
  intros H0. unfold explorationLoop.
  assert (Hforce : forall s,
            (forall i req msg, nth_error (requests s) i = Some req ->
               ~ ModelCallFails env i req msg) ->
            forall i req msg,
              nth_error (requests (snd (forceCompletion cfg env s))) i = Some req ->
              ModelCallFails env i req msg ->
              fst (forceCompletion cfg env s) = Throw msg
              /\ length (requests (snd (forceCompletion cfg env s))) = S i).
  { intros s Hs i req msg Hnth Hfail.
    destruct (forceCompletion_cases cfg env s) as (Hreq & _ & _).
    rewrite Hreq in Hnth |- *.
    destruct (nth_error_snoc _ _ _ _ Hnth) as [[_ Hold]|[-> ->]].
    - exfalso. exact (Hs i req msg Hold Hfail).
    - split; [|rewrite length_app; simpl; lia].
      destruct Hfail as [Hthrow|(Hf & _)]; [|discriminate Hf].
      rewrite forceCompletion_eq. cbv zeta. rewrite Hthrow. reflexivity. }
  apply (explorationLoop_from_ind cfg env
           (fun _ _ s => forall i req msg, nth_error (requests s) i = Some req ->
                           ~ ModelCallFails env i req msg)
           (fun r s => forall i req msg,
                         nth_error (requests s) i = Some req ->
                         ModelCallFails env i req msg ->
                         r = Throw msg /\ length (requests s) = S i)).
  - intros _ s Hs. now apply Hforce.
  - intros fuel round s Hs.
    pose proof (exploreRound_cases cfg env round s) as Hcases.
    cbv zeta in Hcases.
    destruct (exploreRound cfg env round s) as [r s1].
    simpl in Hcases. destruct Hcases as [Hreq Hcases].
    assert (Hnew : forall i req msg,
              nth_error (requests s1) i = Some req ->
              ModelCallFails env i req msg ->
              r = Throw msg /\ length (requests s1) = S i).
    { intros i req msg Hnth Hfail. rewrite Hreq in Hnth |- *.
      destruct (nth_error_snoc _ _ _ _ Hnth) as [[_ Hold]|[-> ->]].
      - exfalso. exact (Hs i req msg Hold Hfail).
      - split; [|rewrite length_app; simpl; lia].
        destruct Hfail as [Hthrow|(_ & -> & response & Hc & Hm)].
        + rewrite Hthrow in Hcases. apply Hcases.
        + rewrite Hc, Hm in Hcases. apply Hcases. }
    destruct r as [[]|e]; [|exact Hnew].
    assert (Hs1 : forall i req msg, nth_error (requests s1) i = Some req ->
                    ~ ModelCallFails env i req msg).
    { intros i req msg Hnth Hfail.
      destruct (Hnew i req msg Hnth Hfail) as [Hr _]. discriminate Hr. }
    destruct (finishCalled (tools s1)); [exact Hnew|].
    destruct (overBudget cfg (usage s1)); [now apply Hforce | exact Hs1].
  - exact H0.
Qed.

End FailureFacts.

(** X9. A failing model call ends the run and is not retried: when the
    transport throws on a request, or an exploration request is answered
    without a message, that request is the last one sent and [analyze] returns
    status [error] with the text of the failure ([No message in response] in
    the second case) and the payload of the error branch. *)
Theorem failing_model_call_ends_the_run
        (cfg : Config) (env : Env) (i : nat) (req : Request) (msg : string) :
  nth_error (requests (snd (analyze cfg env newAnalyzer))) i = Some req ->
  ModelCallFails env i req msg ->
  length (requests (snd (analyze cfg env newAnalyzer))) = S i
  /\ status (fst (analyze cfg env newAnalyzer)) = StatusError
  /\ error (fst (analyze cfg env newAnalyzer)) = Some msg
  /\ results (fst (analyze cfg env newAnalyzer)) = failedPayload.
Proof.
  intros Hnth Hfail.
  pose proof (analyze_outcome cfg env newAnalyzer) as H. cbv zeta in H.
  destruct (buildSystemPrompt env) as [sp|e].
  - destruct (buildUserPrompt env) as [up|e].
    + destruct H as [Hst H]. rewrite Hst in Hnth |- *.
      destruct (explorationLoop_failure cfg env
                  (set_history [SystemMsg sp; UserMsg up] newAnalyzer))
        with (i := i) (req := req) (msg := msg) as [Hr Hlen];
        try assumption.
      * intros k q m Hk. destruct k; discriminate Hk.
      * rewrite Hr in H. split; [exact Hlen | exact H].
    + destruct H as [Hst _]. rewrite Hst in Hnth. destruct i; discriminate Hnth.
  - destruct H as [Hst _]. rewrite Hst in Hnth. destruct i; discriminate Hnth.
Qed.

(** One answer of free text and one round allowed: the forcing request, the
    second of the run, finds the transport closed. *)
Lemma failing_model_call_witness :
  length (requests (snd (analyze Demo.oneRound (Demo.script [Demo.says 10 "a"])
                                 newAnalyzer))) = 2
  /\ status (fst (analyze Demo.oneRound (Demo.script [Demo.says 10 "a"])
                          newAnalyzer)) = StatusError
  /\ error (fst (analyze Demo.oneRound (Demo.script [Demo.says 10 "a"])
                         newAnalyzer)) = Some "Connection error."
  /\ results (fst (analyze Demo.oneRound (Demo.script [Demo.says 10 "a"])
                           newAnalyzer)) = failedPayload.
Proof.
  apply (failing_model_call_ends_the_run
           Demo.oneRound (Demo.script [Demo.says 10 "a"]) 1
           (forcingRequest Demo.oneRound (Demo.script [Demo.says 10 "a"])
              (mkState [SystemMsg "system prompt"; UserMsg "user prompt";
                        AssistantMsg (mkAssistant (Some "a") None)]
                       (usage newAnalyzer) (tools newAnalyzer) [] []))
           "Connection error.").
  - reflexivity.
  - left. reflexivity.
Defined.

(** * The helpers and collaborators: properties *)

(** ** Strings *)

Lemma append_assoc (a b c : string) :
  ((a ++ b) ++ c)%string = (a ++ (b ++ c))%string.
Proof. induction a as [|x a IH]; simpl; [reflexivity | now rewrite IH]. Qed.

Lemma append_nil_r (a : string) : (a ++ "")%string = a.
Proof. induction a as [|x a IH]; simpl; [reflexivity | now rewrite IH]. Qed.

Lemma length_append (a b : string) :
  String.length (a ++ b) = String.length a + String.length b.
Proof. induction a as [|x a IH]; simpl; [reflexivity | now rewrite IH]. Qed.

Lemma drop_append (a b : string) : Js.drop (String.length a) (a ++ b) = b.
Proof. induction a as [|x a IH]; simpl; [now destruct b | exact IH]. Qed.

Lemma drop_append_more (a b : string) (n : nat) :
  Js.drop (String.length a + n) (a ++ b) = Js.drop n b.
Proof. induction a as [|x a IH]; simpl; [reflexivity | exact IH]. Qed.

Lemma drop_0 (s : string) : Js.drop 0 s = s.
Proof. now destruct s. Qed.

(** ** TemplateInterpolator *)

Section InterpolatorFacts.

Import Interpolator.

Lemma takeWord_spec (s : string) :
  s = (fst (takeWord s) ++ snd (takeWord s))%string
  /\ Js.allChars isWordChar (fst (takeWord s)) = true.
Proof.
  induction s as [|c rest [IH1 IH2]]; simpl; [now split|].
  destruct (isWordChar c) eqn:Hc; [|now split].
  destruct (takeWord rest) as [word after]; simpl in *.
  split; [now rewrite <- IH1 | now rewrite Hc, IH2].
Qed.

(** A match of the placeholder expression at the start of a string. *)
Lemma matchPlaceholder_Some (s key : string) :
  matchPlaceholder s = Some key ->
  key <> EmptyString
  /\ Js.allChars isWordChar key = true
  /\ exists after, s = ("{" ++ key ++ "}" ++ after)%string.
Proof.
  unfold matchPlaceholder. destruct s as [|c rest]; [discriminate|].
  destruct (Ascii.eqb_spec c "{") as [->|Hne].
  - destruct (takeWord_spec rest) as [Hsplit Hword].
    destruct (takeWord rest) as [word after]; simpl in *.
    destruct word as [|x word]; [discriminate|].
    destruct after as [|y after]; [discriminate|].
    destruct (Ascii.eqb_spec y "}") as [->|Hy].
    + intros H. injection H as <-. split; [discriminate|].
      split; [exact Hword|]. exists after. simpl. rewrite Hsplit. reflexivity.
    + destruct y as [[] [] [] [] [] [] [] []]; try discriminate.
      exfalso. now apply Hy.
  - destruct c as [[] [] [] [] [] [] [] []]; try discriminate.
    exfalso. now apply Hne.
Qed.

(** Putting the segments of a scan back gives the string that was scanned,
    less the characters the scan was told to skip. *)
Lemma scan_skipping_source (s : string) (skip : nat) :
  skip <= String.length s ->
  sourceText (scan_skipping skip s) = Js.drop skip s.
Proof.
  revert skip. induction s as [|c rest IH]; intros skip Hskip.
  - simpl in Hskip. assert (skip = 0) by lia. subst. reflexivity.
  - destruct skip as [|k].
    + cbn [scan_skipping Js.drop].
      destruct (matchPlaceholder (String c rest)) as [key|] eqn:Hm.
      * destruct (matchPlaceholder_Some _ _ Hm) as (_ & _ & after & Hs).
        simpl in Hs. injection Hs as -> ->.
        cbn [sourceText sourceOf]. rewrite IH.
        -- replace (S (String.length key)) with (String.length key + 1) by lia.
           rewrite drop_append_more. simpl. rewrite append_assoc. reflexivity.
        -- rewrite length_append. simpl. lia.
      * cbn [sourceText sourceOf]. rewrite IH by lia. rewrite drop_0.
        reflexivity.
    + cbn [scan_skipping Js.drop]. apply IH. simpl in Hskip. lia.
Qed.

Lemma scan_source (template : string) : sourceText (scan template) = template.
Proof.
  unfold scan. rewrite scan_skipping_source by lia. apply drop_0.
Qed.

(** Lenient substitution never throws. *)
Lemma substitute_lenient (variables : Variables) (segments : list Segment) :
  exists text, substitute variables false segments = Ok text.
Proof.
  induction segments as [|[c|key] rest [text IH]]; simpl.
  - eexists; reflexivity.
  - rewrite IH. eexists; reflexivity.
  - rewrite IH. destruct (hasKey variables key); eexists; reflexivity.
Qed.

End InterpolatorFacts.

Section InterpolatorTheorems.

Import Interpolator.

Lemma substitute_strict (variables : Variables) (segments : list Segment) :
  match filter (fun varName => negb (hasKey variables varName))
               (flat_map (fun seg => match seg with
                                     | Placeholder key => [key]
                                     | Literal _ => []
                                     end) segments) with
  | [] => substitute variables true segments
          = substitute variables false segments
  | missing :: _ =>
      substitute variables true segments
      = Throw ("Missing variable in template: " ++ missing)
  end.
Proof.
  induction segments as [|[c|key] rest IH]; simpl.
  - reflexivity.
  - destruct (filter _ _); now rewrite IH.
  - destruct (hasKey variables key) eqn:Hk; simpl; [|reflexivity].
    destruct (filter _ _); now rewrite IH.
Qed.

Lemma substitute_unknown (variables : Variables) (segments : list Segment) :
  (forall key, In (Placeholder key) segments -> hasKey variables key = false) ->
  substitute variables false segments = Ok (sourceText segments).
Proof.
  induction segments as [|[c|key] rest IH]; intros Hnone; simpl.
  - reflexivity.
  - rewrite IH; [reflexivity|]. intros k Hk. apply Hnone. now right.
  - rewrite (Hnone key (or_introl eq_refl)).
    rewrite IH; [|intros k Hk; apply Hnone; now right].
    now rewrite !append_assoc.
Qed.

Lemma extractVariables_In (template key : string) :
  In key (extractVariables template) <-> In (Placeholder key) (scan template).
Proof.
  unfold extractVariables. rewrite in_flat_map. split.
  - intros ([c|k] & Hin & Hk); simpl in Hk; [contradiction|].
    destruct Hk as [->|[]]. exact Hin.
  - intros Hin. exists (Placeholder key). split; [exact Hin | now left].
Qed.

Lemma sourceText_app (a b : list Segment) :
  sourceText (a ++ b) = (sourceText a ++ sourceText b)%string.
Proof.
  induction a as [|seg a IH]; simpl; [reflexivity|].
  now rewrite IH, append_assoc.
Qed.

Lemma scan_skipping_keys (s : string) (skip : nat) (key : string) :
  In (Placeholder key) (scan_skipping skip s) ->
  key <> EmptyString /\ Js.allChars isWordChar key = true.
Proof.
  revert skip. induction s as [|c rest IH]; intros skip Hin; [contradiction|].
  destruct skip as [|k]; cbn [scan_skipping] in Hin; [|exact (IH _ Hin)].
  destruct (matchPlaceholder (String c rest)) as [found|] eqn:Hm.
  - destruct Hin as [Heq|Hin]; [|exact (IH _ Hin)].
    injection Heq as ->.
    destruct (matchPlaceholder_Some _ _ Hm) as (Hne & Hword & _). now split.
  - destruct Hin as [Heq|Hin]; [discriminate | exact (IH _ Hin)].
Qed.

(** X10. Lenient interpolation never fails. Strict interpolation fails
    exactly when [validateVariables] reports a missing variable, and its
    error names the first variable reported; when nothing is missing, strict
    and lenient interpolation give the same text. *)
Theorem strict_interpolation_agrees_with_validation
        (template : string) (variables : Variables) :
  (exists text, interpolate template variables false = Ok text)
  /\ match validateVariables template variables with
     | [] => interpolate template variables true
             = interpolate template variables false
     | missing :: _ =>
         interpolate template variables true
         = Throw ("Missing variable in template: " ++ missing)
     end.
Proof.
  split; [apply substitute_lenient|].
  unfold validateVariables, extractVariables, interpolate.
  apply substitute_strict.
Qed.

(** X11. Lenient interpolation changes nothing but the placeholders it can
    fill: when no variable of the template is a key of [variables], in
    particular when the template has no placeholder, it returns the template
    as it is. *)
Theorem lenient_interpolation_keeps_unknown_placeholders
        (template : string) (variables : Variables) :
  (forall key, In key (extractVariables template) ->
     hasKey variables key = false) ->
  interpolate template variables false = Ok template.
Proof.
  intros Hnone. unfold interpolate. rewrite substitute_unknown.
  - now rewrite scan_source.
  - intros key Hin. apply Hnone. now apply extractVariables_In.
Qed.

(** A template whose only variable is not among the variables. *)
Lemma lenient_interpolation_witness :
  interpolate "Audit {repo} now"
              (ownOnly [("projectName", "MyApp")]) false
  = Ok "Audit {repo} now".
Proof.
  apply lenient_interpolation_keeps_unknown_placeholders.
  intros key [<-|[]]. reflexivity.
Defined.

(** X12. [extractVariables] reports only what stands in the template: each
    name it returns is a non-empty run of letters, digits and underscores that
    occurs in the template between braces. *)
Theorem extracted_variables_occur_in_the_template
        (template key : string) :
  In key (extractVariables template) ->
  key <> EmptyString
  /\ Js.allChars isWordChar key = true
  /\ exists before after,
       template = (before ++ "{" ++ key ++ "}" ++ after)%string.
Proof.
  intros Hin. apply extractVariables_In in Hin.
  destruct (scan_skipping_keys template 0 key Hin) as [Hne Hword].
  split; [exact Hne|]. split; [exact Hword|].
  apply in_split in Hin. destruct Hin as (l1 & l2 & Hscan).
  exists (sourceText l1), (sourceText l2).
  rewrite <- (scan_source template) at 1. rewrite Hscan, sourceText_app.
  simpl. now rewrite !append_assoc.
Qed.

(** The second variable of a template with two. *)
Lemma extracted_variables_witness :
  "city" <> EmptyString
  /\ Js.allChars isWordChar "city" = true
  /\ exists before after,
       "Hello {name} from {city}"
       = (before ++ "{" ++ "city" ++ "}" ++ after)%string.
Proof.
  apply (extracted_variables_occur_in_the_template
           "Hello {name} from {city}" "city").
  right. left. reflexivity.
Defined.

End InterpolatorTheorems.

(** ** The key of a cached result *)

Section CacheKeyFacts.

Import CacheKey.

Lemma toInt32_eq (z : Z) :
  toInt32 z = (z - 2 ^ 32 * ((z + 2 ^ 31) / 2 ^ 32))%Z.
Proof.
  unfold toInt32. rewrite Z.mod_eq by lia. lia.
Qed.

Lemma toInt32_shift (z k : Z) : toInt32 (z + 2 ^ 32 * k) = toInt32 z.
Proof.
  unfold toInt32.
  replace (z + 2 ^ 32 * k + 2 ^ 31)%Z with (z + 2 ^ 31 + k * 2 ^ 32)%Z by lia.
  rewrite Z_mod_plus_full. reflexivity.
Qed.

Lemma toInt32_range (z : Z) : (- 2 ^ 31 <= toInt32 z < 2 ^ 31)%Z.
Proof.
  unfold toInt32.
  pose proof (Z.mod_pos_bound (z + 2 ^ 31) (2 ^ 32) ltac:(lia)). lia.
Qed.

Lemma toInt32_small (z : Z) :
  (- 2 ^ 31 <= z < 2 ^ 31)%Z -> toInt32 z = z.
Proof.
  intros H. unfold toInt32. rewrite Z.mod_small by lia. lia.
Qed.

Lemma hashStep_eq (hash : Z) (c : ascii) :
  hashStep hash c = toInt32 (31 * hash + Z.of_nat (nat_of_ascii c)).
Proof.
  unfold hashStep. rewrite (toInt32_eq (hash * 32)).
  set (k := ((hash * 32 + 2 ^ 31) / 2 ^ 32)%Z).
  replace (hash * 32 - 2 ^ 32 * k - hash + Z.of_nat (nat_of_ascii c))%Z
    with (31 * hash + Z.of_nat (nat_of_ascii c) + 2 ^ 32 * (- k))%Z by lia.
  apply toInt32_shift.
Qed.

Lemma hashStep_toInt32 (hash : Z) (c : ascii) :
  hashStep (toInt32 hash) c = hashStep hash c.
Proof.
  rewrite !hashStep_eq. rewrite (toInt32_eq hash).
  set (k := ((hash + 2 ^ 31) / 2 ^ 32)%Z).
  replace (31 * (hash - 2 ^ 32 * k) + Z.of_nat (nat_of_ascii c))%Z
    with (31 * hash + Z.of_nat (nat_of_ascii c) + 2 ^ 32 * (- 31 * k))%Z by lia.
  apply toInt32_shift.
Qed.

Lemma hashFrom_polynomial (normalized : string) (hash : Z) :
  hashFrom (toInt32 hash) normalized = toInt32 (polynomial hash normalized).
Proof.
  revert hash. induction normalized as [|c rest IH]; intros hash; simpl.
  - reflexivity.
  - rewrite hashStep_toInt32, hashStep_eq. apply IH.
Qed.

Lemma hashFrom_app (a b : string) (hash : Z) :
  hashFrom hash (a ++ b) = hashFrom (hashFrom hash a) b.
Proof.
  revert hash. induction a as [|c rest IH]; intros hash; simpl.
  - reflexivity.
  - apply IH.
Qed.

Lemma toHex_read (n : N) : HexString.Raw.to_N (toHex n) 0%N = n.
Proof.
  destruct n as [|p]; [reflexivity|].
  unfold toHex. rewrite HexString.Raw.to_N_of_pos. reflexivity.
Qed.

End CacheKeyFacts.

(** X13. The hash is Java's [hashCode]: the polynomial in 31 of the code units,
    wrapped to 32 bits; the key is the hexadecimal text of its absolute
    value, so two parameter texts get the same key exactly when their wrapped
    polynomials agree up to the sign. *)
Theorem cache_keys_agree_iff_hashes_agree_up_to_sign (a b : string) :
  HexString.Raw.to_N (CacheKey.generateCacheKey a) 0%N
  = Z.to_N (Z.abs (CacheKey.toInt32 (CacheKey.polynomial 0 a)))
  /\ (CacheKey.generateCacheKey a = CacheKey.generateCacheKey b
      <-> Z.abs (CacheKey.toInt32 (CacheKey.polynomial 0 a))
          = Z.abs (CacheKey.toInt32 (CacheKey.polynomial 0 b))).
Proof.
  unfold CacheKey.generateCacheKey.
  assert (Hh : forall s, CacheKey.hashFrom 0 s
                         = CacheKey.toInt32 (CacheKey.polynomial 0 s)).
  { intros s. rewrite <- hashFrom_polynomial. reflexivity. }
  rewrite !Hh. split.
  - apply toHex_read.
  - split.
    + intros H. apply (f_equal (fun s => HexString.Raw.to_N s 0%N)) in H.
      rewrite !toHex_read in H. lia.
    + intros H. rewrite H. reflexivity.
Qed.

(** X14. Different parameter texts can get the same key: the two-letter texts
    [Aa] and [BB] are interchangeable anywhere in the text. *)
Theorem cache_keys_collide (before after : string) :
  CacheKey.generateCacheKey (before ++ "Aa" ++ after)
  = CacheKey.generateCacheKey (before ++ "BB" ++ after).
Proof.
  unfold CacheKey.generateCacheKey.
  rewrite !hashFrom_app. do 3 f_equal.
  set (h := CacheKey.hashFrom 0 before). simpl.
  rewrite (hashStep_eq h "A"), (hashStep_eq h "B"), !hashStep_toInt32,
    !hashStep_eq.
  do 2 f_equal.
  change (nat_of_ascii "A") with 65; change (nat_of_ascii "a") with 97;
    change (nat_of_ascii "B") with 66. lia.
Qed.

(** ** Directory names of repositories *)

Section GitFacts.

Import Git.

Lemma allChars_mapChars (test : ascii -> bool) (f : ascii -> ascii) (s : string) :
  (forall c, test (f c) = true) -> Js.allChars test (Js.mapChars f s) = true.
Proof.
  intros H. induction s as [|c rest IH]; simpl; [reflexivity|].
  now rewrite H, IH.
Qed.

Lemma mapChars_fixed (test : ascii -> bool) (f : ascii -> ascii) (s : string) :
  (forall c, test c = true -> f c = c) ->
  Js.allChars test s = true -> Js.mapChars f s = s.
Proof.
  intros H. induction s as [|c rest IH]; simpl; [reflexivity|].
  intros Hs. apply andb_true_iff in Hs as [Hc Hrest].
  now rewrite (H c Hc), (IH Hrest).
Qed.

Lemma lower_underscore_isNameChar (c : ascii) :
  isNameChar (lowerChar (underscoreOthers c)) = true.
Proof.
  destruct c as [[] [] [] [] [] [] [] []]; vm_compute; reflexivity.
Qed.

Lemma isNameChar_fixed (c : ascii) :
  isNameChar c = true ->
  lowerChar c = c /\ underscoreOthers c = c /\ dashSeparators c = c.
Proof.
  destruct c as [[] [] [] [] [] [] [] []]; vm_compute;
    first [ discriminate | intros _; repeat split ].
Qed.

Lemma allChars_drop (test : ascii -> bool) (n : nat) (s : string) :
  Js.allChars test s = true -> Js.allChars test (Js.drop n s) = true.
Proof.
  revert s. induction n as [|n IH]; intros s Hs; [now destruct s|].
  destruct s as [|c rest]; simpl; [reflexivity|].
  simpl in Hs. apply andb_true_iff in Hs as [_ Hrest]. now apply IH.
Qed.

Lemma prefix_allChars (test : ascii -> bool) (p s : string) :
  String.prefix p s = true -> Js.allChars test s = true ->
  Js.allChars test p = true.
Proof.
  revert s. induction p as [|c p IH]; intros s Hp Hs; [reflexivity|].
  destruct s as [|d s]; simpl in Hp; [discriminate|].
  destruct (ascii_dec c d) as [->|]; [|discriminate].
  simpl in Hs |- *. apply andb_true_iff in Hs as [Hd Hs].
  rewrite Hd. simpl. now apply (IH s).
Qed.

Lemma startsWith_name (p s : string) :
  Js.allChars isNameChar p = false -> Js.allChars isNameChar s = true ->
  Js.startsWith p s = false.
Proof.
  intros Hp Hs. unfold Js.startsWith.
  destruct (String.prefix p s) eqn:H; [|reflexivity].
  rewrite (prefix_allChars _ _ _ H Hs) in Hp. discriminate.
Qed.

Lemma endsWith_name (p s : string) :
  Js.allChars isNameChar p = false -> Js.allChars isNameChar s = true ->
  Js.endsWith p s = false.
Proof.
  intros Hp Hs. unfold Js.endsWith.
  destruct (String.length p <=? String.length s); [|reflexivity]. simpl.
  destruct (String.eqb _ p) eqn:H; [|reflexivity].
  apply String.eqb_eq in H.
  pose proof (allChars_drop isNameChar (String.length s - String.length p) s Hs)
    as Hd.
  rewrite H in Hd. rewrite Hd in Hp. discriminate.
Qed.

Lemma name_is_its_own_name (s : string) :
  Js.allChars isNameChar s = true -> urlToDirectoryName s = s.
Proof.
  intros Hs. unfold urlToDirectoryName, normalizeGitUrl, stripProtocol,
    stripPrefix, stripSuffix.
  rewrite (startsWith_name "@" s eq_refl Hs).
  rewrite (startsWith_name "http://" s eq_refl Hs).
  rewrite (startsWith_name "https://" s eq_refl Hs).
  rewrite (startsWith_name "git@" s eq_refl Hs).
  rewrite (endsWith_name ".git" s eq_refl Hs).
  rewrite (mapChars_fixed isNameChar dashSeparators s); [| apply isNameChar_fixed | exact Hs].
  rewrite (mapChars_fixed isNameChar underscoreOthers s); [| apply isNameChar_fixed | exact Hs].
  apply (mapChars_fixed isNameChar); [apply isNameChar_fixed | exact Hs].
Qed.

Lemma mapChars_compose (f g : ascii -> ascii) (s : string) :
  Js.mapChars f (Js.mapChars g s) = Js.mapChars (fun c => f (g c)) s.
Proof.
  induction s as [|c rest IH]; simpl; [reflexivity | now rewrite IH].
Qed.

End GitFacts.

(** X15. The directory name of a repository holds only lower-case letters,
    digits, [-] and [_], whatever the URL; and such a name is its own
    directory name, so the function is idempotent. *)
Theorem directory_names_are_safe_and_stable (url : string) :
  Js.allChars Git.isNameChar (Git.urlToDirectoryName url) = true
  /\ Git.urlToDirectoryName (Git.urlToDirectoryName url)
     = Git.urlToDirectoryName url.
Proof.
  assert (H : Js.allChars Git.isNameChar (Git.urlToDirectoryName url) = true).
  { unfold Git.urlToDirectoryName. rewrite mapChars_compose.
    apply allChars_mapChars. intros c. apply lower_underscore_isNameChar. }
  split; [exact H | apply name_is_its_own_name; exact H].
Qed.

(** X16. For a Git URL and a cache object, enabled or not, [init] works in the
    directory of the cache: it returns that directory, and it issues one
    shallow clone of the normalized URL exactly when the directory does not
    exist. *)
Theorem init_uses_the_cache_directory_whatever_the_flag
        (w : Git.World) (url : string) (cache : Git.Cache) :
  Git.isGitUrl url = true ->
  Git.getRepoPath w cache (Git.urlToDirectoryName url) <> EmptyString ->
  Git.init w url (Some cache)
  = if Git.pathExists w (Git.getRepoPath w cache (Git.urlToDirectoryName url))
    then (Ok (Git.getRepoPath w cache (Git.urlToDirectoryName url)), [])
    else (match Git.gitClone w (Git.normalizeGitUrl url)
                  (Git.getRepoPath w cache (Git.urlToDirectoryName url))
                  ["--depth=1"] with
          | Ok _ => Ok (Git.getRepoPath w cache (Git.urlToDirectoryName url))
          | Throw e => Throw e
          end,
          [Git.mkClone (Git.normalizeGitUrl url)
             (Git.getRepoPath w cache (Git.urlToDirectoryName url))
             ["--depth=1"]]).
Proof.
  intros Hgit Hdir. unfold Git.init. rewrite Hgit.
  destruct (String.eqb _ "") eqn:He.
  - apply String.eqb_eq in He. contradiction.
  - unfold Git.hasRepo, Git.cloneRepo.
    destruct (Git.enabled cache); simpl;
      destruct (Git.pathExists w _); reflexivity.
Qed.

(** The repository of the documentation, marked with [@], with caching
    switched off and nothing on the disk: it is cloned into the cache. *)
Lemma init_uses_the_cache_directory_witness :
  Git.init (GitDemo.world []) "@https://github.com/my-org/design-system.git"
           (Some (Git.mkCache ".pd-scout-cache" false))
  = (Ok ".pd-scout-cache/repos/github_com-my-org-design-system",
     [Git.mkClone "https://github.com/my-org/design-system.git"
        ".pd-scout-cache/repos/github_com-my-org-design-system"
        ["--depth=1"]]).
Proof.
  rewrite init_uses_the_cache_directory_whatever_the_flag;
    [reflexivity | reflexivity | discriminate].
Defined.

(** ** RepoHandler *)

Section RegexFacts.

Variable matcher : Js.Matcher.

Lemma findMatch_Some (matchAt : nat -> option nat) (tries pos e : nat) :
  Js.findMatch matchAt tries pos = Some e ->
  exists p, pos <= p < pos + tries /\ matchAt p = Some e.
Proof.
  revert pos. induction tries as [|k IH]; intros pos H; simpl in H.
  - discriminate.
  - destruct (matchAt pos) eqn:Hp.
    + injection H as <-. exists pos. split; [lia | exact Hp].
    + destruct (IH _ H) as (p & Hr & Hm). exists p. split; [lia | exact Hm].
Qed.

Lemma findMatch_None (matchAt : nat -> option nat) (tries pos : nat) :
  Js.findMatch matchAt tries pos = None ->
  forall p, pos <= p < pos + tries -> matchAt p = None.
Proof.
  revert pos. induction tries as [|k IH]; intros pos H p Hp; simpl in H.
  - lia.
  - destruct (matchAt pos) eqn:Hpos; [discriminate|].
    destruct (Nat.eq_dec p pos) as [->|Hne]; [exact Hpos|].
    apply (IH _ H). lia.
Qed.

Lemma regexTest_true (line : string) (lastIndex e : nat) :
  Js.regexTest matcher line lastIndex = (true, e) ->
  exists p, lastIndex <= p <= String.length line /\ matcher line p = Some e.
Proof.
  unfold Js.regexTest. destruct (String.length line <? lastIndex) eqn:Hlt;
    [discriminate|].
  apply Nat.ltb_ge in Hlt.
  destruct (Js.findMatch _ _ _) eqn:Hf; [|discriminate].
  intros H. injection H as <-.
  destruct (findMatch_Some _ _ _ _ Hf) as (p & Hr & Hm).
  exists p. split; [lia | exact Hm].
Qed.

Lemma regexTest_false (line : string) (lastIndex next : nat) :
  Js.regexTest matcher line lastIndex = (false, next) ->
  next = 0
  /\ forall p, lastIndex <= p <= String.length line -> matcher line p = None.
Proof.
  unfold Js.regexTest. destruct (String.length line <? lastIndex) eqn:Hlt.
  - apply Nat.ltb_lt in Hlt. intros H. injection H as <-.
    split; [reflexivity | intros p Hp; lia].
  - apply Nat.ltb_ge in Hlt.
    destruct (Js.findMatch _ _ _) eqn:Hf; [discriminate|].
    intros H. injection H as <-. split; [reflexivity|].
    intros p Hp. apply (findMatch_None _ _ _ Hf). lia.
Qed.

Lemma regexTest_matching (line : string) :
  Js.matchesSomewhere matcher line ->
  exists e, Js.regexTest matcher line 0 = (true, e).
Proof.
  intros (p & e & Hp & Hm).
  destruct (Js.regexTest matcher line 0) as [[|] next] eqn:Ht.
  - now exists next.
  - destruct (regexTest_false _ _ _ Ht) as [_ Hnone].
    rewrite Hnone in Hm by lia. discriminate.
Qed.

Lemma regexTest_not_matching (line : string) :
  ~ Js.matchesSomewhere matcher line ->
  Js.regexTest matcher line 0 = (false, 0).
Proof.
  intros Hno. destruct (Js.regexTest matcher line 0) as [[|] next] eqn:Ht.
  - destruct (regexTest_true _ _ _ Ht) as (p & Hp & Hm).
    exfalso. apply Hno. exists p, next. split; [lia | exact Hm].
  - destruct (regexTest_false _ _ _ Ht) as [-> _]. reflexivity.
Qed.

Lemma regexTest_behind (line : string) (lastIndex : nat) :
  (forall p, lastIndex <= p -> matcher line p = None) ->
  Js.regexTest matcher line lastIndex = (false, 0).
Proof.
  intros Hnone.
  destruct (Js.regexTest matcher line lastIndex) as [[|] next] eqn:Ht.
  - destruct (regexTest_true _ _ _ Ht) as (p & Hp & Hm).
    rewrite Hnone in Hm by lia. discriminate.
  - destruct (regexTest_false _ _ _ Ht) as [-> _]. reflexivity.
Qed.

Variable file : string.

(** Every hit of a scan is a non-empty line with a match, under its number. *)
Lemma scanLines_sound (lines : list string) (i lastIndex : nat) (hit : Repo.Hit) :
  In hit (Repo.scanLines matcher file lines i lastIndex) ->
  Repo.hit_file hit = file
  /\ exists k line,
       nth_error lines k = Some line
       /\ Repo.hit_line hit = i + k + 1
       /\ line <> EmptyString
       /\ Js.matchesSomewhere matcher line
       /\ Repo.hit_content hit = Js.trim line.
Proof.
  revert i lastIndex.
  induction lines as [|line rest IH]; intros i lastIndex Hin; simpl in Hin.
  - contradiction.
  - assert (Hrest : forall li,
              In hit (Repo.scanLines matcher file rest (S i) li) ->
              Repo.hit_file hit = file /\
              exists k l, nth_error (line :: rest) k = Some l
                          /\ Repo.hit_line hit = i + k + 1
                          /\ l <> EmptyString
                          /\ Js.matchesSomewhere matcher l
                          /\ Repo.hit_content hit = Js.trim l).
    { intros li H. destruct (IH _ _ H) as (Hf & k & l & Hk & Hl & Hrest).
      split; [exact Hf|]. exists (S k), l. split; [exact Hk|].
      split; [lia | exact Hrest]. }
    destruct line as [|c cs]; [exact (Hrest _ Hin)|].
    destruct (Js.regexTest matcher (String c cs) lastIndex) as [[|] next] eqn:Ht.
    + destruct Hin as [<-|Hin]; [|exact (Hrest _ Hin)].
      split; [reflexivity|]. exists 0, (String c cs).
      split; [reflexivity|]. split; [simpl; lia|].
      split; [discriminate|]. split; [|reflexivity].
      destruct (regexTest_true _ _ _ Ht) as (p & Hp & Hm).
      exists p, next. split; [lia | exact Hm].
    + exact (Hrest _ Hin).
Qed.

(** Lines without a match leave the expression where it starts. *)
Lemma scanLines_skip (lines : list string) (k i : nat) :
  (forall j earlier, j < k -> nth_error lines j = Some earlier ->
     earlier = EmptyString \/ ~ Js.matchesSomewhere matcher earlier) ->
  k <= length lines ->
  Repo.scanLines matcher file lines i 0
  = Repo.scanLines matcher file (skipn k lines) (i + k) 0.
Proof.
  revert lines i. induction k as [|k IH]; intros lines i Hno Hlen.
  - simpl. now rewrite Nat.add_0_r.
  - destruct lines as [|line rest]; [simpl in Hlen; lia|].
    simpl in Hlen. simpl skipn.
    replace (i + S k) with (S i + k) by lia.
    rewrite <- (IH rest (S i)).
    + destruct (Hno 0 line ltac:(lia) eq_refl) as [->|Hnm]; [reflexivity|].
      simpl. destruct line as [|c cs]; [reflexivity|].
      now rewrite (regexTest_not_matching _ Hnm).
    + intros j earlier Hj Hnth. apply (Hno (S j) earlier); [lia | exact Hnth].
    + lia.
Qed.

Lemma nth_error_skipn (lines : list string) (k : nat) (line : string) :
  nth_error lines k = Some line ->
  exists rest, skipn k lines = line :: rest
               /\ forall j, nth_error rest j = nth_error lines (S k + j).
Proof.
  revert lines. induction k as [|k IH]; intros lines H.
  - destruct lines as [|l rest]; [discriminate|]. injection H as ->.
    exists rest. split; reflexivity.
  - destruct lines as [|l rest]; [discriminate|]. simpl in H.
    destruct (IH _ H) as (r & Hs & Hn). exists r. split; [exact Hs|].
    intros j. rewrite Hn. reflexivity.
Qed.

(** The first line with a match is reported. *)
Lemma scanLines_first (lines : list string) (k i : nat) (line : string) :
  nth_error lines k = Some line ->
  line <> EmptyString ->
  Js.matchesSomewhere matcher line ->
  (forall j earlier, j < k -> nth_error lines j = Some earlier ->
     earlier = EmptyString \/ ~ Js.matchesSomewhere matcher earlier) ->
  exists e rest,
    skipn k lines = line :: rest
    /\ Js.regexTest matcher line 0 = (true, e)
    /\ Repo.scanLines matcher file lines i 0
       = Repo.mkHit file (i + k + 1) (Js.trim line)
         :: Repo.scanLines matcher file rest (S (i + k)) e.
Proof.
  intros Hk Hne Hm Hno.
  destruct (regexTest_matching _ Hm) as (e & He).
  destruct (nth_error_skipn _ _ _ Hk) as (rest & Hs & _).
  exists e, rest. split; [exact Hs|]. split; [exact He|].
  rewrite (scanLines_skip lines k i Hno).
  - rewrite Hs. simpl. destruct line as [|c cs]; [contradiction|].
    now rewrite He.
  - apply Nat.lt_le_incl. apply nth_error_Some. now rewrite Hk.
Qed.

End RegexFacts.

Section SearchFacts.

Variable w : Repo.World.
Variable repoPath : string.

Lemma searchFile_sound (pattern file : string) (hit : Repo.Hit) :
  In hit (Repo.searchFile w repoPath pattern file) ->
  Repo.hit_file hit = file
  /\ exists content matcher,
       Repo.readFile w repoPath file = Ok content
       /\ Repo.RegExp w pattern = Ok matcher
       /\ In hit (Repo.scanLines matcher file (Js.splitLines content) 0 0).
Proof.
  unfold Repo.searchFile.
  destruct (Repo.readFile w repoPath file) as [content|]; [|contradiction].
  destruct (Repo.RegExp w pattern) as [matcher|]; [|contradiction].
  intros Hin. split; [exact (proj1 (scanLines_sound _ _ _ _ _ _ Hin))|].
  exists content, matcher. repeat split. exact Hin.
Qed.

End SearchFacts.



(** X18. In every listed file that can be read, the first non-empty line with a
    match is reported. *)
Theorem search_reports_the_first_matching_line
        (w : Repo.World) (repoPath pattern : string)
        (filePattern : option string) (files : list string)
        (file content : string) (matcher : Js.Matcher)
        (k : nat) (line : string) :
  Repo.listFiles w repoPath [Repo.filePatternOrAll filePattern] = Ok files ->
  In file files ->
  Repo.readFile w repoPath file = Ok content ->
  Repo.RegExp w pattern = Ok matcher ->
  nth_error (Js.splitLines content) k = Some line ->
  line <> EmptyString ->
  Js.matchesSomewhere matcher line ->
  (forall j earlier, j < k ->
     nth_error (Js.splitLines content) j = Some earlier ->
     earlier = EmptyString \/ ~ Js.matchesSomewhere matcher earlier) ->
  exists hits,
    Repo.searchCode w repoPath pattern filePattern = Ok hits
    /\ In (Repo.mkHit file (k + 1) (Js.trim line)) hits.
Proof.
  intros Hlist Hfile Hread Hre Hk Hne Hm Hno.
  unfold Repo.searchCode. rewrite Hlist. eexists. split; [reflexivity|].
  apply in_flat_map. exists file. split; [exact Hfile|].
  unfold Repo.searchFile. rewrite Hread, Hre.
  destruct (scanLines_first matcher file _ k 0 line Hk Hne Hm Hno)
    as (e & rest & _ & _ & ->).
  left. reflexivity.
Qed.

(** The line [color: red], the fourth of [a.css], is the first that holds
    [red]. *)
Lemma search_first_line_witness :
  exists hits,
    Repo.searchCode RepoDemo.world "/repo" "red" None = Ok hits
    /\ In (Repo.mkHit "a.css" (3 + 1) (Js.trim "color: red")) hits.
Proof.
  apply (search_reports_the_first_matching_line RepoDemo.world "/repo" "red"
           None ["a.css"; "gone.css"] "a.css"
           (String.concat (String (ascii_of_nat 10) EmptyString)
              ["fontsize: 1"; "fontsize: 2"; ""; "color: red"])
           (RepoDemo.literal "red") 3 "color: red").
  - reflexivity.
  - left. reflexivity.
  - reflexivity.
  - reflexivity.
  - reflexivity.
  - discriminate.
  - exists 7, 10. split; [simpl; lia | reflexivity].
  - intros j earlier Hj Hnth.
    destruct j as [|[|[|j]]]; [| | |lia]; injection Hnth as <-;
      [right | right | left; reflexivity];
      intros (p & e & Hp & Hm); simpl in Hp;
      do 12 (destruct p as [|p]; [discriminate Hm|]); lia.
Defined.

Section SkippedFacts.

Variable w : Repo.World.
Variable repoPath : string.

Lemma scanLines_from (matcher : Js.Matcher) (file : string)
      (lines : list string) (i lastIndex : nat) :
  Forall (fun hit => i < Repo.hit_line hit)
         (Repo.scanLines matcher file lines i lastIndex).
Proof.
  apply Forall_forall. intros hit Hin.
  destruct (scanLines_sound _ _ _ _ _ _ Hin) as (_ & k & l & _ & -> & _).
  lia.
Qed.

End SkippedFacts.

(** X19. The expression is global and keeps its position from one line to the
    next, so a line right after a reported one is searched only from the
    column where the previous match ended. When the first matching line of a
    file is followed by a line whose matches all start before that column,
    the following line is not reported, although the first one is. *)
Theorem search_skips_a_match_before_the_previous_end
        (w : Repo.World) (repoPath pattern : string)
        (filePattern : option string) (files : list string)
        (file content : string) (matcher : Js.Matcher)
        (k e : nat) (line next : string) :
  Repo.listFiles w repoPath [Repo.filePatternOrAll filePattern] = Ok files ->
  Repo.readFile w repoPath file = Ok content ->
  Repo.RegExp w pattern = Ok matcher ->
  nth_error (Js.splitLines content) k = Some line ->
  nth_error (Js.splitLines content) (S k) = Some next ->
  line <> EmptyString ->
  (forall j earlier, j < k ->
     nth_error (Js.splitLines content) j = Some earlier ->
     earlier = EmptyString \/ ~ Js.matchesSomewhere matcher earlier) ->
  Js.regexTest matcher line 0 = (true, e) ->
  (forall p, e <= p -> matcher next p = None) ->
  exists hits,
    Repo.searchCode w repoPath pattern filePattern = Ok hits
    /\ Forall (fun hit => Repo.hit_file hit = file ->
                          Repo.hit_line hit <> k + 2) hits.
Proof.
  intros Hlist Hread Hre Hk Hnext Hne Hno He Hbehind.
  unfold Repo.searchCode. rewrite Hlist. eexists. split; [reflexivity|].
  apply Forall_forall. intros hit Hin Hfile.
  apply in_flat_map in Hin. destruct Hin as (f & _ & Hin).
  destruct (searchFile_sound _ _ _ _ _ Hin) as (Hf & _).
  rewrite Hfile in Hf. subst f.
  unfold Repo.searchFile in Hin. rewrite Hread, Hre in Hin.
  assert (Hm : Js.matchesSomewhere matcher line).
  { destruct (regexTest_true _ _ _ _ He) as (p & Hp & Hmp).
    exists p, e. split; [lia | exact Hmp]. }
  destruct (scanLines_first matcher file _ k 0 line Hk Hne Hm Hno)
    as (e' & rest & Hskip & He' & Hscan).
  rewrite He in He'. injection He' as <-.
  rewrite Hscan in Hin.
  destruct (nth_error_skipn _ _ _ Hk) as (rest' & Hskip' & Hrest).
  rewrite Hskip in Hskip'. injection Hskip' as <-.
  specialize (Hrest 0). rewrite Nat.add_0_r, Hnext in Hrest.
  destruct rest as [|next' more]; [discriminate|]. injection Hrest as ->.
  destruct Hin as [<-|Hin]; [simpl; lia|].
  simpl in Hin.
  assert (Hafter : exists lastIndex,
            In hit (Repo.scanLines matcher file more (S (S k)) lastIndex)).
  { destruct next as [|c cs]; [now exists e|].
    rewrite (regexTest_behind _ _ _ Hbehind) in Hin. now exists 0. }
  destruct Hafter as (lastIndex & Hafter).
  pose proof (scanLines_from matcher file more (S (S k)) lastIndex) as Hall.
  rewrite Forall_forall in Hall. specialize (Hall hit Hafter). lia.
Qed.

(** In [a.css] the line [fontsize: 2] follows the line [fontsize: 1]: both
    hold [fontsize] in column 0, and only the first is reported. *)
Lemma search_skips_witness :
  Js.matchesSomewhere (RepoDemo.literal "fontsize") "fontsize: 2"
  /\ exists hits,
       Repo.searchCode RepoDemo.world "/repo" "fontsize" None = Ok hits
       /\ Forall (fun hit => Repo.hit_file hit = "a.css" ->
                             Repo.hit_line hit <> 0 + 2) hits.
Proof.
  split.
  - exists 0, 8. split; [simpl; lia | reflexivity].
  - apply (search_skips_a_match_before_the_previous_end RepoDemo.world "/repo"
             "fontsize" None ["a.css"; "gone.css"] "a.css"
             (String.concat (String (ascii_of_nat 10) EmptyString)
                ["fontsize: 1"; "fontsize: 2"; ""; "color: red"])
             (RepoDemo.literal "fontsize") 0 8 "fontsize: 1" "fontsize: 2").
    + reflexivity.
    + reflexivity.
    + reflexivity.
    + reflexivity.
    + reflexivity.
    + discriminate.
    + intros j earlier Hj. lia.
    + reflexivity.
    + intros p Hp. unfold RepoDemo.literal.
      do 8 (destruct p as [|p]; [lia|]).
      do 4 (destruct p as [|p]; [reflexivity|]). reflexivity.
Defined.

Section ReadFilesFacts.

Variable w : Repo.World.
Variable repoPath : string.

Lemma ownProp_assign_same (key value : string) (obj : list (string * string)) :
  Repo.ownProp key (Repo.assign key value obj) = Some value.
Proof.
  induction obj as [|[k v] rest IH]; simpl.
  - now rewrite String.eqb_refl.
  - destruct (String.eqb k key) eqn:Hk; simpl; rewrite Hk; [reflexivity | exact IH].
Qed.

Lemma ownProp_assign_other (key other value : string)
      (obj : list (string * string)) :
  other <> key ->
  Repo.ownProp other (Repo.assign key value obj) = Repo.ownProp other obj.
Proof.
  intros Hne. induction obj as [|[k v] rest IH]; simpl.
  - destruct (String.eqb key other) eqn:Hk; [|reflexivity].
    apply String.eqb_eq in Hk. congruence.
  - destruct (String.eqb k key) eqn:Hk; simpl.
    + apply String.eqb_eq in Hk. subst k.
      destruct (String.eqb key other) eqn:Ho; [|reflexivity].
      apply String.eqb_eq in Ho. congruence.
    + now rewrite IH.
Qed.

(** The property [key] after the loop of [readFiles] over [filePaths], started
    from [results]. *)
Lemma readFiles_fold (filePaths : list string) (key : string)
      (results : list (string * string)) :
  Repo.ownProp key
    (fold_left (fun results filePath =>
                  Repo.setProp filePath (Repo.fileEntry w repoPath filePath)
                               results)
               filePaths results)
  = if in_dec string_dec key filePaths
    then if String.eqb key "__proto__" then Repo.ownProp key results
         else Some (Repo.fileEntry w repoPath key)
    else Repo.ownProp key results.
Proof.
  revert results. induction filePaths as [|p rest IH]; intros results.
  - reflexivity.
  - cbn [fold_left]. rewrite IH. unfold Repo.setProp.
    destruct (string_dec p key) as [->|Hne].
    + destruct (in_dec string_dec key (key :: rest)) as [_|Hout];
        [|exfalso; apply Hout; now left].
      destruct (String.eqb key "__proto__") eqn:Hproto.
      * now destruct (in_dec string_dec key rest).
      * destruct (in_dec string_dec key rest); [reflexivity|].
        apply ownProp_assign_same.
    + assert (Hsame : Repo.ownProp key
                (if String.eqb p "__proto__" then results
                 else Repo.assign p (Repo.fileEntry w repoPath p) results)
              = Repo.ownProp key results).
      { destruct (String.eqb p "__proto__"); [reflexivity|].
        apply ownProp_assign_other. congruence. }
      rewrite Hsame.
      destruct (in_dec string_dec key rest) as [Hin|Hout];
        destruct (in_dec string_dec key (p :: rest)) as [Hin'|Hout'];
        try reflexivity.
      * exfalso. apply Hout'. now right.
      * destruct Hin' as [Heq|Hin']; [congruence | contradiction].
Qed.

End ReadFilesFacts.

(** X20. [readFiles] never fails and answers for every path it is given: the
    object it returns has, for each requested path other than [__proto__], the
    content of the file, or, when the file cannot be read, a placeholder text
    that carries the error; it has no other property, and none for
    [__proto__]. *)
Theorem readFiles_answers_for_every_path
        (w : Repo.World) (repoPath : string) (filePaths : list string) :
  (forall filePath, In filePath filePaths -> filePath <> "__proto__" ->
     Repo.ownProp filePath (Repo.readFiles w repoPath filePaths)
     = Some (match Repo.readFile w repoPath filePath with
             | Ok content => content
             | Throw e =>
                 ("[Error reading file: " ++ Js.errorToString e ++ "]")%string
             end))
  /\ (forall filePath,
        Repo.pathExists w (Repo.join w [repoPath; filePath]) = false ->
        Repo.readFile w repoPath filePath
        = Throw ("File not found: " ++ filePath))
  /\ (forall key, ~ In key filePaths ->
        Repo.ownProp key (Repo.readFiles w repoPath filePaths) = None)
  /\ Repo.ownProp "__proto__" (Repo.readFiles w repoPath filePaths) = None.
Proof.
  unfold Repo.readFiles. repeat split.
  - intros filePath Hin Hproto. rewrite readFiles_fold.
    destruct (in_dec string_dec filePath filePaths); [|contradiction].
    destruct (String.eqb filePath "__proto__") eqn:He; [|reflexivity].
    apply String.eqb_eq in He. contradiction.
  - intros filePath Hex. unfold Repo.readFile. now rewrite Hex.
  - intros key Hout. rewrite readFiles_fold.
    now destruct (in_dec string_dec key filePaths).
  - rewrite readFiles_fold.
    now destruct (in_dec string_dec "__proto__" filePaths).
Qed.

(** X21. [getDependencies] gives two objects when there is no [package.json];
    when it returns, neither field is a falsy value; and a manifest whose text
    is [null] makes it fail with a [TypeError]. *)
Theorem getDependencies_defaults_and_null_manifest (w : Repo.World) (repoPath : string) :
  (Repo.pathExists w (Repo.join w [repoPath; "package.json"]) = false ->
   Repo.getDependencies w repoPath = Ok (JObj [], JObj []))
  /\ (forall dependencies devDependencies,
        Repo.getDependencies w repoPath
        = Ok (dependencies, devDependencies) ->
        Js.truthy dependencies = true /\ Js.truthy devDependencies = true)
  /\ (forall content,
        Repo.pathExists w (Repo.join w [repoPath; "package.json"]) = true ->
        Repo.readText w (Repo.join w [repoPath; "package.json"]) = Ok content ->
        Repo.parseJSON w content = Ok JNull ->
        Repo.getDependencies w repoPath
        = Throw "Cannot read properties of null (reading 'dependencies')").
Proof.
  assert (Htruthy : forall v, Js.truthy (Repo.orEmptyObject v) = true).
  { intros v. unfold Repo.orEmptyObject.
    destruct (Js.truthy v) eqn:Hv; [exact Hv | reflexivity]. }
  split; [|split].
  - unfold Repo.getDependencies. intros ->. reflexivity.
  - unfold Repo.getDependencies. intros dependencies devDependencies H.
    destruct (Repo.pathExists w _); simpl in H.
    + destruct (Repo.readText w _); [|discriminate].
      destruct (Repo.parseJSON w _); [|discriminate].
      destruct (getProp _ "dependencies"); [|discriminate].
      destruct (getProp _ "devDependencies"); [|discriminate].
      injection H as <- <-. split; apply Htruthy.
    + injection H as <- <-. split; reflexivity.
  - unfold Repo.getDependencies. intros content Hex Hread Hparse.
    now rewrite Hex, Hread, Hparse.
Qed.

(** ** ContextHandler *)

Section ContextFacts.

Import Context.

Variable w : World.

Lemma initSource_cases (cache : option Git.Cache) (source : Source)
      (paths paths' : Paths) (clones : list Git.Clone) :
  initSource w cache source paths = (Ok paths', clones) ->
  paths' = paths
  \/ exists base, paths' = mapSet (url source) base paths
                  /\ Registered w cache (url source) base.
Proof.
  unfold initSource, Registered.
  destruct (Git.isGitUrl (url source)) eqn:Hgit.
  - destruct cache as [c|]; [|intros H; injection H as <- _; now left].
    destruct (String.eqb _ "") eqn:He; [intros H; injection H as <- _; now left|].
    apply String.eqb_neq in He.
    assert (Hreg : (true = false ->
                    Git.getRepoPath (git w) c (contextName (url source))
                    = url source)
                   /\ (true = true ->
                       exists c0, Some c = Some c0
                         /\ Git.getRepoPath (git w) c (contextName (url source))
                            = Git.getRepoPath (git w) c0 (contextName (url source))
                         /\ Git.getRepoPath (git w) c (contextName (url source))
                            <> EmptyString)).
    { split; [discriminate|]. intros _. exists c. repeat split. exact He. }
    destruct (Git.hasRepo (git w) c _).
    + intros H. injection H as <- _. right. eexists. split; [reflexivity | exact Hreg].
    + unfold Git.cloneRepo. destruct (Git.pathExists (git w) _).
      * intros H. injection H as <- _. right. eexists.
        split; [reflexivity | exact Hreg].
      * destruct (Git.gitClone (git w) _ _ _); [|discriminate].
        intros H. injection H as <- _. right. eexists.
        split; [reflexivity | exact Hreg].
  - intros H. injection H as <- _. right. exists (url source).
    split; [reflexivity|]. split; [reflexivity|]. intros H. discriminate.
Qed.

Lemma init_registered (cache : option Git.Cache) (sources : list Source)
      (paths : Paths) (sourceUrl base : string) :
  mapGet sourceUrl (snd (fst (init w cache sources paths))) = Some base ->
  mapGet sourceUrl paths = Some base
  \/ (In sourceUrl (map url sources) /\ Registered w cache sourceUrl base).
Proof.
  revert paths. induction sources as [|source rest IH]; intros paths; simpl.
  - now left.
  - destruct (initSource w cache source paths) as [[paths'|e] clones] eqn:Hs;
      [|simpl; now left].
    specialize (IH paths').
    destruct (init w cache rest paths') as [[outcome final] more]. simpl in *.
    intros Hget. destruct (IH Hget) as [Hold|[Hin Hreg]].
    + destruct (initSource_cases _ _ _ _ _ Hs) as [->|(v & -> & Hreg)];
        [now left|].
      destruct (string_dec sourceUrl (url source)) as [->|Hne].
      * unfold mapGet, mapSet in Hold. rewrite ownProp_assign_same in Hold.
        injection Hold as ->. right. split; [now left | exact Hreg].
      * unfold mapGet, mapSet in Hold.
        rewrite ownProp_assign_other in Hold by exact Hne. now left.
    + right. split; [now right | exact Hreg].
Qed.

Lemma init_without_cache (sources : list Source) (paths : Paths) :
  exists final,
    init w None sources paths = (Ok tt, final, [])
    /\ forall sourceUrl,
         mapGet sourceUrl final
         = if in_dec string_dec sourceUrl (map url sources)
           then if Git.isGitUrl sourceUrl then mapGet sourceUrl paths
                else Some sourceUrl
           else mapGet sourceUrl paths.
Proof.
  revert paths. induction sources as [|source rest IH]; intros paths.
  - exists paths. split; reflexivity.
  - cbn [init]. unfold initSource.
    destruct (Git.isGitUrl (url source)) eqn:Hgit.
    + destruct (IH paths) as (final & -> & Hget). exists final.
      split; [reflexivity|]. intros u. rewrite Hget. cbn [map].
      destruct (in_dec string_dec u (map url rest)) as [Hin|Hout];
        destruct (in_dec string_dec u (url source :: map url rest))
          as [Hin'|Hout']; try reflexivity.
      * exfalso. apply Hout'. now right.
      * destruct Hin' as [<-|Hin']; [|contradiction]. now rewrite Hgit.
    + destruct (IH (mapSet (url source) (url source) paths))
        as (final & -> & Hget).
      exists final. split; [reflexivity|]. intros u. rewrite Hget. cbn [map].
      unfold mapGet, mapSet.
      destruct (string_dec u (url source)) as [->|Hne].
      * rewrite ownProp_assign_same, Hgit.
        destruct (in_dec string_dec (url source) (url source :: map url rest))
          as [_|Hout]; [|exfalso; apply Hout; now left].
        now destruct (in_dec string_dec (url source) (map url rest)).
      * rewrite ownProp_assign_other by exact Hne.
        destruct (in_dec string_dec u (map url rest)) as [Hin|Hout];
          destruct (in_dec string_dec u (url source :: map url rest))
            as [Hin'|Hout']; try reflexivity.
        -- exfalso. apply Hout'. now right.
        -- destruct Hin' as [Heq|Hin']; [congruence | contradiction].
Qed.

End ContextFacts.

(** X22. Whatever [init] leaves in [contextPaths], also when a clone fails,
    belongs to one of the sources: a local source stands under its own URL,
    a Git source under the directory [context-<name>] of the cache. *)
Theorem context_paths_belong_to_the_sources
        (w : Context.World) (cache : option Git.Cache)
        (sources : list Context.Source) (sourceUrl base : string) :
  Context.mapGet sourceUrl (snd (fst (Context.init w cache sources [])))
  = Some base ->
  In sourceUrl (map Context.url sources)
  /\ (Git.isGitUrl sourceUrl = false -> base = sourceUrl)
  /\ (Git.isGitUrl sourceUrl = true ->
      exists c, cache = Some c
                /\ base = Git.getRepoPath (Context.git w) c
                            (Context.contextName sourceUrl)
                /\ base <> EmptyString).
Proof.
  intros Hget. destruct (init_registered w _ _ _ _ _ Hget) as [H|[Hin Hreg]].
  - discriminate.
  - split; [exact Hin | exact Hreg].
Qed.

(** A local source and a Git source, with a cache: the Git source stands
    under its directory in the cache. *)
Lemma context_paths_witness :
  In "@github.com/my-org/design-system"
     (map Context.url
          [Context.mkSource "./docs" "design-system" None;
           Context.mkSource "@github.com/my-org/design-system"
                            "design-system" None])
  /\ (Git.isGitUrl "@github.com/my-org/design-system" = false ->
      ".pd-scout-cache/repos/context-github_com-my-org-design-system"
      = "@github.com/my-org/design-system")
  /\ (Git.isGitUrl "@github.com/my-org/design-system" = true ->
      exists c,
        Some (Git.mkCache ".pd-scout-cache" true) = Some c
        /\ ".pd-scout-cache/repos/context-github_com-my-org-design-system"
           = Git.getRepoPath (Context.git ContextDemo.world) c
               (Context.contextName "@github.com/my-org/design-system")
        /\ ".pd-scout-cache/repos/context-github_com-my-org-design-system"
           <> EmptyString).
Proof.
  apply (context_paths_belong_to_the_sources ContextDemo.world
           (Some (Git.mkCache ".pd-scout-cache" true))).
  reflexivity.
Defined.

(** X23. Without a cache [init] neither fails nor clones: the local sources are
    registered under their own URL and the Git sources are left out, so that
    asking for a document of a Git source fails with [Context source not
    found]. *)
Theorem context_init_without_cache_drops_git_sources
        (w : Context.World) (sources : list Context.Source) :
  exists paths,
    Context.init w None sources [] = (Ok tt, paths, [])
    /\ (forall sourceUrl,
          Context.mapGet sourceUrl paths
          = if in_dec string_dec sourceUrl (map Context.url sources)
            then if Git.isGitUrl sourceUrl then None else Some sourceUrl
            else None)
    /\ (forall sourceUrl relativePath,
          Git.isGitUrl sourceUrl = true ->
          Context.readDocument w paths relativePath (Some sourceUrl)
          = Throw ("Context source not found: " ++ sourceUrl)).
Proof.
  destruct (init_without_cache w sources []) as (paths & Hinit & Hget).
  exists paths. split; [exact Hinit|]. split; [exact Hget|].
  intros sourceUrl relativePath Hgit. unfold Context.readDocument.
  destruct sourceUrl as [|c rest]; [discriminate|].
  rewrite Hget, Hgit.
  now destruct (in_dec string_dec (String c rest) (map Context.url sources)).
Qed.

(** X24. [readDocument] without a source answers with the first registered
    source, in the order of registration, under which the path can be read;
    when none can, the error is [Document not found], whatever the errors of
    the reads were. *)
Theorem readDocument_takes_the_first_source_that_reads
        (w : Context.World) (paths : Context.Paths) (relativePath : string) :
  match Context.readDocument w paths relativePath None with
  | Ok text =>
      exists before sourceUrl base after,
        paths = before ++ (sourceUrl, base) :: after
        /\ Forall (fun entry =>
                     forall other,
                       Context.readText w
                         (Git.join (Context.git w) [snd entry; relativePath])
                       <> Ok other) before
        /\ Context.readText w
             (Git.join (Context.git w) [base; relativePath]) = Ok text
  | Throw e =>
      e = ("Document not found: " ++ relativePath)%string
      /\ Forall (fun entry =>
                   forall other,
                     Context.readText w
                       (Git.join (Context.git w) [snd entry; relativePath])
                     <> Ok other) paths
  end.
Proof.
  unfold Context.readDocument.
  induction paths as [|[u base] rest IH]; simpl.
  - split; [reflexivity | constructor].
  - destruct (Context.readText w _) as [text|e] eqn:Hread.
    + exists [], u, base, rest. split; [reflexivity|].
      split; [constructor | exact Hread].
    + destruct (Context.searchSources w rest relativePath) as [text|e'].
      * destruct IH as (before & u' & base' & after & -> & Hall & Hok).
        exists ((u, base) :: before), u', base', after.
        split; [reflexivity|]. split; [|exact Hok].
        constructor; [|exact Hall]. simpl. intros other. rewrite Hread.
        discriminate.
      * destruct IH as [-> Hall]. split; [reflexivity|].
        constructor; [|exact Hall]. simpl. intros other. rewrite Hread.
        discriminate.
Qed.

(** ** The prompts and the first request *)

Section FirstRequestFacts.

Variable cfg : Config.
Variable env : Env.



End FirstRequestFacts.


